(** * HMS-NUT: the asynchronous MQTT client core and the multi-device collector

    A shallow embedding of the C++ sources

    - [src/mqtt/MqttClient.cpp]          (topic routing, subscribe, publish, dispatch),
    - [src/mqtt/DiscoveryPublisher.cpp]  (discovery republish and removal),
    - [src/nut/UpsData.cpp]              (the device record, its merge step, its state messages),
    - [src/services/CollectorService.cpp] (topic parsing, buffering, scheduled flush),
    - [src/nut/NutClient.cpp]            (connection, back-off, reading the variables),
    - [src/services/NutBridgeService.cpp] (a poll of the bridge),
    - [src/database/DatabaseService.cpp] (the retries of an operation),

    together with the properties of the design document that can be stated
    about them.

    Conventions.  A [std::string] is a [string] (a list of bytes); a
    [std::optional<T>] is an [option T]; a [double] is an IEEE-754 binary64
    value, represented by [spec_float] with the operations of [SpecFloat] at
    precision 53 and maximal exponent 1024; an [int] is a [Z] kept in the
    32-bit range by the functions that produce it; a [std::map] is an
    association list kept in ascending key order, so that a range-[for] over
    it visits the entries in the order of the C++ container.  Text written to
    [std::cout] and [std::cerr] is not part of the model. *)

From Stdlib Require Import ZArith List String Ascii Bool Lia.
From Stdlib Require Import Floats.SpecFloat.
Import ListNotations.

Local Open Scope string_scope.
Local Open Scope list_scope.

(* ================================================================== *)
(** * The parts of the C and C++ standard libraries the sources call *)
(* ================================================================== *)

Module Cxx.

(** ** Characters *)

Definition code (c : ascii) : Z := Z.of_N (N_of_ascii c).

Definition in_range (lo hi : Z) (c : ascii) : bool :=
  ((lo <=? code c) && (code c <=? hi))%Z.

(** [isspace] in the "C" locale: space, and the controls 9 to 13. *)
Definition isspace (c : ascii) : bool :=
  (code c =? 32)%Z || in_range 9 13 c.

Definition tolower (c : ascii) : ascii :=
  if in_range 65 90 c then ascii_of_N (N_of_ascii c + 32) else c.

Definition digit_val (c : ascii) : option Z :=
  if in_range 48 57 c then Some (code c - 48)%Z else None.

Definition xdigit_val (c : ascii) : option Z :=
  if in_range 48 57 c then Some (code c - 48)%Z
  else if in_range 97 102 (tolower c) then Some (code (tolower c) - 87)%Z
  else None.

Definition isalnum_ (c : ascii) : bool :=
  in_range 48 57 c || in_range 97 122 (tolower c) || (code c =? 95)%Z.

(** ** [std::getline(stream, part, '/')] in a [while] loop

    [getline] fails, and the loop ends, when the stream is already at its
    end; otherwise it extracts up to the next delimiter or to the end of the
    input.  So an input that ends in the delimiter yields no empty last
    part, while an empty part in front of a delimiter is kept.
    [split_from cur s] is the loop with [cur] the characters of the current
    part read so far. *)

Fixpoint split_from (delim : ascii) (cur : string) (s : string) : list string :=
  match s with
  | EmptyString => if String.eqb cur "" then [] else [cur]
  | String c s' =>
      if Ascii.eqb c delim then cur :: split_from delim "" s'
      else split_from delim (cur ++ String c "") s'
  end.

Definition split (delim : ascii) (s : string) : list string :=
  split_from delim "" s.

(** ** [std::string::find(needle) != npos] *)

Fixpoint contains (needle hay : string) : bool :=
  String.prefix needle hay
  || match hay with
     | EmptyString => false
     | String _ hay' => contains needle hay'
     end.

(** ** Scanning digits, as [strtol] and [strtod] do *)

(** Reads the longest run of digits of [s]; returns the number read so far
    extended by them, how many there were, and the rest of the input. *)
Fixpoint scan_digits (val : ascii -> option Z) (base : Z)
         (s : string) (acc : Z) (n : nat) : Z * nat * string :=
  match s with
  | String c s' =>
      match val c with
      | Some d => scan_digits val base s' (acc * base + d)%Z (S n)
      | None => (acc, n, s)
      end
  | EmptyString => (acc, n, s)
  end.

Fixpoint skip_space (s : string) (n : nat) : nat * string :=
  match s with
  | String c s' => if isspace c then skip_space s' (S n) else (n, s)
  | EmptyString => (n, s)
  end.

(** An optional sign: whether it is a minus, its length, the rest. *)
Definition scan_sign (s : string) : bool * nat * string :=
  match s with
  | String "+"%char s' => (false, 1, s')
  | String "-"%char s' => (true, 1, s')
  | _ => (false, 0, s)
  end.

(** ** [std::stoi(str, &pos)]

    [strtol] in base 10, then the range check of the C++ wrapper.  [None]
    stands for a thrown exception: [std::invalid_argument] when there is no
    digit, [std::out_of_range] when the value does not fit an [int]. *)

Definition INT_MIN : Z := (- 2 ^ 31)%Z.
Definition INT_MAX : Z := (2 ^ 31 - 1)%Z.

Definition stoi (str : string) : option (Z * nat) :=
  let '(ws, s1) := skip_space str 0 in
  let '(neg, k, s2) := scan_sign s1 in
  let '(v, n, _) := scan_digits digit_val 10 s2 0 0 in
  if Nat.eqb n 0 then None
  else
    let v := if neg then (- v)%Z else v in
    if ((INT_MIN <=? v) && (v <=? INT_MAX))%Z then Some (v, ws + k + n)
    else None.

(** ** [double] *)

Definition double : Type := spec_float.
Definition prec : Z := 53.
Definition emax : Z := 1024.

Definition fmul : double -> double -> double := SFmul prec emax.
Definition fdiv : double -> double -> double := SFdiv prec emax.

(** The double nearest to [num / den] (ties to even), with sign [neg]. *)
Definition round_ratio (neg : bool) (num den : positive) : double :=
  SFdiv prec emax (S754_finite neg num 0) (S754_finite false den 0).

(** Whether the double [mr * 2 ^ er] is [num / den] exactly. *)
Definition exactly (num den mr : positive) (er : Z) : bool :=
  match er with
  | Zneg k => (Zpos num * 2 ^ Zpos k =? Zpos mr * Zpos den)%Z
  | _ => (Zpos num =? Zpos mr * 2 ^ er * Zpos den)%Z
  end.

(** Whether [num / den] is tiny: whether, rounded to the precision of a
    double but with no lower bound on the exponent, it is still below the
    smallest normal double [2 ^ (2 - emax)].  This is tininess after
    rounding, as the C library has it on x86-64: a value that rounds up to
    the smallest normal double is not tiny.  The rounding without the bound
    is that of a format with twice the exponent range. *)
Definition tiny (num den : positive) : bool :=
  match SFdiv prec (2 * emax) (S754_finite false num 0)
              (S754_finite false den 0) with
  | S754_finite _ m e => (Zpos (digits2_pos m) + e <=? 2 - emax)%Z
  | S754_zero _ => true
  | _ => false
  end.

(** Whether the conversion of [num / den] to [r] sets [ERANGE]: on
    overflow, and on underflow, that is when the value is tiny and the
    result is not exact. *)
Definition erange (num den : positive) (r : double) : bool :=
  match r with
  | S754_infinity _ => true
  | S754_zero _ => true
  | S754_finite _ mr er => tiny num den && negb (exactly num den mr er)
  | S754_nan => false
  end.

(** The value [m * base ^ e] as a double; [None] when [ERANGE] is set. *)
Definition convert (neg : bool) (m : Z) (base : Z) (e : Z) : option double :=
  match m with
  | Zpos p =>
      let num := if (0 <=? e)%Z then Z.to_pos (m * base ^ e) else p in
      let den := if (0 <=? e)%Z then 1%positive else Z.to_pos (base ^ (- e)) in
      let r := round_ratio neg num den in
      if erange num den r then None else Some r
  | _ => Some (S754_zero neg)
  end.

(** Digits with an optional radix point: the digits read as one integer,
    the number of digits after the point, the characters consumed. *)
Definition scan_mantissa (val : ascii -> option Z) (base : Z) (s : string)
  : option (Z * nat * nat * string) :=
  let '(m1, n1, r1) := scan_digits val base s 0 0 in
  match r1 with
  | String "."%char r2 =>
      let '(m2, n2, r3) := scan_digits val base r2 m1 0 in
      if Nat.eqb (n1 + n2) 0 then None else Some (m2, n2, n1 + 1 + n2, r3)
  | _ => if Nat.eqb n1 0 then None else Some (m1, 0, n1, r1)
  end.

(** An exponent part: the marker [e] (or [p]), an optional sign, digits.
    Nothing is consumed when no digit follows the marker. *)
Definition scan_exponent (marker : ascii) (s : string) : Z * nat :=
  match s with
  | String c r =>
      if Ascii.eqb (tolower c) marker then
        let '(neg, k, r') := scan_sign r in
        let '(v, n, _) := scan_digits digit_val 10 r' 0 0 in
        if Nat.eqb n 0 then (0%Z, 0)
        else ((if neg then - v else v)%Z, 1 + k + n)
      else (0%Z, 0)
  | EmptyString => (0%Z, 0)
  end.

Fixpoint lower (s : string) : string :=
  match s with
  | EmptyString => EmptyString
  | String c s' => String (tolower c) (lower s')
  end.

Fixpoint scan_nchars (s : string) (n : nat) : nat * string :=
  match s with
  | String c s' => if isalnum_ c then scan_nchars s' (S n) else (n, s)
  | EmptyString => (n, s)
  end.

(** [inf], [infinity], [nan] and [nan(chars)], in any letter case. *)
Definition scan_special (neg : bool) (s : string) : option (double * nat) :=
  let l := lower s in
  if String.prefix "infinity" l then Some (S754_infinity neg, 8)
  else if String.prefix "inf" l then Some (S754_infinity neg, 3)
  else if String.prefix "nan" l then
    match String.substring 3 (String.length s - 3) s with
    | String "("%char r =>
        match scan_nchars r 0 with
        | (n, String ")"%char _) => Some (S754_nan, 3 + 1 + n + 1)
        | _ => Some (S754_nan, 3)
        end
    | _ => Some (S754_nan, 3)
    end
  else None.

Definition scan_decimal (neg : bool) (s : string) : option (option double * nat) :=
  match scan_mantissa digit_val 10 s with
  | Some (m, frac, used, rest) =>
      let '(e, eused) := scan_exponent "e"%char rest in
      Some (convert neg m 10 (e - Z.of_nat frac), used + eused)
  | None => None
  end.

Definition scan_hex (neg : bool) (s : string) : option (option double * nat) :=
  match s with
  | String "0"%char (String x r) =>
      if Ascii.eqb (tolower x) "x"%char then
        match scan_mantissa xdigit_val 16 r with
        | Some (m, frac, used, rest) =>
            let '(e, eused) := scan_exponent "p"%char rest in
            Some (convert neg m 2 (e - 4 * Z.of_nat frac), 2 + used + eused)
        | None => None
        end
      else None
  | _ => None
  end.

(** ** [std::stod(str, &pos)]

    [strtod], then the checks of the C++ wrapper.  [None] stands for a
    thrown exception: [std::invalid_argument] when nothing was converted,
    [std::out_of_range] when [strtod] reports [ERANGE]. *)
Definition stod (str : string) : option (double * nat) :=
  let '(ws, s1) := skip_space str 0 in
  let '(neg, k, s2) := scan_sign s1 in
  match scan_special neg s2 with
  | Some (v, n) => Some (v, ws + k + n)
  | None =>
      match scan_hex neg s2 with
      | Some (Some v, n) => Some (v, ws + k + n)
      | Some (None, _) => None
      | None =>
          match scan_decimal neg s2 with
          | Some (Some v, n) => Some (v, ws + k + n)
          | Some (None, _) => None
          | None => None
          end
      end
  end.

(** The double that an integer literal such as [100.0] or [600.0] denotes. *)
Definition of_Z (z : Z) : double := binary_normalize prec emax z 0 false.

End Cxx.

(* ================================================================== *)
(** * [std::map<std::string, V>] *)
(* ================================================================== *)

Module StdMap.

Definition t (V : Type) : Type := list (string * V).

Definition empty {V : Type} : t V := [].

(** [m.find(k)], with [None] for [m.end()]. *)
Fixpoint find {V : Type} (k : string) (m : t V) : option V :=
  match m with
  | [] => None
  | (k', v) :: m' => if k =? k' then Some v else find k m'
  end.

(** [m[k] = v]: the entry is replaced, or inserted at its place in the
    order of the keys ([std::less<std::string>], bytes compared unsigned). *)
Fixpoint insert {V : Type} (k : string) (v : V) (m : t V) : t V :=
  match m with
  | [] => [(k, v)]
  | (k', v') :: m' =>
      match String.compare k k' with
      | Eq => (k, v) :: m'
      | Lt => (k, v) :: (k', v') :: m'
      | Gt => (k', v') :: insert k v m'
      end
  end.

(** [m.erase(k)] *)
Fixpoint erase {V : Type} (k : string) (m : t V) : t V :=
  match m with
  | [] => []
  | (k', v') :: m' => if k =? k' then m' else (k', v') :: erase k m'
  end.

Definition keys {V : Type} (m : t V) : list string := map fst m.

Definition size {V : Type} (m : t V) : nat := List.length m.

End StdMap.

(* ================================================================== *)
(** * [std::chrono::system_clock] *)
(* ================================================================== *)

(** A [time_point] is a count of clock ticks since the epoch; the clock
    ticks in nanoseconds.  [duration_cast<seconds>] truncates towards zero. *)
Definition time_point : Type := Z.

Definition ticks_per_second : Z := 1000000000.

Definition seconds_between (later earlier : time_point) : Z :=
  Z.quot (later - earlier) ticks_per_second.

(* ================================================================== *)
(** * [UpsData]: the device record ([nut/UpsData.h], [nut/UpsData.cpp]) *)
(* ================================================================== *)

Module UpsData.

Import Cxx.

Record t : Type := mk {
  device_id : string;
  timestamp : time_point;
  battery_charge : option double;
  battery_voltage : option double;
  battery_runtime : option Z;
  battery_nominal_voltage : option double;
  battery_low_threshold : option double;
  battery_warning_threshold : option double;
  battery_type : option string;
  battery_mfr_date : option string;
  input_voltage : option double;
  input_nominal_voltage : option Z;
  high_voltage_transfer : option double;
  low_voltage_transfer : option double;
  input_sensitivity : option string;
  last_transfer_reason : option string;
  load_percentage : option double;
  load_watts : option double;
  ups_status : option string;
  power_failure : option bool;
  ups_nominal_power : option double;
  beeper_status : option string;
  self_test_result : option string;
  firmware_version : option string;
  delay_shutdown : option Z;
  timer_reboot : option Z;
  timer_shutdown : option Z;
  driver_name : option string;
  driver_version : option string;
  driver_state : option string;
  temperature : option double;
  output_voltage : option double;
  output_nominal_voltage : option Z
}.

(** Assignment to one member.  The members that only [fromNutVariables]
    writes (which builds a whole record) have no setter. *)

Definition set_device_id (v : string) (d : t) : t :=
  mk v (timestamp d) (battery_charge d) (battery_voltage d)
    (battery_runtime d) (battery_nominal_voltage d) (battery_low_threshold d)
    (battery_warning_threshold d) (battery_type d) (battery_mfr_date d)
    (input_voltage d) (input_nominal_voltage d) (high_voltage_transfer d)
    (low_voltage_transfer d) (input_sensitivity d) (last_transfer_reason d)
    (load_percentage d) (load_watts d) (ups_status d) (power_failure d)
    (ups_nominal_power d) (beeper_status d) (self_test_result d)
    (firmware_version d) (delay_shutdown d) (timer_reboot d)
    (timer_shutdown d) (driver_name d) (driver_version d) (driver_state d)
    (temperature d) (output_voltage d) (output_nominal_voltage d).

Definition set_timestamp (v : time_point) (d : t) : t :=
  mk (device_id d) v (battery_charge d) (battery_voltage d)
    (battery_runtime d) (battery_nominal_voltage d) (battery_low_threshold d)
    (battery_warning_threshold d) (battery_type d) (battery_mfr_date d)
    (input_voltage d) (input_nominal_voltage d) (high_voltage_transfer d)
    (low_voltage_transfer d) (input_sensitivity d) (last_transfer_reason d)
    (load_percentage d) (load_watts d) (ups_status d) (power_failure d)
    (ups_nominal_power d) (beeper_status d) (self_test_result d)
    (firmware_version d) (delay_shutdown d) (timer_reboot d)
    (timer_shutdown d) (driver_name d) (driver_version d) (driver_state d)
    (temperature d) (output_voltage d) (output_nominal_voltage d).

Definition set_battery_charge (v : option double) (d : t) : t :=
  mk (device_id d) (timestamp d) v (battery_voltage d) (battery_runtime d)
    (battery_nominal_voltage d) (battery_low_threshold d)
    (battery_warning_threshold d) (battery_type d) (battery_mfr_date d)
    (input_voltage d) (input_nominal_voltage d) (high_voltage_transfer d)
    (low_voltage_transfer d) (input_sensitivity d) (last_transfer_reason d)
    (load_percentage d) (load_watts d) (ups_status d) (power_failure d)
    (ups_nominal_power d) (beeper_status d) (self_test_result d)
    (firmware_version d) (delay_shutdown d) (timer_reboot d)
    (timer_shutdown d) (driver_name d) (driver_version d) (driver_state d)
    (temperature d) (output_voltage d) (output_nominal_voltage d).

Definition set_battery_voltage (v : option double) (d : t) : t :=
  mk (device_id d) (timestamp d) (battery_charge d) v (battery_runtime d)
    (battery_nominal_voltage d) (battery_low_threshold d)
    (battery_warning_threshold d) (battery_type d) (battery_mfr_date d)
    (input_voltage d) (input_nominal_voltage d) (high_voltage_transfer d)
    (low_voltage_transfer d) (input_sensitivity d) (last_transfer_reason d)
    (load_percentage d) (load_watts d) (ups_status d) (power_failure d)
    (ups_nominal_power d) (beeper_status d) (self_test_result d)
    (firmware_version d) (delay_shutdown d) (timer_reboot d)
    (timer_shutdown d) (driver_name d) (driver_version d) (driver_state d)
    (temperature d) (output_voltage d) (output_nominal_voltage d).

Definition set_battery_runtime (v : option Z) (d : t) : t :=
  mk (device_id d) (timestamp d) (battery_charge d) (battery_voltage d) v
    (battery_nominal_voltage d) (battery_low_threshold d)
    (battery_warning_threshold d) (battery_type d) (battery_mfr_date d)
    (input_voltage d) (input_nominal_voltage d) (high_voltage_transfer d)
    (low_voltage_transfer d) (input_sensitivity d) (last_transfer_reason d)
    (load_percentage d) (load_watts d) (ups_status d) (power_failure d)
    (ups_nominal_power d) (beeper_status d) (self_test_result d)
    (firmware_version d) (delay_shutdown d) (timer_reboot d)
    (timer_shutdown d) (driver_name d) (driver_version d) (driver_state d)
    (temperature d) (output_voltage d) (output_nominal_voltage d).

Definition set_battery_nominal_voltage (v : option double) (d : t) : t :=
  mk (device_id d) (timestamp d) (battery_charge d) (battery_voltage d)
    (battery_runtime d) v (battery_low_threshold d)
    (battery_warning_threshold d) (battery_type d) (battery_mfr_date d)
    (input_voltage d) (input_nominal_voltage d) (high_voltage_transfer d)
    (low_voltage_transfer d) (input_sensitivity d) (last_transfer_reason d)
    (load_percentage d) (load_watts d) (ups_status d) (power_failure d)
    (ups_nominal_power d) (beeper_status d) (self_test_result d)
    (firmware_version d) (delay_shutdown d) (timer_reboot d)
    (timer_shutdown d) (driver_name d) (driver_version d) (driver_state d)
    (temperature d) (output_voltage d) (output_nominal_voltage d).

Definition set_battery_low_threshold (v : option double) (d : t) : t :=
  mk (device_id d) (timestamp d) (battery_charge d) (battery_voltage d)
    (battery_runtime d) (battery_nominal_voltage d) v
    (battery_warning_threshold d) (battery_type d) (battery_mfr_date d)
    (input_voltage d) (input_nominal_voltage d) (high_voltage_transfer d)
    (low_voltage_transfer d) (input_sensitivity d) (last_transfer_reason d)
    (load_percentage d) (load_watts d) (ups_status d) (power_failure d)
    (ups_nominal_power d) (beeper_status d) (self_test_result d)
    (firmware_version d) (delay_shutdown d) (timer_reboot d)
    (timer_shutdown d) (driver_name d) (driver_version d) (driver_state d)
    (temperature d) (output_voltage d) (output_nominal_voltage d).

Definition set_battery_warning_threshold (v : option double) (d : t) : t :=
  mk (device_id d) (timestamp d) (battery_charge d) (battery_voltage d)
    (battery_runtime d) (battery_nominal_voltage d) (battery_low_threshold d)
    v (battery_type d) (battery_mfr_date d) (input_voltage d)
    (input_nominal_voltage d) (high_voltage_transfer d)
    (low_voltage_transfer d) (input_sensitivity d) (last_transfer_reason d)
    (load_percentage d) (load_watts d) (ups_status d) (power_failure d)
    (ups_nominal_power d) (beeper_status d) (self_test_result d)
    (firmware_version d) (delay_shutdown d) (timer_reboot d)
    (timer_shutdown d) (driver_name d) (driver_version d) (driver_state d)
    (temperature d) (output_voltage d) (output_nominal_voltage d).

Definition set_input_voltage (v : option double) (d : t) : t :=
  mk (device_id d) (timestamp d) (battery_charge d) (battery_voltage d)
    (battery_runtime d) (battery_nominal_voltage d) (battery_low_threshold d)
    (battery_warning_threshold d) (battery_type d) (battery_mfr_date d) v
    (input_nominal_voltage d) (high_voltage_transfer d)
    (low_voltage_transfer d) (input_sensitivity d) (last_transfer_reason d)
    (load_percentage d) (load_watts d) (ups_status d) (power_failure d)
    (ups_nominal_power d) (beeper_status d) (self_test_result d)
    (firmware_version d) (delay_shutdown d) (timer_reboot d)
    (timer_shutdown d) (driver_name d) (driver_version d) (driver_state d)
    (temperature d) (output_voltage d) (output_nominal_voltage d).

Definition set_input_nominal_voltage (v : option Z) (d : t) : t :=
  mk (device_id d) (timestamp d) (battery_charge d) (battery_voltage d)
    (battery_runtime d) (battery_nominal_voltage d) (battery_low_threshold d)
    (battery_warning_threshold d) (battery_type d) (battery_mfr_date d)
    (input_voltage d) v (high_voltage_transfer d) (low_voltage_transfer d)
    (input_sensitivity d) (last_transfer_reason d) (load_percentage d)
    (load_watts d) (ups_status d) (power_failure d) (ups_nominal_power d)
    (beeper_status d) (self_test_result d) (firmware_version d)
    (delay_shutdown d) (timer_reboot d) (timer_shutdown d) (driver_name d)
    (driver_version d) (driver_state d) (temperature d) (output_voltage d)
    (output_nominal_voltage d).

Definition set_high_voltage_transfer (v : option double) (d : t) : t :=
  mk (device_id d) (timestamp d) (battery_charge d) (battery_voltage d)
    (battery_runtime d) (battery_nominal_voltage d) (battery_low_threshold d)
    (battery_warning_threshold d) (battery_type d) (battery_mfr_date d)
    (input_voltage d) (input_nominal_voltage d) v (low_voltage_transfer d)
    (input_sensitivity d) (last_transfer_reason d) (load_percentage d)
    (load_watts d) (ups_status d) (power_failure d) (ups_nominal_power d)
    (beeper_status d) (self_test_result d) (firmware_version d)
    (delay_shutdown d) (timer_reboot d) (timer_shutdown d) (driver_name d)
    (driver_version d) (driver_state d) (temperature d) (output_voltage d)
    (output_nominal_voltage d).

Definition set_low_voltage_transfer (v : option double) (d : t) : t :=
  mk (device_id d) (timestamp d) (battery_charge d) (battery_voltage d)
    (battery_runtime d) (battery_nominal_voltage d) (battery_low_threshold d)
    (battery_warning_threshold d) (battery_type d) (battery_mfr_date d)
    (input_voltage d) (input_nominal_voltage d) (high_voltage_transfer d) v
    (input_sensitivity d) (last_transfer_reason d) (load_percentage d)
    (load_watts d) (ups_status d) (power_failure d) (ups_nominal_power d)
    (beeper_status d) (self_test_result d) (firmware_version d)
    (delay_shutdown d) (timer_reboot d) (timer_shutdown d) (driver_name d)
    (driver_version d) (driver_state d) (temperature d) (output_voltage d)
    (output_nominal_voltage d).

Definition set_input_sensitivity (v : option string) (d : t) : t :=
  mk (device_id d) (timestamp d) (battery_charge d) (battery_voltage d)
    (battery_runtime d) (battery_nominal_voltage d) (battery_low_threshold d)
    (battery_warning_threshold d) (battery_type d) (battery_mfr_date d)
    (input_voltage d) (input_nominal_voltage d) (high_voltage_transfer d)
    (low_voltage_transfer d) v (last_transfer_reason d) (load_percentage d)
    (load_watts d) (ups_status d) (power_failure d) (ups_nominal_power d)
    (beeper_status d) (self_test_result d) (firmware_version d)
    (delay_shutdown d) (timer_reboot d) (timer_shutdown d) (driver_name d)
    (driver_version d) (driver_state d) (temperature d) (output_voltage d)
    (output_nominal_voltage d).

Definition set_last_transfer_reason (v : option string) (d : t) : t :=
  mk (device_id d) (timestamp d) (battery_charge d) (battery_voltage d)
    (battery_runtime d) (battery_nominal_voltage d) (battery_low_threshold d)
    (battery_warning_threshold d) (battery_type d) (battery_mfr_date d)
    (input_voltage d) (input_nominal_voltage d) (high_voltage_transfer d)
    (low_voltage_transfer d) (input_sensitivity d) v (load_percentage d)
    (load_watts d) (ups_status d) (power_failure d) (ups_nominal_power d)
    (beeper_status d) (self_test_result d) (firmware_version d)
    (delay_shutdown d) (timer_reboot d) (timer_shutdown d) (driver_name d)
    (driver_version d) (driver_state d) (temperature d) (output_voltage d)
    (output_nominal_voltage d).

Definition set_load_percentage (v : option double) (d : t) : t :=
  mk (device_id d) (timestamp d) (battery_charge d) (battery_voltage d)
    (battery_runtime d) (battery_nominal_voltage d) (battery_low_threshold d)
    (battery_warning_threshold d) (battery_type d) (battery_mfr_date d)
    (input_voltage d) (input_nominal_voltage d) (high_voltage_transfer d)
    (low_voltage_transfer d) (input_sensitivity d) (last_transfer_reason d) v
    (load_watts d) (ups_status d) (power_failure d) (ups_nominal_power d)
    (beeper_status d) (self_test_result d) (firmware_version d)
    (delay_shutdown d) (timer_reboot d) (timer_shutdown d) (driver_name d)
    (driver_version d) (driver_state d) (temperature d) (output_voltage d)
    (output_nominal_voltage d).

Definition set_load_watts (v : option double) (d : t) : t :=
  mk (device_id d) (timestamp d) (battery_charge d) (battery_voltage d)
    (battery_runtime d) (battery_nominal_voltage d) (battery_low_threshold d)
    (battery_warning_threshold d) (battery_type d) (battery_mfr_date d)
    (input_voltage d) (input_nominal_voltage d) (high_voltage_transfer d)
    (low_voltage_transfer d) (input_sensitivity d) (last_transfer_reason d)
    (load_percentage d) v (ups_status d) (power_failure d)
    (ups_nominal_power d) (beeper_status d) (self_test_result d)
    (firmware_version d) (delay_shutdown d) (timer_reboot d)
    (timer_shutdown d) (driver_name d) (driver_version d) (driver_state d)
    (temperature d) (output_voltage d) (output_nominal_voltage d).

Definition set_ups_status (v : option string) (d : t) : t :=
  mk (device_id d) (timestamp d) (battery_charge d) (battery_voltage d)
    (battery_runtime d) (battery_nominal_voltage d) (battery_low_threshold d)
    (battery_warning_threshold d) (battery_type d) (battery_mfr_date d)
    (input_voltage d) (input_nominal_voltage d) (high_voltage_transfer d)
    (low_voltage_transfer d) (input_sensitivity d) (last_transfer_reason d)
    (load_percentage d) (load_watts d) v (power_failure d)
    (ups_nominal_power d) (beeper_status d) (self_test_result d)
    (firmware_version d) (delay_shutdown d) (timer_reboot d)
    (timer_shutdown d) (driver_name d) (driver_version d) (driver_state d)
    (temperature d) (output_voltage d) (output_nominal_voltage d).

Definition set_power_failure (v : option bool) (d : t) : t :=
  mk (device_id d) (timestamp d) (battery_charge d) (battery_voltage d)
    (battery_runtime d) (battery_nominal_voltage d) (battery_low_threshold d)
    (battery_warning_threshold d) (battery_type d) (battery_mfr_date d)
    (input_voltage d) (input_nominal_voltage d) (high_voltage_transfer d)
    (low_voltage_transfer d) (input_sensitivity d) (last_transfer_reason d)
    (load_percentage d) (load_watts d) (ups_status d) v (ups_nominal_power d)
    (beeper_status d) (self_test_result d) (firmware_version d)
    (delay_shutdown d) (timer_reboot d) (timer_shutdown d) (driver_name d)
    (driver_version d) (driver_state d) (temperature d) (output_voltage d)
    (output_nominal_voltage d).

Definition set_ups_nominal_power (v : option double) (d : t) : t :=
  mk (device_id d) (timestamp d) (battery_charge d) (battery_voltage d)
    (battery_runtime d) (battery_nominal_voltage d) (battery_low_threshold d)
    (battery_warning_threshold d) (battery_type d) (battery_mfr_date d)
    (input_voltage d) (input_nominal_voltage d) (high_voltage_transfer d)
    (low_voltage_transfer d) (input_sensitivity d) (last_transfer_reason d)
    (load_percentage d) (load_watts d) (ups_status d) (power_failure d) v
    (beeper_status d) (self_test_result d) (firmware_version d)
    (delay_shutdown d) (timer_reboot d) (timer_shutdown d) (driver_name d)
    (driver_version d) (driver_state d) (temperature d) (output_voltage d)
    (output_nominal_voltage d).

Definition set_beeper_status (v : option string) (d : t) : t :=
  mk (device_id d) (timestamp d) (battery_charge d) (battery_voltage d)
    (battery_runtime d) (battery_nominal_voltage d) (battery_low_threshold d)
    (battery_warning_threshold d) (battery_type d) (battery_mfr_date d)
    (input_voltage d) (input_nominal_voltage d) (high_voltage_transfer d)
    (low_voltage_transfer d) (input_sensitivity d) (last_transfer_reason d)
    (load_percentage d) (load_watts d) (ups_status d) (power_failure d)
    (ups_nominal_power d) v (self_test_result d) (firmware_version d)
    (delay_shutdown d) (timer_reboot d) (timer_shutdown d) (driver_name d)
    (driver_version d) (driver_state d) (temperature d) (output_voltage d)
    (output_nominal_voltage d).

Definition set_self_test_result (v : option string) (d : t) : t :=
  mk (device_id d) (timestamp d) (battery_charge d) (battery_voltage d)
    (battery_runtime d) (battery_nominal_voltage d) (battery_low_threshold d)
    (battery_warning_threshold d) (battery_type d) (battery_mfr_date d)
    (input_voltage d) (input_nominal_voltage d) (high_voltage_transfer d)
    (low_voltage_transfer d) (input_sensitivity d) (last_transfer_reason d)
    (load_percentage d) (load_watts d) (ups_status d) (power_failure d)
    (ups_nominal_power d) (beeper_status d) v (firmware_version d)
    (delay_shutdown d) (timer_reboot d) (timer_shutdown d) (driver_name d)
    (driver_version d) (driver_state d) (temperature d) (output_voltage d)
    (output_nominal_voltage d).

Definition set_firmware_version (v : option string) (d : t) : t :=
  mk (device_id d) (timestamp d) (battery_charge d) (battery_voltage d)
    (battery_runtime d) (battery_nominal_voltage d) (battery_low_threshold d)
    (battery_warning_threshold d) (battery_type d) (battery_mfr_date d)
    (input_voltage d) (input_nominal_voltage d) (high_voltage_transfer d)
    (low_voltage_transfer d) (input_sensitivity d) (last_transfer_reason d)
    (load_percentage d) (load_watts d) (ups_status d) (power_failure d)
    (ups_nominal_power d) (beeper_status d) (self_test_result d) v
    (delay_shutdown d) (timer_reboot d) (timer_shutdown d) (driver_name d)
    (driver_version d) (driver_state d) (temperature d) (output_voltage d)
    (output_nominal_voltage d).

Definition set_driver_name (v : option string) (d : t) : t :=
  mk (device_id d) (timestamp d) (battery_charge d) (battery_voltage d)
    (battery_runtime d) (battery_nominal_voltage d) (battery_low_threshold d)
    (battery_warning_threshold d) (battery_type d) (battery_mfr_date d)
    (input_voltage d) (input_nominal_voltage d) (high_voltage_transfer d)
    (low_voltage_transfer d) (input_sensitivity d) (last_transfer_reason d)
    (load_percentage d) (load_watts d) (ups_status d) (power_failure d)
    (ups_nominal_power d) (beeper_status d) (self_test_result d)
    (firmware_version d) (delay_shutdown d) (timer_reboot d)
    (timer_shutdown d) v (driver_version d) (driver_state d) (temperature d)
    (output_voltage d) (output_nominal_voltage d).

Definition set_driver_version (v : option string) (d : t) : t :=
  mk (device_id d) (timestamp d) (battery_charge d) (battery_voltage d)
    (battery_runtime d) (battery_nominal_voltage d) (battery_low_threshold d)
    (battery_warning_threshold d) (battery_type d) (battery_mfr_date d)
    (input_voltage d) (input_nominal_voltage d) (high_voltage_transfer d)
    (low_voltage_transfer d) (input_sensitivity d) (last_transfer_reason d)
    (load_percentage d) (load_watts d) (ups_status d) (power_failure d)
    (ups_nominal_power d) (beeper_status d) (self_test_result d)
    (firmware_version d) (delay_shutdown d) (timer_reboot d)
    (timer_shutdown d) (driver_name d) v (driver_state d) (temperature d)
    (output_voltage d) (output_nominal_voltage d).

Definition set_driver_state (v : option string) (d : t) : t :=
  mk (device_id d) (timestamp d) (battery_charge d) (battery_voltage d)
    (battery_runtime d) (battery_nominal_voltage d) (battery_low_threshold d)
    (battery_warning_threshold d) (battery_type d) (battery_mfr_date d)
    (input_voltage d) (input_nominal_voltage d) (high_voltage_transfer d)
    (low_voltage_transfer d) (input_sensitivity d) (last_transfer_reason d)
    (load_percentage d) (load_watts d) (ups_status d) (power_failure d)
    (ups_nominal_power d) (beeper_status d) (self_test_result d)
    (firmware_version d) (delay_shutdown d) (timer_reboot d)
    (timer_shutdown d) (driver_name d) (driver_version d) v (temperature d)
    (output_voltage d) (output_nominal_voltage d).

Definition set_temperature (v : option double) (d : t) : t :=
  mk (device_id d) (timestamp d) (battery_charge d) (battery_voltage d)
    (battery_runtime d) (battery_nominal_voltage d) (battery_low_threshold d)
    (battery_warning_threshold d) (battery_type d) (battery_mfr_date d)
    (input_voltage d) (input_nominal_voltage d) (high_voltage_transfer d)
    (low_voltage_transfer d) (input_sensitivity d) (last_transfer_reason d)
    (load_percentage d) (load_watts d) (ups_status d) (power_failure d)
    (ups_nominal_power d) (beeper_status d) (self_test_result d)
    (firmware_version d) (delay_shutdown d) (timer_reboot d)
    (timer_shutdown d) (driver_name d) (driver_version d) (driver_state d) v
    (output_voltage d) (output_nominal_voltage d).

Definition set_output_voltage (v : option double) (d : t) : t :=
  mk (device_id d) (timestamp d) (battery_charge d) (battery_voltage d)
    (battery_runtime d) (battery_nominal_voltage d) (battery_low_threshold d)
    (battery_warning_threshold d) (battery_type d) (battery_mfr_date d)
    (input_voltage d) (input_nominal_voltage d) (high_voltage_transfer d)
    (low_voltage_transfer d) (input_sensitivity d) (last_transfer_reason d)
    (load_percentage d) (load_watts d) (ups_status d) (power_failure d)
    (ups_nominal_power d) (beeper_status d) (self_test_result d)
    (firmware_version d) (delay_shutdown d) (timer_reboot d)
    (timer_shutdown d) (driver_name d) (driver_version d) (driver_state d)
    (temperature d) v (output_nominal_voltage d).

Definition set_output_nominal_voltage (v : option Z) (d : t) : t :=
  mk (device_id d) (timestamp d) (battery_charge d) (battery_voltage d)
    (battery_runtime d) (battery_nominal_voltage d) (battery_low_threshold d)
    (battery_warning_threshold d) (battery_type d) (battery_mfr_date d)
    (input_voltage d) (input_nominal_voltage d) (high_voltage_transfer d)
    (low_voltage_transfer d) (input_sensitivity d) (last_transfer_reason d)
    (load_percentage d) (load_watts d) (ups_status d) (power_failure d)
    (ups_nominal_power d) (beeper_status d) (self_test_result d)
    (firmware_version d) (delay_shutdown d) (timer_reboot d)
    (timer_shutdown d) (driver_name d) (driver_version d) (driver_state d)
    (temperature d) (output_voltage d) v.

(** [UpsData()]: every optional member is empty, the identifier is the
    empty string and the time stamp is the epoch. *)
Definition default : t :=
  mk "" 0%Z None None None None None None None None None None None None None
     None None None None None None None None None None None None None None
     None None None None.

(** Helper to safely parse double: the [try] block returns the converted
    value when at least one character was consumed, and every exception of
    [std::stod] ends in [std::nullopt]. *)
Definition parseDouble (str : string) : option double :=
  match stod str with
  | Some (value, pos) => if Nat.ltb 0 pos then Some value else None
  | None => None
  end.

(** Helper to safely parse int. *)
Definition parseInt (str : string) : option Z :=
  match stoi str with
  | Some (value, pos) => if Nat.ltb 0 pos then Some value else None
  | None => None
  end.

(** Helper to get string value from map: an entry with an empty value
    counts as missing. *)
Definition getString (vars : StdMap.t string) (key : string) : option string :=
  match StdMap.find key vars with
  | Some value => if value =? "" then None else Some value
  | None => None
  end.

(** A member that is assigned the parse of the value of [key] when
    [getString] finds one, and is left empty otherwise. *)
Definition parsed {A : Type} (parse : string -> option A)
           (vars : StdMap.t string) (key : string) : option A :=
  match getString vars key with
  | Some val => parse val
  | None => None
  end.

(** Load in watts, assuming 600 W nominal: the percentage divided by
    [100.0], times [600.0]. *)
Definition watts_of_percentage (p : double) : double :=
  fmul (fdiv p (of_Z 100)) (of_Z 600).

(** [UpsData::fromNutVariables(device_id, vars)]; [now] is what
    [system_clock::now()] returns. *)
Definition fromNutVariables (now : time_point) (device_id : string)
           (vars : StdMap.t string) : t :=
  let load_percentage := parsed parseDouble vars "ups.load" in
  let ups_status := getString vars "ups.status" in
  mk device_id now
     (parsed parseDouble vars "battery.charge")
     (parsed parseDouble vars "battery.voltage")
     (parsed parseInt vars "battery.runtime")
     (parsed parseDouble vars "battery.voltage.nominal")
     (parsed parseDouble vars "battery.charge.low")
     (parsed parseDouble vars "battery.charge.warning")
     (getString vars "battery.type")
     (getString vars "battery.mfr.date")
     (parsed parseDouble vars "input.voltage")
     (parsed parseInt vars "input.voltage.nominal")
     (parsed parseDouble vars "input.transfer.high")
     (parsed parseDouble vars "input.transfer.low")
     (getString vars "input.sensitivity")
     (getString vars "input.transfer.reason")
     load_percentage
     (option_map watts_of_percentage load_percentage)
     ups_status
     (option_map (contains "OB") ups_status)
     (parsed parseDouble vars "ups.realpower.nominal")
     (getString vars "ups.beeper.status")
     (getString vars "ups.test.result")
     (getString vars "ups.firmware")
     (parsed parseInt vars "ups.delay.shutdown")
     (parsed parseInt vars "ups.timer.reboot")
     (parsed parseInt vars "ups.timer.shutdown")
     (getString vars "driver.name")
     (getString vars "driver.version")
     (getString vars "driver.state")
     (parsed parseDouble vars "ups.temperature")
     (parsed parseDouble vars "output.voltage")
     (parsed parseInt vars "output.voltage.nominal").

(** [UpsData::updateFieldFromMqtt(sensor_name, value)]; [now] is what
    [system_clock::now()] returns in the first statement. *)
Definition updateFieldFromMqtt (now : time_point)
           (sensor_name value : string) (d : t) : t :=
  let d := set_timestamp now d in
  if sensor_name =? "battery_charge" then
    set_battery_charge (parseDouble value) d
  else if sensor_name =? "battery_voltage" then
    set_battery_voltage (parseDouble value) d
  else if sensor_name =? "battery_runtime" then
    set_battery_runtime (parseInt value) d
  else if (sensor_name =? "battery_nominal_voltage")
          || (sensor_name =? "battery_voltage_nominal") then
    set_battery_nominal_voltage (parseDouble value) d
  else if (sensor_name =? "battery_low_charge_threshold")
          || (sensor_name =? "battery_charge_low") then
    set_battery_low_threshold (parseDouble value) d
  else if (sensor_name =? "battery_warning_charge_threshold")
          || (sensor_name =? "battery_charge_warning") then
    set_battery_warning_threshold (parseDouble value) d
  else if sensor_name =? "input_voltage" then
    set_input_voltage (parseDouble value) d
  else if (sensor_name =? "input_nominal_voltage")
          || (sensor_name =? "input_voltage_nominal") then
    set_input_nominal_voltage (parseInt value) d
  else if (sensor_name =? "high_voltage_transfer")
          || (sensor_name =? "input_transfer_high") then
    set_high_voltage_transfer (parseDouble value) d
  else if (sensor_name =? "low_voltage_transfer")
          || (sensor_name =? "input_transfer_low") then
    set_low_voltage_transfer (parseDouble value) d
  else if (sensor_name =? "load_percentage")
          || (sensor_name =? "load_percent") then
    let d := set_load_percentage (parseDouble value) d in
    match load_percentage d with
    | Some p => set_load_watts (Some (watts_of_percentage p)) d
    | None => d
    end
  else if sensor_name =? "load_watts" then
    set_load_watts (parseDouble value) d
  else if (sensor_name =? "ups_status") || (sensor_name =? "status") then
    let d := set_ups_status (Some value) d in
    set_power_failure (Some (contains "OB" value)) d
  else if sensor_name =? "power_failure" then
    set_power_failure
      (Some ((value =? "1") || (value =? "true") || (value =? "on"))) d
  else if sensor_name =? "ups_nominal_power" then
    set_ups_nominal_power (parseDouble value) d
  else if sensor_name =? "temperature" then
    set_temperature (parseDouble value) d
  else if sensor_name =? "output_voltage" then
    set_output_voltage (parseDouble value) d
  else if sensor_name =? "output_nominal_voltage" then
    set_output_nominal_voltage (parseInt value) d
  else if sensor_name =? "beeper_status" then
    set_beeper_status (Some value) d
  else if sensor_name =? "self_test_result" then
    set_self_test_result (Some value) d
  else if sensor_name =? "firmware_version" then
    set_firmware_version (Some value) d
  else if sensor_name =? "driver_name" then
    set_driver_name (Some value) d
  else if sensor_name =? "driver_version" then
    set_driver_version (Some value) d
  else if sensor_name =? "driver_state" then
    set_driver_state (Some value) d
  else if sensor_name =? "input_sensitivity" then
    set_input_sensitivity (Some value) d
  else if (sensor_name =? "last_transfer_reason")
          || (sensor_name =? "input_transfer_reason") then
    set_last_transfer_reason (Some value) d
  else d.

Definition has_value {A : Type} (o : option A) : bool :=
  match o with Some _ => true | None => false end.

(** [UpsData::isValid()]: at minimum, battery charge and UPS status. *)
Definition isValid (d : t) : bool :=
  has_value (battery_charge d) && has_value (ups_status d).

End UpsData.

(* ================================================================== *)
(** * State passing *)
(* ================================================================== *)

(** A member function that reads and writes its object is a function from
    the state of the object to a result and the next state. *)
Definition State (S A : Type) : Type := S -> A * S.

Definition ret {S A : Type} (a : A) : State S A := fun s => (a, s).

Definition bind {S A B : Type} (m : State S A) (k : A -> State S B)
  : State S B :=
  fun s => let '(a, s') := m s in k a s'.

Definition get {S A : Type} (f : S -> A) : State S A := fun s => (f s, s).

Definition modify {S : Type} (f : S -> S) : State S unit := fun s => (tt, f s).

Declare Scope state_scope.
Delimit Scope state_scope with state.
Notation "x <- m ;; k" := (bind m (fun x => k))
  (at level 61, m at next level, right associativity) : state_scope.
Notation "m ;; k" := (bind m (fun _ => k))
  (at level 61, right associativity) : state_scope.

(* ================================================================== *)
(** * [MqttClient] ([mqtt/MqttClient.h], [mqtt/MqttClient.cpp]) *)
(* ================================================================== *)

Module MqttClient.

(** The two locks of the client. *)
Inductive mutex : Type := connection_mutex_ | callbacks_mutex_.

Definition mutex_eqb (a b : mutex) : bool :=
  match a, b with
  | connection_mutex_, connection_mutex_ => true
  | callbacks_mutex_, callbacks_mutex_ => true
  | _, _ => false
  end.

(** A [MessageCallback] is known to the client by its identity only; what
    the handler does when it runs belongs to its owner. *)
Definition MessageCallback : Type := nat.

(** What one thread does to the locks, to the handler registry, to the
    transport (the Paho [async_client]) and to the handlers, in order.
    [Call] records the locks the calling thread holds when the handler is
    entered, and [NetSubscribe] the handler registry as it is when the
    request is handed to the transport: a message that the transport
    delivers from then on is dispatched on this registry or a later one. *)
Inductive event : Type :=
| Lock (m : mutex)
| Unlock (m : mutex)
| Store (pattern : string) (callback : MessageCallback)
| Erase (pattern : string)
| NetSubscribe (topic : string) (qos : Z)
               (registry : StdMap.t MessageCallback)
| NetUnsubscribe (topic : string)
| NetPublish (topic payload : string) (qos : Z) (retain : bool)
| Call (callback : MessageCallback) (topic payload : string) (held : list mutex).

(** The client, and what it can observe of its surroundings:
    [transport_connected] is the answer of [client_->is_connected()],
    [try_lock_fails n] tells whether another thread owns
    [connection_mutex_] when the [n]-th step of this thread tries to take it
    without waiting, and [transport_throws n] whether the request made at
    step [n] raises [mqtt::exception].  Steps are counted by the length of
    the trace. *)
Record t : Type := mk {
  client_ : bool;
  connected_ : bool;
  message_callbacks_ : StdMap.t MessageCallback;
  transport_connected : bool;
  try_lock_fails : nat -> bool;
  transport_throws : nat -> bool;
  held : list mutex;
  trace : list event
}.

Definition set_connected_ (v : bool) (c : t) : t :=
  mk (client_ c) v (message_callbacks_ c) (transport_connected c)
     (try_lock_fails c) (transport_throws c) (held c) (trace c).

Definition set_message_callbacks_ (v : StdMap.t MessageCallback) (c : t) : t :=
  mk (client_ c) (connected_ c) v (transport_connected c)
     (try_lock_fails c) (transport_throws c) (held c) (trace c).

Definition set_held (v : list mutex) (c : t) : t :=
  mk (client_ c) (connected_ c) (message_callbacks_ c) (transport_connected c)
     (try_lock_fails c) (transport_throws c) v (trace c).

Definition set_trace (v : list event) (c : t) : t :=
  mk (client_ c) (connected_ c) (message_callbacks_ c) (transport_connected c)
     (try_lock_fails c) (transport_throws c) (held c) v.

(** ** State passing *)

Definition M (A : Type) : Type := State t A.

Local Open Scope state_scope.

Definition emit (e : event) : M unit :=
  modify (fun c => set_trace (trace c ++ [e]) c).

Fixpoint release (m : mutex) (l : list mutex) : list mutex :=
  match l with
  | [] => []
  | x :: l' => if mutex_eqb x m then l' else x :: release m l'
  end.

(** [std::lock_guard] entered and left.  [connection_mutex_] is a
    [std::recursive_mutex], which its owner may lock again.
    [callbacks_mutex_] is a plain [std::mutex]: a thread that locks it while
    it holds it, as a handler does that calls [subscribe] or [unsubscribe],
    never comes back from the lock.  A state transformer has no value for a
    call that does not come back; [lock] gives the state in which the lock
    was granted, and [ClientSpec2.relocks] tells from the events of a call
    whether the calling thread locked [callbacks_mutex_] while holding it,
    that is whether the call came back at all. *)
Definition lock (m : mutex) : M unit :=
  emit (Lock m) ;; modify (fun c => set_held (m :: held c) c).

Definition unlock (m : mutex) : M unit :=
  emit (Unlock m) ;; modify (fun c => set_held (release m (held c)) c).

(** [std::unique_lock lock(m, std::try_to_lock)] and [lock.owns_lock()]. *)
Definition try_lock (m : mutex) : M bool :=
  fun c =>
    if try_lock_fails c (List.length (trace c)) then (false, c)
    else (true, snd (lock m c)).

(** A request handed to the transport; the answer tells whether it threw. *)
Definition transport (e : event) : M bool :=
  fun c => (transport_throws c (List.length (trace c)), snd (emit e c)).

(** [client_ptr->subscribe(topic, qos)]: the request is made in the state
    the client is in at this point. *)
Definition request_subscribe (topic : string) (qos : Z) : M bool :=
  fun c => transport (NetSubscribe topic qos (message_callbacks_ c)) c.

(** ** [MqttClient::isConnected] *)
Definition isConnected : M bool :=
  lock connection_mutex_ ;;
  r <- get (fun c => connected_ c && client_ c && transport_connected c) ;;
  unlock connection_mutex_ ;;
  ret r.

(** ** [MqttClient::subscribe] *)
Definition subscribe (topic : string) (callback : MessageCallback) (qos : Z)
  : M bool :=
  connected <- isConnected ;;
  if negb connected then ret false
  else
    owns_lock <- try_lock connection_mutex_ ;;
    if negb owns_lock then ret false
    else
      client_ptr <- get client_ ;;
      unlock connection_mutex_ ;;
      lock callbacks_mutex_ ;;
      emit (Store topic callback) ;;
      modify (fun c => set_message_callbacks_
                         (StdMap.insert topic callback (message_callbacks_ c)) c) ;;
      unlock callbacks_mutex_ ;;
      if client_ptr : bool then
        thrown <- request_subscribe topic qos ;;
        ret (negb thrown)
      else ret true.

(** ** [MqttClient::subscribeMultiple] *)
Fixpoint subscribeMultiple_from (all_success : bool) (topics : list string)
         (callback : MessageCallback) (qos : Z) : M bool :=
  match topics with
  | [] => ret all_success
  | topic :: rest =>
      ok <- subscribe topic callback qos ;;
      subscribeMultiple_from (if ok then all_success else false) rest callback qos
  end.

Definition subscribeMultiple : list string -> MessageCallback -> Z -> M bool :=
  subscribeMultiple_from true.

(** ** [MqttClient::unsubscribe] *)
Definition unsubscribe (topic : string) : M bool :=
  connected <- isConnected ;;
  if negb connected then ret false
  else
    lock connection_mutex_ ;;
    thrown <- transport (NetUnsubscribe topic) ;;
    unlock connection_mutex_ ;;
    if thrown : bool then ret false
    else
      lock callbacks_mutex_ ;;
      emit (Erase topic) ;;
      modify (fun c => set_message_callbacks_
                         (StdMap.erase topic (message_callbacks_ c)) c) ;;
      unlock callbacks_mutex_ ;;
      ret true.

(** ** [MqttClient::publish] *)
Definition publish (topic payload : string) (qos : Z) (retain : bool) : M bool :=
  connected <- isConnected ;;
  if negb connected then ret false
  else
    lock connection_mutex_ ;;
    thrown <- transport (NetPublish topic payload qos retain) ;;
    unlock connection_mutex_ ;;
    ret (negb thrown).

(** ** [MqttClient::topicMatches] *)

(** The loop over the levels of the pattern.  The two tests before the loop
    make sure the topic has a level for each level of the pattern, so the
    case of a topic that runs out first is never reached. *)
Fixpoint match_levels (pattern_parts topic_parts : list string) : bool :=
  match pattern_parts with
  | [] => true
  | pattern_level :: pattern_rest =>
      match topic_parts with
      | [] => false
      | topic_level :: topic_rest =>
          if pattern_level =? "+" then match_levels pattern_rest topic_rest
          else if negb (pattern_level =? topic_level) then false
          else match_levels pattern_rest topic_rest
      end
  end.

Definition topicMatches (topic pattern : string) : bool :=
  let topic_parts := Cxx.split "/" topic in
  let pattern_parts := Cxx.split "/" pattern in
  let has_multilevel :=
    negb (Nat.eqb (List.length pattern_parts) 0)
    && (List.last pattern_parts "" =? "#") in
  if has_multilevel then
    if Nat.ltb (List.length topic_parts) (List.length pattern_parts - 1)
    then false
    else match_levels (List.removelast pattern_parts) topic_parts
  else
    if negb (Nat.eqb (List.length topic_parts) (List.length pattern_parts))
    then false
    else match_levels pattern_parts topic_parts.

(** ** [MqttClient::onMessageArrived] *)

(** Entering a handler: [callback(topic, payload)].  A [std::exception]
    that leaves the handler is caught and logged, and the loop goes on. *)
Definition call (callback : MessageCallback) (topic payload : string) : M unit :=
  fun c => emit (Call callback topic payload (held c)) c.

Fixpoint dispatch (entries : list (string * MessageCallback))
         (topic payload : string) : M unit :=
  match entries with
  | [] => ret tt
  | (pattern, callback) :: rest =>
      (if topicMatches topic pattern then call callback topic payload
       else ret tt) ;;
      dispatch rest topic payload
  end.

Definition onMessageArrived (topic payload : string) : M unit :=
  lock callbacks_mutex_ ;;
  entries <- get message_callbacks_ ;;
  dispatch entries topic payload ;;
  unlock callbacks_mutex_.

(** ** [MqttClient::onConnectionLost] *)
Definition onConnectionLost : M unit :=
  lock connection_mutex_ ;;
  modify (set_connected_ false) ;;
  unlock connection_mutex_.

(** [MqttClient(client_id)] before [connect]: no transport, not connected,
    no handler; the surroundings are given. *)
Definition new (fails throws : nat -> bool) : t :=
  mk false false StdMap.empty false fails throws [] [].

End MqttClient.

(* ================================================================== *)
(** * [DiscoveryPublisher] ([mqtt/DiscoveryPublisher.h], [.cpp]) *)
(* ================================================================== *)

(** The JSON values the publisher builds.  The members of an object are
    kept in the order of their names, as [Json::Value] keeps them. *)
Module Json.

Local Set Warnings "-register-all".

Inductive Value : Type :=
| Str (s : string)
| Arr (items : list Value)
| Obj (members : list (string * Value)).

Definition object : Value := Obj [].

(** [v[key] = x] *)
Definition set (key : string) (x : Value) (v : Value) : Value :=
  match v with
  | Obj members => Obj (StdMap.insert key x members)
  | _ => Obj [(key, x)]
  end.

End Json.

Module DiscoveryPublisher.

Import MqttClient.
Local Open Scope string_scope.
Local Open Scope state_scope.

Record t : Type := mk {
  device_id_ : string;
  device_name_ : string;
  manufacturer_ : string;
  model_ : string
}.

(** The constructor with its default manufacturer and model. *)
Definition new (device_id device_name : string) : t :=
  mk device_id device_name "American Power Conversion" "Back-UPS XS 1000M".

Section Publisher.

(** [Json::writeString] with an empty indentation: the serializer of the
    JSON library, which the publisher only calls. *)
Variable writeString : Json.Value -> string.

Variable self : t.

Definition buildDeviceInfo : Json.Value :=
  let device := Json.object in
  let device := Json.set "identifiers" (Json.Arr [Json.Str (device_id_ self)]) device in
  let device := Json.set "name" (Json.Str (device_name_ self)) device in
  let device := Json.set "manufacturer" (Json.Str (manufacturer_ self)) device in
  let device := Json.set "model" (Json.Str (model_ self)) device in
  device.

Definition set_unless_empty (key value : string) (config : Json.Value)
  : Json.Value :=
  if value =? "" then config else Json.set key (Json.Str value) config.

Definition publishSensorConfig
           (sensor_id name unit_of_measurement device_class state_class icon : string)
  : MqttClient.M bool :=
  let topic :=
    "homeassistant/sensor/" ++ device_id_ self ++ "/" ++ sensor_id ++ "/config" in
  let config := Json.object in
  let config := Json.set "name" (Json.Str name) config in
  let config :=
    Json.set "unique_id" (Json.Str (device_id_ self ++ "_" ++ sensor_id)) config in
  let config :=
    Json.set "state_topic"
      (Json.Str ("homeassistant/sensor/" ++ device_id_ self ++ "/" ++ sensor_id
                 ++ "/state")) config in
  let config := Json.set "device" buildDeviceInfo config in
  let config := set_unless_empty "unit_of_measurement" unit_of_measurement config in
  let config := set_unless_empty "device_class" device_class config in
  let config := set_unless_empty "state_class" state_class config in
  let config := set_unless_empty "icon" icon config in
  let payload := writeString config in
  publish topic payload 1 true.

Definition publishBinarySensorConfig (sensor_id name device_class icon : string)
  : MqttClient.M bool :=
  let topic :=
    "homeassistant/binary_sensor/" ++ device_id_ self ++ "/" ++ sensor_id
    ++ "/config" in
  let config := Json.object in
  let config := Json.set "name" (Json.Str name) config in
  let config :=
    Json.set "unique_id" (Json.Str (device_id_ self ++ "_" ++ sensor_id)) config in
  let config :=
    Json.set "state_topic"
      (Json.Str ("homeassistant/sensor/" ++ device_id_ self ++ "/" ++ sensor_id
                 ++ "/state")) config in
  let config := Json.set "payload_on" (Json.Str "1") config in
  let config := Json.set "payload_off" (Json.Str "0") config in
  let config := Json.set "device" buildDeviceInfo config in
  let config := set_unless_empty "device_class" device_class config in
  let config := set_unless_empty "icon" icon config in
  let payload := writeString config in
  publish topic payload 1 true.

(** [all_success &= call]: the call is made whatever [all_success] is. *)
Definition and_also (all_success : bool) (call : MqttClient.M bool)
  : MqttClient.M bool :=
  r <- call ;; ret (all_success && r).

(** The degree sign of the temperature unit, in UTF-8. *)
Definition degree_celsius : string :=
  String (ascii_of_nat 194) (String (ascii_of_nat 176) "C").

Definition publishAll : MqttClient.M bool :=
  let sensor := publishSensorConfig in
  all_success <- ret true ;;
  all_success <- and_also all_success
    (sensor "battery_charge" "Battery Charge" "%" "battery" "measurement" "") ;;
  all_success <- and_also all_success
    (sensor "battery_voltage" "Battery Voltage" "V" "voltage" "measurement" "") ;;
  all_success <- and_also all_success
    (sensor "battery_runtime" "Battery Runtime" "min" "duration" "measurement"
            "mdi:timer-outline") ;;
  all_success <- and_also all_success
    (sensor "battery_nominal_voltage" "Battery Nominal Voltage" "V" "voltage"
            "measurement" "") ;;
  all_success <- and_also all_success
    (sensor "battery_low_charge_threshold" "Battery Low Charge Threshold" "%"
            "battery" "measurement" "") ;;
  all_success <- and_also all_success
    (sensor "battery_warning_charge_threshold"
            "Battery Warning Charge Threshold" "%" "battery" "measurement" "") ;;
  all_success <- and_also all_success
    (sensor "input_voltage" "Input Voltage" "V" "voltage" "measurement" "") ;;
  all_success <- and_also all_success
    (sensor "input_nominal_voltage" "Input Nominal Voltage" "V" "voltage"
            "measurement" "") ;;
  all_success <- and_also all_success
    (sensor "high_voltage_transfer" "High Voltage Transfer" "V" "voltage"
            "measurement" "") ;;
  all_success <- and_also all_success
    (sensor "low_voltage_transfer" "Low Voltage Transfer" "V" "voltage"
            "measurement" "") ;;
  all_success <- and_also all_success
    (sensor "input_sensitivity" "Input Sensitivity" "" "" "" "mdi:tune") ;;
  all_success <- and_also all_success
    (sensor "last_transfer_reason" "Last Transfer Reason" "" "" ""
            "mdi:information-outline") ;;
  all_success <- and_also all_success
    (sensor "load_percentage" "Load" "%" "power_factor" "measurement" "mdi:gauge") ;;
  all_success <- and_also all_success
    (sensor "load_watts" "Load Power" "W" "power" "measurement" "") ;;
  all_success <- and_also all_success
    (sensor "ups_status" "UPS Status" "" "" "" "mdi:information") ;;
  all_success <- and_also all_success
    (publishBinarySensorConfig "power_failure" "Power Failure" "power"
                               "mdi:power-plug-off") ;;
  all_success <- and_also all_success
    (sensor "ups_nominal_power" "Nominal Power" "W" "power" "measurement" "") ;;
  all_success <- and_also all_success
    (sensor "beeper_status" "Beeper Status" "" "" "" "mdi:volume-high") ;;
  all_success <- and_also all_success
    (sensor "self_test_result" "Self Test Result" "" "" "" "mdi:clipboard-check") ;;
  all_success <- and_also all_success
    (sensor "firmware_version" "Firmware Version" "" "" "" "mdi:chip") ;;
  all_success <- and_also all_success
    (sensor "driver_name" "Driver Name" "" "" "" "mdi:application") ;;
  all_success <- and_also all_success
    (sensor "driver_version" "Driver Version" "" "" "" "mdi:tag") ;;
  all_success <- and_also all_success
    (sensor "driver_state" "Driver State" "" "" "" "mdi:state-machine") ;;
  all_success <- and_also all_success
    (sensor "temperature" "Temperature" degree_celsius "temperature"
            "measurement" "") ;;
  all_success <- and_also all_success
    (sensor "output_voltage" "Output Voltage" "V" "voltage" "measurement" "") ;;
  all_success <- and_also all_success
    (sensor "output_nominal_voltage" "Output Nominal Voltage" "V" "voltage"
            "measurement" "") ;;
  ret all_success.

(** [publishAll] called [n] times in a row; the results in call order. *)
Fixpoint publishAll_times (n : nat) : MqttClient.M (list bool) :=
  match n with
  | O => ret []
  | S n' =>
      r <- publishAll ;;
      rs <- publishAll_times n' ;;
      ret (r :: rs)
  end.

End Publisher.

End DiscoveryPublisher.

(* ================================================================== *)
(** * [DatabaseService::insertUpsMetrics]: the row that is written *)
(* ================================================================== *)

Module DatabaseService.

Import Cxx.

Inductive sql_value : Type :=
| NULL
| Double (x : double)
| Int (x : Z)
| Text (x : string)
| Boolean (x : bool).

(** [addOptional(opt)]: the quoted value, or [NULL]. *)
Definition addOptional {A : Type} (quote : A -> sql_value) (opt : option A)
  : sql_value :=
  match opt with
  | Some x => quote x
  | None => NULL
  end.

(** The columns of the [INSERT INTO ups_metrics] statement after
    [device_id] and [timestamp], each with the value given for it. *)
Definition insert_row (data : UpsData.t) : list (string * sql_value) :=
  [ ("battery_charge", addOptional Double (UpsData.battery_charge data));
    ("battery_voltage", addOptional Double (UpsData.battery_voltage data));
    ("battery_runtime", addOptional Int (UpsData.battery_runtime data));
    ("battery_low_charge_threshold",
      addOptional Double (UpsData.battery_low_threshold data));
    ("battery_warning_charge_threshold",
      addOptional Double (UpsData.battery_warning_threshold data));
    ("input_voltage", addOptional Double (UpsData.input_voltage data));
    ("input_nominal_voltage",
      addOptional Int (UpsData.input_nominal_voltage data));
    ("high_voltage_transfer",
      addOptional Double (UpsData.high_voltage_transfer data));
    ("low_voltage_transfer",
      addOptional Double (UpsData.low_voltage_transfer data));
    ("input_sensitivity", addOptional Text (UpsData.input_sensitivity data));
    ("load_percentage", addOptional Double (UpsData.load_percentage data));
    ("load_watts", addOptional Double (UpsData.load_watts data));
    ("ups_status", addOptional Text (UpsData.ups_status data));
    ("power_failure", addOptional Boolean (UpsData.power_failure data));
    ("last_transfer_reason",
      addOptional Text (UpsData.last_transfer_reason data));
    ("self_test_result", addOptional Text (UpsData.self_test_result data));
    ("driver_state", addOptional Text (UpsData.driver_state data));
    ("beeper_status", addOptional Text (UpsData.beeper_status data));
    ("temperature", addOptional Double (UpsData.temperature data));
    ("output_voltage", addOptional Double (UpsData.output_voltage data));
    ("output_nominal_voltage",
      addOptional Int (UpsData.output_nominal_voltage data)) ].

(** The columns that receive a value other than [NULL]. *)
Definition columns_set (data : UpsData.t) : list string :=
  map fst
      (filter (fun cv => match snd cv with NULL => false | _ => true end)
              (insert_row data)).

End DatabaseService.

(* ================================================================== *)
(** * [DeviceMapper::getDbIdentifier] *)
(* ================================================================== *)

Module DeviceMapper.

(** [DeviceMapper::getDbIdentifier(mqtt_device_id)]
    ([utils/DeviceMapper.cpp]): the entry of [mqtt_to_db_map_] for the
    identifier, and the identifier itself, as it is, when there is none. *)
Definition getDbIdentifier (mqtt_to_db_map_ : StdMap.t string)
           (mqtt_device_id : string) : string :=
  match StdMap.find mqtt_device_id mqtt_to_db_map_ with
  | Some db_identifier => db_identifier
  | None => mqtt_device_id
  end.

End DeviceMapper.

(* ================================================================== *)
(** * [CollectorService] ([services/CollectorService.h], [.cpp]) *)
(* ================================================================== *)

Module CollectorService.

Local Open Scope string_scope.
Local Open Scope state_scope.

(** The collector, and its surroundings: [clock n] is the [n]-th reading of
    [system_clock::now()], [db_succeeds n] the result of the [n]-th call of
    [DatabaseService::insertUpsMetrics], whose arguments [db_calls] lists
    in call order.  [save_calls] lists the arguments of the calls of
    [saveDeviceData], in call order. *)
Record t : Type := mk {
  save_interval_seconds_ : Z;
  running_ : bool;
  device_data_ : StdMap.t UpsData.t;
  last_save_times_ : StdMap.t time_point;
  last_save_time_ : time_point;
  clock : nat -> time_point;
  clock_reads : nat;
  db_succeeds : nat -> bool;
  db_calls : list (UpsData.t * string);
  save_calls : list string
}.

Definition set_running_ (v : bool) (s : t) : t :=
  mk (save_interval_seconds_ s) v (device_data_ s) (last_save_times_ s)
     (last_save_time_ s) (clock s) (clock_reads s) (db_succeeds s)
     (db_calls s) (save_calls s).

Definition set_device_data_ (v : StdMap.t UpsData.t) (s : t) : t :=
  mk (save_interval_seconds_ s) (running_ s) v (last_save_times_ s)
     (last_save_time_ s) (clock s) (clock_reads s) (db_succeeds s)
     (db_calls s) (save_calls s).

Definition set_last_save_times_ (v : StdMap.t time_point) (s : t) : t :=
  mk (save_interval_seconds_ s) (running_ s) (device_data_ s) v
     (last_save_time_ s) (clock s) (clock_reads s) (db_succeeds s)
     (db_calls s) (save_calls s).

Definition set_last_save_time_ (v : time_point) (s : t) : t :=
  mk (save_interval_seconds_ s) (running_ s) (device_data_ s)
     (last_save_times_ s) v (clock s) (clock_reads s) (db_succeeds s)
     (db_calls s) (save_calls s).

Definition set_clock_reads (v : nat) (s : t) : t :=
  mk (save_interval_seconds_ s) (running_ s) (device_data_ s)
     (last_save_times_ s) (last_save_time_ s) (clock s) v (db_succeeds s)
     (db_calls s) (save_calls s).

Definition set_db_calls (v : list (UpsData.t * string)) (s : t) : t :=
  mk (save_interval_seconds_ s) (running_ s) (device_data_ s)
     (last_save_times_ s) (last_save_time_ s) (clock s) (clock_reads s)
     (db_succeeds s) v (save_calls s).

Definition set_save_calls (v : list string) (s : t) : t :=
  mk (save_interval_seconds_ s) (running_ s) (device_data_ s)
     (last_save_times_ s) (last_save_time_ s) (clock s) (clock_reads s)
     (db_succeeds s) (db_calls s) v.

(** [CollectorService(mqtt_client, db_service, save_interval_seconds)] *)
Definition new (save_interval_seconds : Z) (clock : nat -> time_point)
           (db_succeeds : nat -> bool) : t :=
  mk save_interval_seconds false StdMap.empty StdMap.empty 0%Z
     clock 0 db_succeeds [] [].

Definition M (A : Type) : Type := State t A.

(** [std::chrono::system_clock::now()] *)
Definition now : M time_point :=
  fun s => (clock s (clock_reads s), set_clock_reads (S (clock_reads s)) s).

(** [db_service_.insertUpsMetrics(data, device_identifier)] *)
Definition insertUpsMetrics (data : UpsData.t) (device_identifier : string)
  : M bool :=
  fun s =>
    (db_succeeds s (List.length (db_calls s)),
     set_db_calls (db_calls s ++ [(data, device_identifier)]) s).

(** ** [CollectorService::parseTopic] *)
Definition parseTopic (topic : string) : string * string :=
  let parts := Cxx.split "/" topic in
  if Nat.leb 5 (List.length parts) then (nth 2 parts "", nth 3 parts "")
  else ("", "").

Section Collector.

(** [DeviceMapper::getDbIdentifier], of which the collector only needs
    that it gives a record key for each identifier. *)
Variable getDbIdentifier : string -> string.

(** ** [CollectorService::onMqttMessage] *)
Definition onMqttMessage (topic payload : string) : M unit :=
  let '(mqtt_device_id, sensor_name) := parseTopic topic in
  if (mqtt_device_id =? "") || (sensor_name =? "") then ret tt
  else
    let device_identifier := getDbIdentifier mqtt_device_id in
    known <- get (fun s => StdMap.find device_identifier (device_data_ s)) ;;
    (match known with
     | Some _ => ret tt
     | None =>
         timestamp <- now ;;
         modify (fun s =>
           set_device_data_
             (StdMap.insert device_identifier
                (UpsData.set_timestamp timestamp
                   (UpsData.set_device_id mqtt_device_id UpsData.default))
                (device_data_ s)) s) ;;
         last_save <- now ;;
         modify (fun s =>
           set_last_save_times_
             (StdMap.insert device_identifier last_save (last_save_times_ s)) s)
     end) ;;
    updated <- now ;;
    modify (fun s =>
      match StdMap.find device_identifier (device_data_ s) with
      | Some data =>
          set_device_data_
            (StdMap.insert device_identifier
               (UpsData.updateFieldFromMqtt updated sensor_name payload data)
               (device_data_ s)) s
      | None => s
      end).

(** ** [CollectorService::saveDeviceData] *)
Definition saveDeviceData (device_identifier : string) : M bool :=
  modify (fun s => set_save_calls (save_calls s ++ [device_identifier]) s) ;;
  it <- get (fun s => StdMap.find device_identifier (device_data_ s)) ;;
  match it with
  | None => ret false
  | Some data =>
      if negb (UpsData.isValid data) then ret false
      else
        success <- insertUpsMetrics data device_identifier ;;
        (if success : bool then
           saved <- now ;;
           modify (fun s =>
             set_last_save_times_
               (StdMap.insert device_identifier saved (last_save_times_ s)) s) ;;
           status <- now ;;
           modify (set_last_save_time_ status)
         else ret tt) ;;
        ret success
  end.

(** ** [CollectorService::scheduledSaveLoop] *)

(** The body of the [for] loop for one device. *)
Definition check_device (now_ : time_point) (device_id : string) : M unit :=
  last_save_it <- get (fun s => StdMap.find device_id (last_save_times_ s)) ;;
  match last_save_it with
  | None => saveDeviceData device_id ;; ret tt
  | Some last_save =>
      let elapsed := seconds_between now_ last_save in
      interval <- get save_interval_seconds_ ;;
      if (interval <=? elapsed)%Z then saveDeviceData device_id ;; ret tt
      else ret tt
  end.

Fixpoint for_each (f : string -> M unit) (ids : list string) : M unit :=
  match ids with
  | [] => ret tt
  | id :: rest => f id ;; for_each f rest
  end.

(** One round of the [while (running_)] loop, without its sleep. *)
Definition scheduledSaveLoop_round : M unit :=
  now_ <- now ;;
  ids <- get (fun s => StdMap.keys (device_data_ s)) ;;
  for_each (check_device now_) ids.

(** The loop, for as many rounds as [running_] is found set. *)
Fixpoint scheduledSaveLoop (rounds : nat) : M unit :=
  match rounds with
  | O => ret tt
  | S n => scheduledSaveLoop_round ;; scheduledSaveLoop n
  end.

(** ** [CollectorService::start] and [CollectorService::stop] *)
Definition start : M unit :=
  running <- get running_ ;;
  if running : bool then ret tt else modify (set_running_ true).

(** [stop] once the saver thread has been joined: the remaining data is
    flushed, device by device. *)
Definition stop : M unit :=
  running <- get running_ ;;
  if negb running then ret tt
  else
    modify (set_running_ false) ;;
    ids <- get (fun s => StdMap.keys (device_data_ s)) ;;
    for_each (fun id => saveDeviceData id ;; ret tt) ids.

End Collector.

End CollectorService.

(* ================================================================== *)
(** * Statements about the device record *)
(* ================================================================== *)

Module UpsDataSpec.

Import Cxx UpsData.
Local Open Scope string_scope.

(** The sensor names [updateFieldFromMqtt] compares its argument with. *)
Definition sensor_names : list string :=
  [ "battery_charge"; "battery_voltage"; "battery_runtime";
    "battery_nominal_voltage"; "battery_voltage_nominal";
    "battery_low_charge_threshold"; "battery_charge_low";
    "battery_warning_charge_threshold"; "battery_charge_warning";
    "input_voltage"; "input_nominal_voltage"; "input_voltage_nominal";
    "high_voltage_transfer"; "input_transfer_high";
    "low_voltage_transfer"; "input_transfer_low";
    "load_percentage"; "load_percent"; "load_watts";
    "ups_status"; "status"; "power_failure"; "ups_nominal_power";
    "temperature"; "output_voltage"; "output_nominal_voltage";
    "beeper_status"; "self_test_result"; "firmware_version";
    "driver_name"; "driver_version"; "driver_state"; "input_sensitivity";
    "last_transfer_reason"; "input_transfer_reason" ].

Definition recognized (sensor_name : string) : bool :=
  existsb (String.eqb sensor_name) sensor_names.

(** The members filled by [parseDouble], each with the sensor names that
    select it. *)
Definition double_fields : list (list string * (t -> option double)) :=
  [ (["battery_charge"], battery_charge);
    (["battery_voltage"], battery_voltage);
    (["battery_nominal_voltage"; "battery_voltage_nominal"],
      battery_nominal_voltage);
    (["battery_low_charge_threshold"; "battery_charge_low"],
      battery_low_threshold);
    (["battery_warning_charge_threshold"; "battery_charge_warning"],
      battery_warning_threshold);
    (["input_voltage"], input_voltage);
    (["high_voltage_transfer"; "input_transfer_high"], high_voltage_transfer);
    (["low_voltage_transfer"; "input_transfer_low"], low_voltage_transfer);
    (["load_percentage"; "load_percent"], load_percentage);
    (["load_watts"], load_watts);
    (["ups_nominal_power"], ups_nominal_power);
    (["temperature"], temperature);
    (["output_voltage"], output_voltage) ].

(** The members filled by [parseInt]. *)
Definition int_fields : list (list string * (t -> option Z)) :=
  [ (["battery_runtime"], battery_runtime);
    (["input_nominal_voltage"; "input_voltage_nominal"], input_nominal_voltage);
    (["output_nominal_voltage"], output_nominal_voltage) ].

(** The names of the optional members that hold a value, in the order of
    their declaration. *)
Definition present_fields (d : t) : list string :=
  let entry {A : Type} (name : string) (o : option A) : list string :=
    if has_value o then [name] else [] in
  (entry "battery_charge" (battery_charge d)
   ++ entry "battery_voltage" (battery_voltage d)
   ++ entry "battery_runtime" (battery_runtime d)
   ++ entry "battery_nominal_voltage" (battery_nominal_voltage d)
   ++ entry "battery_low_threshold" (battery_low_threshold d)
   ++ entry "battery_warning_threshold" (battery_warning_threshold d)
   ++ entry "battery_type" (battery_type d)
   ++ entry "battery_mfr_date" (battery_mfr_date d)
   ++ entry "input_voltage" (input_voltage d)
   ++ entry "input_nominal_voltage" (input_nominal_voltage d)
   ++ entry "high_voltage_transfer" (high_voltage_transfer d)
   ++ entry "low_voltage_transfer" (low_voltage_transfer d)
   ++ entry "input_sensitivity" (input_sensitivity d)
   ++ entry "last_transfer_reason" (last_transfer_reason d)
   ++ entry "load_percentage" (load_percentage d)
   ++ entry "load_watts" (load_watts d)
   ++ entry "ups_status" (ups_status d)
   ++ entry "power_failure" (power_failure d)
   ++ entry "ups_nominal_power" (ups_nominal_power d)
   ++ entry "beeper_status" (beeper_status d)
   ++ entry "self_test_result" (self_test_result d)
   ++ entry "firmware_version" (firmware_version d)
   ++ entry "delay_shutdown" (delay_shutdown d)
   ++ entry "timer_reboot" (timer_reboot d)
   ++ entry "timer_shutdown" (timer_shutdown d)
   ++ entry "driver_name" (driver_name d)
   ++ entry "driver_version" (driver_version d)
   ++ entry "driver_state" (driver_state d)
   ++ entry "temperature" (temperature d)
   ++ entry "output_voltage" (output_voltage d)
   ++ entry "output_nominal_voltage" (output_nominal_voltage d))%list.

(** The design document on the merge step: a payload that does not parse
    leaves the previous value of the member in place. *)
Definition unparsable_leaves_field_untouched : Prop :=
  (forall names field, In (names, field) double_fields ->
   forall sensor_name, In sensor_name names ->
   forall now value d,
     parseDouble value = None ->
     field (updateFieldFromMqtt now sensor_name value d) = field d)
  /\
  (forall names field, In (names, field) int_fields ->
   forall sensor_name, In sensor_name names ->
   forall now value d,
     parseInt value = None ->
     field (updateFieldFromMqtt now sensor_name value d) = field d).

(** A record that already knows its battery charge. *)
Definition half_charged : t :=
  set_battery_charge (Some (of_Z 50)) (set_device_id "apc_ups" default).

(** The record of a device [id] after the two updates
    [battery_charge = 100] and [ups_status = OL], the last one at [ts]. *)
Definition charge_and_status (id : string) (ts : time_point) : t :=
  mk id ts (Some (of_Z 100)) None None None None None None None None None
     None None None None None None (Some "OL") (Some false) None None None
     None None None None None None None None None None.

End UpsDataSpec.

(* ================================================================== *)
(** * Statements about the client *)
(* ================================================================== *)

Module ClientSpec.

Import MqttClient.
Local Open Scope string_scope.

(** A level of a pattern against a level of a topic. *)
Definition level_matches (pattern_level topic_level : string) : Prop :=
  pattern_level = "+" \/ pattern_level = topic_level.

(** [isConnected()] would answer [false]. *)
Definition disconnected (c : t) : Prop :=
  connected_ c && client_ c && transport_connected c = false.

Definition is_lock_event (e : event) : bool :=
  match e with
  | Lock _ | Unlock _ => true
  | _ => false
  end.

(** The state [c'] differs from [c] by the events [evs] only, all of them
    on locks: no request went to the transport, nothing was registered or
    erased, no handler was called. *)
Definition only_locked (c c' : t) : Prop :=
  exists evs, c' = set_trace (trace c ++ evs) c
              /\ forallb is_lock_event evs = true.

(** On a disconnected client the operation [m] does nothing but lock and
    unlock, and its result satisfies [P]. *)
Definition quiet {A : Type} (P : A -> Prop) (m : M A) : Prop :=
  forall c, disconnected c -> P (fst (m c)) /\ only_locked c (snd (m c)).

(** A call fails fast: from a disconnected client it answers [false] and
    leaves everything but the record of its locking as it was. *)
Definition fails_fast (call : M bool) : Prop :=
  quiet (fun r => r = false) call.

(** The events that [m] adds to the trace of [c]. *)
Definition events_of {A : Type} (m : M A) (c : t) : list event :=
  skipn (List.length (trace c)) (trace (snd (m c))).

(** A client whose session is up, with the given handlers, on which no
    request is refused. *)
Definition connected_client (callbacks : StdMap.t MessageCallback) : t :=
  mk true true callbacks true (fun _ => false) (fun _ => false) [] [].

(** The handlers entered by the events [evs], with the locks held then. *)
Fixpoint calls (evs : list event) : list (MessageCallback * list mutex) :=
  match evs with
  | [] => []
  | Call callback _ _ held :: rest => (callback, held) :: calls rest
  | _ :: rest => calls rest
  end.

(** The handlers that [dispatch] enters for a topic: those of all the
    entries whose pattern matches, in the order of the registry. *)
Definition matching (topic : string) (entries : StdMap.t MessageCallback)
  : list MessageCallback :=
  map snd (filter (fun entry => topicMatches topic (fst entry)) entries).

(** Three handlers, two of which match the topic [a/b/c]. *)
Definition three_handlers : t :=
  connected_client [("a/#", 2); ("a/+/c", 1); ("b/#", 3)].

(** The design document on dispatch: the handler registry is not locked
    when a handler is entered. *)
Definition registry_unlocked_in_handlers (evs : list event) : Prop :=
  forall callback held,
    In (callback, held) (calls evs) -> ~ In callbacks_mutex_ held.

End ClientSpec.

(* ================================================================== *)
(** * Statements about the collector *)
(* ================================================================== *)

Module CollectorSpec.

Import CollectorService.
Local Open Scope string_scope.

Definition run {A : Type} (m : M A) (s : t) : t := snd (m s).

(** The topic of a field of a device. *)
Definition state_topic (device_id sensor_name : string) : string :=
  "homeassistant/sensor/" ++ device_id ++ "/" ++ sensor_name ++ "/state".

Fixpoint no_slash (s : string) : bool :=
  match s with
  | EmptyString => true
  | String c s' => negb (Ascii.eqb c "/") && no_slash s'
  end.

(** A call of the storage sink with a record that passes the completeness
    test: battery charge and status are both there. *)
Definition complete_call (call : UpsData.t * string) : Prop :=
  UpsData.isValid (fst call) = true
  /\ UpsData.battery_charge (fst call) <> None
  /\ UpsData.ups_status (fst call) <> None.

(** The calls of the sink made between [s] and [s'] were all complete. *)
Definition sink_calls_complete (s s' : t) : Prop :=
  exists calls, db_calls s' = (db_calls s ++ calls)%list
                /\ Forall complete_call calls.

(** The states of a collector: what a sequence of messages, rounds of the
    saver loop, starts and stops leads to. *)
Inductive reachable (getDbIdentifier : string -> string) : t -> Prop :=
| reach_new : forall interval clock db,
    reachable getDbIdentifier (new interval clock db)
| reach_message : forall s topic payload,
    reachable getDbIdentifier s ->
    reachable getDbIdentifier (run (onMqttMessage getDbIdentifier topic payload) s)
| reach_round : forall s,
    reachable getDbIdentifier s ->
    reachable getDbIdentifier (run scheduledSaveLoop_round s)
| reach_start : forall s,
    reachable getDbIdentifier s -> reachable getDbIdentifier (run start s)
| reach_stop : forall s,
    reachable getDbIdentifier s -> reachable getDbIdentifier (run stop s).

(** Every buffered device has an entry in [last_save_times_]. *)
Definition every_device_has_last_save (s : t) : Prop :=
  forall id, StdMap.find id (device_data_ s) <> None ->
             StdMap.find id (last_save_times_ s) <> None.

(** The buffer is as in [s0], and no save time of [s0] was dropped. *)
Definition keeps_save_times (s0 s : t) : Prop :=
  device_data_ s = device_data_ s0
  /\ forall id, StdMap.find id (last_save_times_ s0) <> None ->
                StdMap.find id (last_save_times_ s) <> None.

(** A clock that starts at 1000 s and advances by one second a reading. *)
Definition second_clock (n : nat) : time_point :=
  ((1000 + Z.of_nat n) * ticks_per_second)%Z.

(** A collector with an interval of one hour and a sink that accepts. *)
Definition hourly : t := new 3600 second_clock (fun _ => true).

(** A state no sequence of messages leads to: [d1] is buffered and
    complete but has no entry in [last_save_times_], while [d2] was saved
    ten seconds before the next reading of the clock. *)
Definition d1_without_last_save : t :=
  mk 3600 true
     [ ("d1", UpsDataSpec.charge_and_status "d1" 0%Z);
       ("d2", UpsDataSpec.charge_and_status "d2" 0%Z) ]
     [ ("d2", (second_clock 0 - 10 * ticks_per_second)%Z) ]
     0%Z second_clock 0 (fun _ => true) [] [].

(** The two messages of a device that reports a battery charge of 100 and
    the status [OL], in either order. *)
Definition two_updates (getDbIdentifier : string -> string) (id : string)
           (status_first : bool) : M unit :=
  if status_first then
    bind (onMqttMessage getDbIdentifier (state_topic id "ups_status") "OL")
         (fun _ => onMqttMessage getDbIdentifier
                     (state_topic id "battery_charge") "100")
  else
    bind (onMqttMessage getDbIdentifier (state_topic id "battery_charge") "100")
         (fun _ => onMqttMessage getDbIdentifier
                     (state_topic id "ups_status") "OL").

(** A clock that reads 1000 s, 1001 s, ... for its first ten readings and
    1014 s, 1015 s, ... from then on. *)
Definition scenario_clock (n : nat) : time_point :=
  ((if Nat.leb 10 n then 1004 + Z.of_nat n else 1000 + Z.of_nat n)
   * ticks_per_second)%Z.

(** Two devices, an interval of one hour, a sink that accepts.  The device
    [d2] reports first and is saved by the flush of a [stop], at the fifth
    reading of the clock (1004 s).  After a new [start], the device [d1]
    reports for the first time, its record is created (readings at 1006 s
    to 1009 s) and is complete.  The next reading of the clock, the one a
    round of the saver loop will make, is 1014 s: ten seconds after the save
    of [d2]. *)
Definition two_devices : t :=
  run (bind start (fun _ =>
       bind (two_updates (fun id => id) "d2" false) (fun _ =>
       bind stop (fun _ =>
       bind start (fun _ =>
       two_updates (fun id => id) "d1" false)))))
      (new 3600 scenario_clock (fun _ => true)).

(** The design document on that device: its record is complete, and a
    flush makes one call of the sink, in which the charge and the status are
    the only optional members that hold a value. *)
Definition flush_stores_charge_and_status_only : Prop :=
  forall getDbIdentifier interval clock db id status_first,
    id <> "" -> no_slash id = true ->
    exists data,
      db_calls (run (saveDeviceData (getDbIdentifier id))
                    (run (two_updates getDbIdentifier id status_first)
                         (new interval clock db)))
      = [(data, getDbIdentifier id)]
      /\ UpsData.isValid data = true
      /\ UpsDataSpec.present_fields data = ["battery_charge"; "ups_status"].

(** The design document on malformed topics: a topic that has not exactly
    five levels does not change the buffer. *)
Definition only_five_levels_accepted : Prop :=
  forall getDbIdentifier topic payload s,
    List.length (Cxx.split "/" topic) <> 5 ->
    device_data_ (run (onMqttMessage getDbIdentifier topic payload) s)
    = device_data_ s.

End CollectorSpec.

(* ================================================================== *)
(** * Well-formed maps *)
(* ================================================================== *)

Module StdMapSpec.

(** The keys of a [std::map] are in strictly ascending order; this is what
    the container guarantees and what [StdMap.insert] maintains. *)
Fixpoint ascending {V : Type} (m : StdMap.t V) : Prop :=
  match m with
  | [] => True
  | (k, _) :: m' =>
      match m' with
      | [] => True
      | (k', _) :: _ => String.compare k k' = Lt
      end
      /\ ascending m'
  end.

End StdMapSpec.

(* ================================================================== *)
(** * More statements about the client *)
(* ================================================================== *)

Module ClientSpec2.

Import MqttClient ClientSpec.

Fixpoint ends_with_slash (s : string) : bool :=
  match s with
  | EmptyString => false
  | String c EmptyString => Ascii.eqb c "/"
  | String _ s' => ends_with_slash s'
  end.

(** The locks a thread holds after the events [evs], when it held [h]
    before them. *)
Fixpoint held_after (h : list mutex) (evs : list event) : list mutex :=
  match evs with
  | [] => h
  | Lock m :: rest => held_after (m :: h) rest
  | Unlock m :: rest => held_after (release m h) rest
  | _ :: rest => held_after h rest
  end.

(** Whether a thread that held [h] locks [callbacks_mutex_] among the
    events [evs] at a moment when it holds that mutex.  The mutex is not
    recursive: this is the lock from which the thread does not come back. *)
Fixpoint relocks (h : list mutex) (evs : list event) : bool :=
  match evs with
  | [] => false
  | Lock m :: rest =>
      (mutex_eqb m callbacks_mutex_
       && existsb (mutex_eqb callbacks_mutex_) h)
      || relocks (m :: h) rest
  | Unlock m :: rest => relocks (release m h) rest
  | _ :: rest => relocks h rest
  end.

(** Called by a thread that does not hold [callbacks_mutex_], the operation
    never locks that mutex while holding it, and it gives back the locks it
    takes: the thread holds afterwards what it held before. *)
Definition steady {A : Type} (m : M A) : Prop :=
  forall c,
    ~ In callbacks_mutex_ (held c) ->
    exists evs,
      trace (snd (m c)) = trace c ++ evs
      /\ relocks (held c) evs = false
      /\ held_after (held c) evs = held c
      /\ held (snd (m c)) = held c.

(** The session is up, no other thread holds [connection_mutex_] when this
    one tries it, and the transport accepts every request. *)
Definition calm (c : t) : Prop :=
  connected_ c && client_ c && transport_connected c = true
  /\ (forall n, try_lock_fails c n = false)
  /\ (forall n, transport_throws c n = false).

(** The messages handed to the transport by the events [evs]. *)
Fixpoint published (evs : list event) : list (string * string * Z * bool) :=
  match evs with
  | [] => []
  | NetPublish topic payload qos retain :: rest =>
      (topic, payload, qos, retain) :: published rest
  | _ :: rest => published rest
  end.

(** The subscribe requests handed to the transport by the events [evs]. *)
Fixpoint requested (evs : list event) : list string :=
  match evs with
  | [] => []
  | NetSubscribe topic _ _ :: rest => topic :: requested rest
  | _ :: rest => requested rest
  end.

End ClientSpec2.

(* ================================================================== *)
(** * More statements about the collector *)
(* ================================================================== *)

Module CollectorSpec2.

Import CollectorService CollectorSpec.

(** The test of the saver loop for one device, on the clock reading
    [now_]: no save time yet, or the interval has elapsed since. *)
Definition due (s : t) (now_ : time_point) (id : string) : bool :=
  match StdMap.find id (last_save_times_ s) with
  | None => true
  | Some last_save =>
      (save_interval_seconds_ s <=? seconds_between now_ last_save)%Z
  end.

(** The result of an operation. *)
Definition result {A : Type} (m : M A) (s : t) : A := fst (m s).

(** A collector that buffers a complete record of [d1], saved at 1000 s,
    with an interval of one hour and a sink that refuses. *)
Definition refusing : t :=
  mk 3600 true
     [ ("d1", UpsDataSpec.charge_and_status "d1" 0%Z) ]
     [ ("d1", second_clock 0) ]
     0%Z second_clock 0 (fun _ => false) [] [].

End CollectorSpec2.

(* ================================================================== *)
(** * More statements about the device record *)
(* ================================================================== *)

Module UpsDataSpec2.

Import Cxx UpsData.

(** The sensor names that come in two spellings, the one of the ESP32
    publisher first, the one of this bridge second. *)
Definition aliases : list (string * string) :=
  [ ("battery_voltage_nominal", "battery_nominal_voltage");
    ("battery_charge_low", "battery_low_charge_threshold");
    ("battery_charge_warning", "battery_warning_charge_threshold");
    ("input_voltage_nominal", "input_nominal_voltage");
    ("input_transfer_high", "high_voltage_transfer");
    ("input_transfer_low", "low_voltage_transfer");
    ("load_percent", "load_percentage");
    ("status", "ups_status");
    ("input_transfer_reason", "last_transfer_reason") ].

(** For each member, the sensor names whose branch assigns it. *)
Definition double_writers : list (list string * (t -> option double)) :=
  [ (["battery_charge"], battery_charge);
    (["battery_voltage"], battery_voltage);
    (["battery_nominal_voltage"; "battery_voltage_nominal"],
      battery_nominal_voltage);
    (["battery_low_charge_threshold"; "battery_charge_low"],
      battery_low_threshold);
    (["battery_warning_charge_threshold"; "battery_charge_warning"],
      battery_warning_threshold);
    (["input_voltage"], input_voltage);
    (["high_voltage_transfer"; "input_transfer_high"], high_voltage_transfer);
    (["low_voltage_transfer"; "input_transfer_low"], low_voltage_transfer);
    (["load_percentage"; "load_percent"], load_percentage);
    (["load_watts"; "load_percentage"; "load_percent"], load_watts);
    (["ups_nominal_power"], ups_nominal_power);
    (["temperature"], temperature);
    (["output_voltage"], output_voltage) ].

Definition int_writers : list (list string * (t -> option Z)) :=
  [ (["battery_runtime"], battery_runtime);
    (["input_nominal_voltage"; "input_voltage_nominal"], input_nominal_voltage);
    (["output_nominal_voltage"], output_nominal_voltage);
    ([], delay_shutdown);
    ([], timer_reboot);
    ([], timer_shutdown) ].

Definition string_writers : list (list string * (t -> option string)) :=
  [ (["ups_status"; "status"], ups_status);
    (["beeper_status"], beeper_status);
    (["self_test_result"], self_test_result);
    (["firmware_version"], firmware_version);
    (["driver_name"], driver_name);
    (["driver_version"], driver_version);
    (["driver_state"], driver_state);
    (["input_sensitivity"], input_sensitivity);
    (["last_transfer_reason"; "input_transfer_reason"], last_transfer_reason);
    ([], battery_type);
    ([], battery_mfr_date) ].

Definition bool_writers : list (list string * (t -> option bool)) :=
  [ (["power_failure"; "ups_status"; "status"], power_failure) ].

End UpsDataSpec2.

(* ================================================================== *)
(** * [UpsData::toMqttMessages]: the record as state messages *)
(* ================================================================== *)

(** [struct MqttMessage] of [nut/UpsData.h]. *)
Module MqttMessage.

Record t : Type := mk {
  topic : string;
  payload : string;
  qos : Z;
  retain : bool
}.

End MqttMessage.

Module UpsMessages.

Import Cxx UpsData.
Local Open Scope string_scope.

(** ** [std::to_string(int)]: the decimal digits, after a minus sign for a
    negative value.  An [int] has at most ten digits. *)

Definition digit (n : Z) : ascii := ascii_of_N (Z.to_N (48 + n)).

(** The digits of [n] in front of [acc], the last digit first. *)
Fixpoint digits_from (fuel : nat) (n : Z) (acc : string) : string :=
  match fuel with
  | O => acc
  | S fuel' =>
      let acc := String (digit (n mod 10)) acc in
      if (n / 10 =? 0)%Z then acc else digits_from fuel' (n / 10) acc
  end.

Definition to_string_int (value : Z) : string :=
  if (value <? 0)%Z then String "-" (digits_from 10 (- value) "")
  else digits_from 10 value "".

Section Messages.

(** [std::to_string(double)], the [%f] conversion of the C library, which
    the record only calls. *)
Variable to_string_double : double -> string.

(** The lambda [addMessage]: one more message at the end, QoS 1, not
    retained. *)
Definition addMessage (base_topic sensor value : string)
           (messages : list MqttMessage.t) : list MqttMessage.t :=
  (messages
   ++ [MqttMessage.mk (base_topic ++ "/" ++ sensor ++ "/state") value 1 false])%list.

(** A message for a member that holds a value: the [if (member)] in front
    of each call of [addMessage]; [text] writes the value as a payload. *)
Definition add_if {A : Type} (base_topic : string) (member : option A)
           (sensor : string) (text : A -> string)
           (messages : list MqttMessage.t) : list MqttMessage.t :=
  match member with
  | Some value => addMessage base_topic sensor (text value) messages
  | None => messages
  end.

Definition toMqttMessages (d : t) : list MqttMessage.t :=
  let base_topic := "homeassistant/sensor/" ++ device_id d in
  let number := to_string_double in
  let integer := to_string_int in
  let text := fun s : string => s in
  let flag := fun b : bool => if b then "1" else "0" in
  let add {A : Type} := @add_if A base_topic in
  let messages := [] in
  let messages := add (battery_charge d) "battery_charge" number messages in
  let messages := add (battery_voltage d) "battery_voltage" number messages in
  let messages := add (battery_runtime d) "battery_runtime" integer messages in
  let messages :=
    add (battery_nominal_voltage d) "battery_nominal_voltage" number messages in
  let messages :=
    add (battery_low_threshold d) "battery_low_charge_threshold" number messages in
  let messages :=
    add (battery_warning_threshold d) "battery_warning_charge_threshold" number
        messages in
  let messages := add (input_voltage d) "input_voltage" number messages in
  let messages :=
    add (input_nominal_voltage d) "input_nominal_voltage" integer messages in
  let messages :=
    add (high_voltage_transfer d) "high_voltage_transfer" number messages in
  let messages :=
    add (low_voltage_transfer d) "low_voltage_transfer" number messages in
  let messages := add (input_sensitivity d) "input_sensitivity" text messages in
  let messages :=
    add (last_transfer_reason d) "last_transfer_reason" text messages in
  let messages := add (load_percentage d) "load_percentage" number messages in
  let messages := add (load_watts d) "load_watts" number messages in
  let messages := add (ups_status d) "ups_status" text messages in
  let messages := add (power_failure d) "power_failure" flag messages in
  let messages := add (ups_nominal_power d) "ups_nominal_power" number messages in
  let messages := add (beeper_status d) "beeper_status" text messages in
  let messages := add (self_test_result d) "self_test_result" text messages in
  let messages := add (firmware_version d) "firmware_version" text messages in
  let messages := add (driver_name d) "driver_name" text messages in
  let messages := add (driver_version d) "driver_version" text messages in
  let messages := add (driver_state d) "driver_state" text messages in
  let messages := add (temperature d) "temperature" number messages in
  let messages := add (output_voltage d) "output_voltage" number messages in
  let messages :=
    add (output_nominal_voltage d) "output_nominal_voltage" integer messages in
  messages.

End Messages.

End UpsMessages.

(* ================================================================== *)
(** * Statements about the state messages *)
(* ================================================================== *)

Module UpsMessagesSpec.

Import Cxx UpsData UpsMessages CollectorService CollectorSpec.
Local Open Scope state_scope.

(** The sensor names [toMqttMessages] publishes under, in its order. *)
Definition published_sensors : list string :=
  [ "battery_charge"; "battery_voltage"; "battery_runtime";
    "battery_nominal_voltage"; "battery_low_charge_threshold";
    "battery_warning_charge_threshold";
    "input_voltage"; "input_nominal_voltage"; "high_voltage_transfer";
    "low_voltage_transfer"; "input_sensitivity"; "last_transfer_reason";
    "load_percentage"; "load_watts"; "ups_status"; "power_failure";
    "ups_nominal_power"; "beeper_status"; "self_test_result";
    "firmware_version";
    "driver_name"; "driver_version"; "driver_state";
    "temperature"; "output_voltage"; "output_nominal_voltage" ].





(** A snapshot with a runtime, a status and a beeper state. *)
Definition on_battery : UpsData.t :=
  set_beeper_status (Some "enabled")
    (set_battery_runtime (Some 1250%Z)
       (set_power_failure (Some true)
          (set_ups_status (Some "OB DISCHRG")
             (set_device_id "apc_ups" UpsData.default)))).

End UpsMessagesSpec.

(* ================================================================== *)
(** * [DiscoveryPublisher::removeDevice] *)
(* ================================================================== *)

Module DiscoveryRemoval.

Import MqttClient DiscoveryPublisher.
Local Open Scope string_scope.
Local Open Scope state_scope.

(** List of all sensor IDs. *)
Definition sensor_ids : list string :=
  [ "battery_charge"; "battery_voltage"; "battery_runtime";
    "battery_nominal_voltage"; "battery_low_charge_threshold";
    "battery_warning_charge_threshold";
    "input_voltage"; "input_nominal_voltage"; "high_voltage_transfer";
    "low_voltage_transfer";
    "input_sensitivity"; "last_transfer_reason";
    "load_percentage"; "load_watts"; "ups_status";
    "ups_nominal_power"; "beeper_status"; "self_test_result";
    "firmware_version";
    "driver_name"; "driver_version"; "driver_state";
    "temperature"; "output_voltage"; "output_nominal_voltage" ].

(** The loop over the regular sensors: an empty retained message on the
    config topic of each. *)
Fixpoint remove_sensors (self : DiscoveryPublisher.t) (all_success : bool)
         (ids : list string) : MqttClient.M bool :=
  match ids with
  | [] => ret all_success
  | sensor_id :: rest =>
      let topic :=
        "homeassistant/sensor/" ++ device_id_ self ++ "/" ++ sensor_id
        ++ "/config" in
      all_success <- and_also all_success (publish topic "" 1 true) ;;
      remove_sensors self all_success rest
  end.

Definition removeDevice (self : DiscoveryPublisher.t) : MqttClient.M bool :=
  all_success <- remove_sensors self true sensor_ids ;;
  let binary_topic :=
    "homeassistant/binary_sensor/" ++ device_id_ self
    ++ "/power_failure/config" in
  all_success <- and_also all_success (publish binary_topic "" 1 true) ;;
  ret all_success.

End DiscoveryRemoval.

(* ================================================================== *)
(** * [CollectorService::setupSubscriptions] *)
(* ================================================================== *)

Module CollectorSubscriptions.

Import MqttClient.
Local Open Scope string_scope.
Local Open Scope state_scope.

(** The topic pattern of a device: all its sensors. *)
Definition pattern_of (device_id : string) : string :=
  "homeassistant/sensor/" ++ device_id ++ "/+/state".

(** [device_ids] is what [DeviceMapper::getDeviceIds()] returns, and
    [callback] the lambda that calls [onMqttMessage]. *)
Definition setupSubscriptions (device_ids : list string)
           (callback : MessageCallback) : MqttClient.M unit :=
  let topics := map pattern_of device_ids in
  ok <- subscribeMultiple topics callback 1 ;;
  ret tt.

End CollectorSubscriptions.

(* ================================================================== *)
(** * Statements about what is sent *)
(* ================================================================== *)

Module PublishSpec.

Import MqttClient ClientSpec ClientSpec2.

(** On a calm client the operation [m] answers [r] and hands [messages] to
    the transport, in this order; it changes nothing but the trace. *)
Definition sends {A : Type} (m : M A) (r : A)
           (messages : list (string * string * Z * bool)) : Prop :=
  forall c, calm c ->
    exists evs, m c = (r, set_trace (trace c ++ evs) c)
                /\ published evs = messages.

(** The config topic of a sensor of a device; [kind] is [sensor] or
    [binary_sensor]. *)
Definition config_topic (device_id kind sensor_id : string) : string :=
  ("homeassistant/" ++ kind ++ "/" ++ device_id ++ "/" ++ sensor_id
   ++ "/config")%string.

(** The kind under which a sensor is announced: the power failure flag
    is the one binary sensor. *)
Definition kind_of (sensor_id : string) : string :=
  if (sensor_id =? "power_failure")%string then "binary_sensor" else "sensor".

Definition topic_of (message : string * string * Z * bool) : string :=
  fst (fst (fst message)).

(** The sensor name in the topic of a state message of the device: what
    stands between [homeassistant/sensor/<device_id>/] and [/state]. *)
Definition sensor_of (device_id : string) (m : MqttMessage.t) : string :=
  let prefix := ("homeassistant/sensor/" ++ device_id ++ "/")%string in
  let topic := MqttMessage.topic m in
  substring (String.length prefix)
            (String.length topic - String.length prefix - 6) topic.

(** The config topic under which the sensor of a state message is
    announced. *)
Definition config_of (device_id : string) (m : MqttMessage.t) : string :=
  config_topic device_id (kind_of (sensor_of device_id m))
               (sensor_of device_id m).

Definition holds {A : Type} (member : option A) : bool :=
  match member with
  | Some _ => true
  | None => false
  end.

(** The snapshot has a value in every member that [toMqttMessages] tests. *)
Definition reports_all (d : UpsData.t) : bool :=
  let '(number, integer, text, flag) :=
    (@holds Cxx.double, @holds Z, @holds string, @holds bool) in
  number (UpsData.battery_charge d)
  && number (UpsData.battery_voltage d)
  && integer (UpsData.battery_runtime d)
  && number (UpsData.battery_nominal_voltage d)
  && number (UpsData.battery_low_threshold d)
  && number (UpsData.battery_warning_threshold d)
  && number (UpsData.input_voltage d)
  && integer (UpsData.input_nominal_voltage d)
  && number (UpsData.high_voltage_transfer d)
  && number (UpsData.low_voltage_transfer d)
  && text (UpsData.input_sensitivity d)
  && text (UpsData.last_transfer_reason d)
  && number (UpsData.load_percentage d)
  && number (UpsData.load_watts d)
  && text (UpsData.ups_status d)
  && flag (UpsData.power_failure d)
  && number (UpsData.ups_nominal_power d)
  && text (UpsData.beeper_status d)
  && text (UpsData.self_test_result d)
  && text (UpsData.firmware_version d)
  && text (UpsData.driver_name d)
  && text (UpsData.driver_version d)
  && text (UpsData.driver_state d)
  && number (UpsData.temperature d)
  && number (UpsData.output_voltage d)
  && integer (UpsData.output_nominal_voltage d).

(** A snapshot of [apc_ups] with a value in every member that is
    published. *)
Definition full_snapshot : UpsData.t :=
  let number := Some (S754_zero false) in
  {| UpsData.device_id := "apc_ups";
     UpsData.timestamp := 0%Z;
     UpsData.battery_charge := number;
     UpsData.battery_voltage := number;
     UpsData.battery_runtime := Some 1250%Z;
     UpsData.battery_nominal_voltage := number;
     UpsData.battery_low_threshold := number;
     UpsData.battery_warning_threshold := number;
     UpsData.battery_type := None;
     UpsData.battery_mfr_date := None;
     UpsData.input_voltage := number;
     UpsData.input_nominal_voltage := Some 120%Z;
     UpsData.high_voltage_transfer := number;
     UpsData.low_voltage_transfer := number;
     UpsData.input_sensitivity := Some "medium";
     UpsData.last_transfer_reason := Some "input voltage out of range";
     UpsData.load_percentage := number;
     UpsData.load_watts := number;
     UpsData.ups_status := Some "OL";
     UpsData.power_failure := Some false;
     UpsData.ups_nominal_power := number;
     UpsData.beeper_status := Some "enabled";
     UpsData.self_test_result := Some "No test initiated";
     UpsData.firmware_version := Some "947.d10";
     UpsData.delay_shutdown := None;
     UpsData.timer_reboot := None;
     UpsData.timer_shutdown := None;
     UpsData.driver_name := Some "usbhid-ups";
     UpsData.driver_version := Some "2.8.0";
     UpsData.driver_state := Some "quiet";
     UpsData.temperature := number;
     UpsData.output_voltage := number;
     UpsData.output_nominal_voltage := Some 120%Z |}.

(** The publisher of the UPS [apc_ups]. *)
Definition apc_ups : DiscoveryPublisher.t :=
  DiscoveryPublisher.new "apc_ups" "APC UPS".

End PublishSpec.

(* ================================================================== *)
(** * [NutClient] ([nut/NutClient.h], [nut/NutClient.cpp]) *)
(* ================================================================== *)

Module NutClient.

Local Open Scope string_scope.

(** ** The text of the [upsc] pipe *)

Definition newline : ascii := ascii_of_nat 10.

(** The [while (fgets(buffer, size, pipe))] loop: each round reads up to
    [size - 1] characters and stops behind a newline; it ends when nothing
    is left.  [buffer] holds the characters of the current round, [room]
    tells how many more fit. *)
Fixpoint read_lines (size : nat) (buffer : string) (room : nat)
         (stream : string) : list string :=
  match stream with
  | EmptyString => if buffer =? "" then [] else [buffer]
  | String c rest =>
      let buffer := buffer ++ String c "" in
      if Ascii.eqb c newline || Nat.eqb room 1
      then buffer :: read_lines size "" (size - 1) rest
      else read_lines size buffer (room - 1) rest
  end.

(** [std::string line(buffer)]: the characters in front of the first NUL. *)
Fixpoint c_str (buffer : string) : string :=
  match buffer with
  | EmptyString => ""
  | String c rest => if Ascii.eqb c zero then "" else String c (c_str rest)
  end.

(** [pos = s.find(c)] and, when it is not [npos], [s.substr(0, pos)] and
    [s.substr(pos + 1)]. *)
Fixpoint cut_at (c : ascii) (s : string) : option (string * string) :=
  match s with
  | EmptyString => None
  | String x rest =>
      if Ascii.eqb x c then Some ("", rest)
      else
        match cut_at c rest with
        | Some (before, after) => Some (String x before, after)
        | None => None
        end
  end.

(** One of the characters of [" \t\n\r"]. *)
Definition blank (c : ascii) : bool :=
  Ascii.eqb c " " || Ascii.eqb c (ascii_of_nat 9)
  || Ascii.eqb c (ascii_of_nat 10) || Ascii.eqb c (ascii_of_nat 13).

(** [s.erase(0, s.find_first_not_of(blanks))]: everything goes when there
    is no other character. *)
Fixpoint erase_leading (s : string) : string :=
  match s with
  | EmptyString => ""
  | String c rest => if blank c then erase_leading rest else s
  end.

(** [s.erase(s.find_last_not_of(blanks) + 1)]: everything goes when there
    is no other character, [npos + 1] being [0]. *)
Fixpoint erase_trailing (s : string) : string :=
  match s with
  | EmptyString => ""
  | String c rest =>
      let rest := erase_trailing rest in
      if blank c && (rest =? "") then "" else String c rest
  end.

Definition trim (s : string) : string := erase_trailing (erase_leading s).

(** Parse line: [variable.name: value]. *)
Definition parse_line (line : string) : option (string * string) :=
  match cut_at ":" line with
  | Some (var_name, var_value) =>
      let var_name := trim var_name in
      let var_value := trim var_value in
      if negb (var_name =? "") && negb (var_value =? "")
      then Some (var_name, var_value)
      else None
  | None => None
  end.

(** The body of the loop: [variables[var_name] = var_value] for a line
    that gives both. *)
Definition add_line (variables : StdMap.t string) (buffer : string)
  : StdMap.t string :=
  match parse_line (c_str buffer) with
  | Some (var_name, var_value) => StdMap.insert var_name var_value variables
  | None => variables
  end.

(** ** [1 << n] on a 32-bit [int]

    [2 ^ n] for [n] from 0 to 30.  For 31 the value [2 ^ 31] does not fit
    an [int]: the result is [INT_MIN], by definition since C++20 and by
    the conversion the compilers implement before.  For any other [n] the
    behaviour is undefined, and the model gives no value. *)
Definition one_shl (n : Z) : option Z :=
  if ((0 <=? n) && (n <? 31))%Z then Some (2 ^ n)%Z
  else if (n =? 31)%Z then Some Cxx.INT_MIN
  else None.

(** ** The client *)

Definition MAX_RECONNECT_BACKOFF_SEC : Z := 64.

(** The members of the class, with [ups_conn_] telling whether the pointer
    is set, and the surroundings: [upscli_connect_fails n] tells whether the
    [n]-th call of [upscli_connect] fails, [popen n command] is the output
    of the [n]-th pipe, [None] when it cannot be opened.  The record keeps
    what was done: the calls, the seconds handed to [sleep_for], and the
    number of [UPSCONN_t] objects made by [new] and not yet deleted. *)
Record t : Type := mk {
  host_ : string;
  port_ : Z;
  ups_name_ : string;
  ups_conn_ : bool;
  connected_ : bool;
  reconnect_attempts_ : Z;
  upscli_connect_fails : nat -> bool;
  popen : nat -> string -> option string;
  connect_calls : nat;
  popen_calls : list string;
  sleeps : list Z;
  allocated : nat
}.

Definition set_ups_conn_ (v : bool) (c : t) : t :=
  mk (host_ c) (port_ c) (ups_name_ c) v (connected_ c)
     (reconnect_attempts_ c) (upscli_connect_fails c) (popen c)
     (connect_calls c) (popen_calls c) (sleeps c) (allocated c).

Definition set_connected_ (v : bool) (c : t) : t :=
  mk (host_ c) (port_ c) (ups_name_ c) (ups_conn_ c) v
     (reconnect_attempts_ c) (upscli_connect_fails c) (popen c)
     (connect_calls c) (popen_calls c) (sleeps c) (allocated c).

Definition set_reconnect_attempts_ (v : Z) (c : t) : t :=
  mk (host_ c) (port_ c) (ups_name_ c) (ups_conn_ c) (connected_ c)
     v (upscli_connect_fails c) (popen c)
     (connect_calls c) (popen_calls c) (sleeps c) (allocated c).

Definition set_connect_calls (v : nat) (c : t) : t :=
  mk (host_ c) (port_ c) (ups_name_ c) (ups_conn_ c) (connected_ c)
     (reconnect_attempts_ c) (upscli_connect_fails c) (popen c)
     v (popen_calls c) (sleeps c) (allocated c).

Definition set_popen_calls (v : list string) (c : t) : t :=
  mk (host_ c) (port_ c) (ups_name_ c) (ups_conn_ c) (connected_ c)
     (reconnect_attempts_ c) (upscli_connect_fails c) (popen c)
     (connect_calls c) v (sleeps c) (allocated c).

Definition set_sleeps (v : list Z) (c : t) : t :=
  mk (host_ c) (port_ c) (ups_name_ c) (ups_conn_ c) (connected_ c)
     (reconnect_attempts_ c) (upscli_connect_fails c) (popen c)
     (connect_calls c) (popen_calls c) v (allocated c).

Definition set_allocated (v : nat) (c : t) : t :=
  mk (host_ c) (port_ c) (ups_name_ c) (ups_conn_ c) (connected_ c)
     (reconnect_attempts_ c) (upscli_connect_fails c) (popen c)
     (connect_calls c) (popen_calls c) (sleeps c) v.

(** [NutClient(host, port, ups_name)] in the given surroundings. *)
Definition new (host : string) (port : Z) (ups_name : string)
           (fails : nat -> bool) (pipe : nat -> string -> option string) : t :=
  mk host port ups_name false false 0 fails pipe 0 [] [] 0.

(** ** [NutClient::connect]

    [None] when the back-off is computed by a shift that has no defined
    value. *)
Definition connect (c : t) : option (bool * t) :=
  if connected_ c && ups_conn_ c then Some (true, c)
  else
    let c := set_allocated (S (allocated c)) (set_ups_conn_ true c) in
    let result_negative := upscli_connect_fails c (connect_calls c) in
    let c := set_connect_calls (S (connect_calls c)) c in
    if result_negative then
      let c := set_allocated (Nat.pred (allocated c)) (set_ups_conn_ false c) in
      let c := set_connected_ false c in
      match one_shl (reconnect_attempts_ c) with
      | Some shifted =>
          let backoff_sec := Z.min shifted MAX_RECONNECT_BACKOFF_SEC in
          let c := set_reconnect_attempts_ (reconnect_attempts_ c + 1) c in
          let c := set_sleeps (sleeps c ++ [backoff_sec]) c in
          Some (false, c)
      | None => None
      end
    else
      let c := set_connected_ true c in
      let c := set_reconnect_attempts_ 0 c in
      Some (true, c).

(** ** [NutClient::disconnect] *)
Definition disconnect (c : t) : t :=
  let c :=
    if ups_conn_ c
    then set_ups_conn_ false (set_allocated (Nat.pred (allocated c)) c)
    else c in
  set_connected_ false c.

(** ** [NutClient::isConnected] *)
Definition isConnected (c : t) : bool := connected_ c && ups_conn_ c.

(** ** [NutClient::getAllVariables] *)
Definition getAllVariables (c : t) : StdMap.t string * t :=
  if negb (connected_ c) || negb (ups_conn_ c) then (StdMap.empty, c)
  else
    let ups_name :=
      match cut_at "@" (ups_name_ c) with
      | Some (before, _) => before
      | None => ups_name_ c
      end in
    let command := "upsc " ++ ups_name ++ " 2>/dev/null" in
    let pipe := popen c (List.length (popen_calls c)) command in
    let c := set_popen_calls (popen_calls c ++ [command])%list c in
    match pipe with
    | Some output =>
        (fold_left add_line (read_lines 256 "" 255 output) StdMap.empty, c)
    | None => (StdMap.empty, c)
    end.

End NutClient.

(* ================================================================== *)
(** * Statements about the NUT client *)
(* ================================================================== *)

Module NutClientSpec.

Import NutClient.
Local Open Scope string_scope.

(** [connect] called [n] times in a row. *)
Fixpoint connect_times (n : nat) (c : t) : option t :=
  match n with
  | O => Some c
  | S n' =>
      match connect c with
      | Some (_, c') => connect_times n' c'
      | None => None
      end
  end.

(** The states of a client that is used through its public operations. *)
Inductive reachable : t -> Prop :=
| reach_new : forall host port ups_name fails pipe,
    reachable (new host port ups_name fails pipe)
| reach_connect : forall c r c',
    reachable c -> connect c = Some (r, c') -> reachable c'
| reach_disconnect : forall c, reachable c -> reachable (disconnect c)
| reach_getAllVariables : forall c,
    reachable c -> reachable (snd (getAllVariables c)).

(** Not empty, and no blank at either end. *)
Definition tidy (s : string) : Prop :=
  s <> "" /\ erase_leading s = s /\ erase_trailing s = s.

Fixpoint all_blank (s : string) : bool :=
  match s with
  | EmptyString => true
  | String c rest => blank c && all_blank rest
  end.

Fixpoint has_char (c : ascii) (s : string) : bool :=
  match s with
  | EmptyString => false
  | String x rest => Ascii.eqb x c || has_char c rest
  end.

(** A line as [upsc] prints it: the name, a colon and a space, the value,
    a newline; and the output for a list of variables. *)
Definition upsc_line (entry : string * string) : string :=
  fst entry ++ ": " ++ snd entry ++ String newline "".

Fixpoint upsc_output (entries : list (string * string)) : string :=
  match entries with
  | [] => ""
  | entry :: rest => upsc_line entry ++ upsc_output rest
  end.

(** A variable whose line is read back whole: name and value are tidy, the
    name has no colon, neither holds a newline or a NUL, and the line with
    its newline fits the 255 characters that one [fgets] reads into the
    buffer of 256. *)
Definition fits_buffer (entry : string * string) : Prop :=
  tidy (fst entry) /\ tidy (snd entry)
  /\ has_char ":" (fst entry) = false
  /\ has_char newline (fst entry) = false
  /\ has_char newline (snd entry) = false
  /\ has_char zero (fst entry) = false
  /\ has_char zero (snd entry) = false
  /\ String.length (upsc_line entry) <= 255.

(** A server that cannot be reached, and one that answers with two
    variables. *)
Definition unreachable_server : t :=
  new "localhost" 3493 "apc_bx@localhost" (fun _ => true) (fun _ _ => None).

Definition answering : t :=
  new "localhost" 3493 "apc_bx@localhost" (fun _ => false)
      (fun _ _ =>
         Some ("battery.charge: 100" ++ String newline ""
               ++ "ups.status: OL" ++ String newline "")).

(** The answering server after a [connect]. *)
Definition answering_connected : t :=
  match connect answering with
  | Some (_, c) => c
  | None => answering
  end.

End NutClientSpec.

(* ================================================================== *)
(** * [NutBridgeService::pollAndPublish] ([services/NutBridgeService.cpp]) *)
(* ================================================================== *)

Module NutBridgeService.

Local Open Scope state_scope.

(** The members that a poll reads and writes, the two clients it owns or
    shares, and the clock. *)
Record t : Type := mk {
  device_id_ : string;
  device_name_ : string;
  discovery_published_ : bool;
  nut_client_ : NutClient.t;
  mqtt_client_ : MqttClient.t;
  clock : nat -> time_point;
  clock_reads : nat
}.

Definition set_discovery_published_ (v : bool) (s : t) : t :=
  mk (device_id_ s) (device_name_ s) v (nut_client_ s) (mqtt_client_ s)
     (clock s) (clock_reads s).

Definition set_nut_client_ (v : NutClient.t) (s : t) : t :=
  mk (device_id_ s) (device_name_ s) (discovery_published_ s) v
     (mqtt_client_ s) (clock s) (clock_reads s).

Definition set_mqtt_client_ (v : MqttClient.t) (s : t) : t :=
  mk (device_id_ s) (device_name_ s) (discovery_published_ s)
     (nut_client_ s) v (clock s) (clock_reads s).

Definition set_clock_reads (v : nat) (s : t) : t :=
  mk (device_id_ s) (device_name_ s) (discovery_published_ s)
     (nut_client_ s) (mqtt_client_ s) (clock s) v.

(** The service as its constructor leaves it. *)
Definition new (mqtt_client : MqttClient.t) (nut_client : NutClient.t)
           (device_id device_name : string) (clock : nat -> time_point) : t :=
  mk device_id device_name false nut_client mqtt_client clock 0.

Definition M (A : Type) : Type := State t A.

(** A call on [nut_client_], and one on [mqtt_client_]. *)
Definition on_nut {A : Type} (f : NutClient.t -> A * NutClient.t) : M A :=
  fun s => let '(a, c) := f (nut_client_ s) in (a, set_nut_client_ c s).

Definition on_mqtt {A : Type} (m : MqttClient.M A) : M A :=
  fun s => let '(a, c) := m (mqtt_client_ s) in (a, set_mqtt_client_ c s).

(** [std::chrono::system_clock::now()] *)
Definition now : M time_point :=
  fun s => (clock s (clock_reads s), set_clock_reads (S (clock_reads s)) s).

(** The loop that publishes all messages. *)
Fixpoint publish_each (all_success : bool) (messages : list MqttMessage.t)
  : MqttClient.M bool :=
  match messages with
  | [] => ret all_success
  | msg :: rest =>
      ok <- MqttClient.publish (MqttMessage.topic msg) (MqttMessage.payload msg)
              (MqttMessage.qos msg) (MqttMessage.retain msg) ;;
      publish_each (if negb ok then false else all_success) rest
  end.

Section Poll.

Variable writeString : Json.Value -> string.
Variable to_string_double : Cxx.double -> string.

Definition pollAndPublish : M bool :=
  variables <- on_nut NutClient.getAllVariables ;;
  if Nat.eqb (StdMap.size variables) 0 then ret false
  else
    device_id <- get device_id_ ;;
    timestamp <- now ;;
    let ups_data := UpsData.fromNutVariables timestamp device_id variables in
    if negb (UpsData.isValid ups_data) then ret false
    else
      connected <- on_mqtt MqttClient.isConnected ;;
      discovery_published <- get discovery_published_ ;;
      (if connected : bool then
         if negb discovery_published then
           device_name <- get device_name_ ;;
           published <-
             on_mqtt (DiscoveryPublisher.publishAll writeString
                        (DiscoveryPublisher.new device_id device_name)) ;;
           if published : bool then modify (set_discovery_published_ true)
           else ret tt
         else ret tt
       else
         if discovery_published : bool
         then modify (set_discovery_published_ false)
         else ret tt) ;;
      let mqtt_messages :=
        UpsMessages.toMqttMessages to_string_double ups_data in
      all_success <- on_mqtt (publish_each true mqtt_messages) ;;
      ret all_success.

End Poll.

End NutBridgeService.

(* ================================================================== *)
(** * Statements about a poll *)
(* ================================================================== *)

Module BridgeSpec.

Import NutBridgeService.

(** What the poll reads: the variables, and the snapshot built from them
    on the next reading of the clock. *)
Definition reading (s : t) : StdMap.t string :=
  fst (NutClient.getAllVariables (nut_client_ s)).

Definition snapshot (s : t) : UpsData.t :=
  UpsData.fromNutVariables (clock s (clock_reads s)) (device_id_ s) (reading s).

(** The events the operation adds to the trace of the MQTT client. *)
Definition mqtt_events {A : Type} (m : M A) (s : t) : list MqttClient.event :=
  skipn (List.length (MqttClient.trace (mqtt_client_ s)))
        (MqttClient.trace (mqtt_client_ (snd (m s)))).

Definition as_sent (m : MqttMessage.t) : string * string * Z * bool :=
  (MqttMessage.topic m, MqttMessage.payload m, MqttMessage.qos m,
   MqttMessage.retain m).

(** The NUT client after a successful [connect] to a server that answers
    with a charge and a status. *)
Definition connected_nut : NutClient.t :=
  match NutClient.connect NutClientSpec.answering with
  | Some (_, c) => c
  | None => NutClientSpec.answering
  end.

(** A bridge for the UPS [apc_ups]: on a connected MQTT client, on one
    that never connected, and with a NUT client that is not connected. *)
Definition bridge : t :=
  new (ClientSpec.connected_client []) connected_nut
      "apc_ups" "APC UPS" CollectorSpec.second_clock.

Definition offline_bridge : t :=
  new (MqttClient.new (fun _ => false) (fun _ => false)) connected_nut
      "apc_ups" "APC UPS" CollectorSpec.second_clock.

Definition bridge_without_server : t :=
  new (ClientSpec.connected_client []) NutClientSpec.unreachable_server
      "apc_ups" "APC UPS" CollectorSpec.second_clock.

End BridgeSpec.

(* ================================================================== *)
(** * [DatabaseService::executeWithRetry] ([database/DatabaseService.cpp]) *)
(* ================================================================== *)

Module DatabaseRetry.

Local Open Scope state_scope.

(** What a call of [operation()] does: it returns, or it throws
    [pqxx::broken_connection], or it throws another [std::exception]. *)
Inductive outcome : Type :=
| Returned (ok : bool)
| BrokenConnection
| OtherException.

(** What the service does to its surroundings, in order: [is_open()] asked
    of the connection, a connection made by [reconnect] ([None] when the
    constructor throws, else whether the new connection is open), a run of
    the operation, a [sleep_for]. *)
Inductive event : Type :=
| Asked (open : bool)
| Connected (result : option bool)
| Ran (result : outcome)
| Slept (seconds : Z).

(** [conn_] tells whether the pointer is set.  The surroundings answer by
    the step at which they are asked, the steps being counted by the length
    of the trace. *)
Record t : Type := mk {
  conn_ : bool;
  is_open : nat -> bool;
  connection_made : nat -> option bool;
  operation : nat -> outcome;
  trace : list event
}.

Definition set_conn_ (v : bool) (s : t) : t :=
  mk v (is_open s) (connection_made s) (operation s) (trace s).

Definition set_trace (v : list event) (s : t) : t :=
  mk (conn_ s) (is_open s) (connection_made s) (operation s) v.

Definition M (A : Type) : Type := State t A.

Definition emit (e : event) : M unit :=
  modify (fun s => set_trace (trace s ++ [e]) s).

(** [DatabaseService::isConnected]: [conn_ && conn_->is_open()]. *)
Definition isConnected : M bool :=
  has_conn <- get conn_ ;;
  if has_conn : bool then
    open <- get (fun s => is_open s (List.length (trace s))) ;;
    emit (Asked open) ;;
    ret open
  else ret false.

(** [DatabaseService::reconnect]: the old connection is closed, a new one
    is made; an exception of the constructor resets [conn_]. *)
Definition reconnect : M bool :=
  made <- get (fun s => connection_made s (List.length (trace s))) ;;
  emit (Connected made) ;;
  match made with
  | Some open => modify (set_conn_ true) ;; ret open
  | None => modify (set_conn_ false) ;; ret false
  end.

Definition run_operation : M outcome :=
  result <- get (fun s => operation s (List.length (trace s))) ;;
  emit (Ran result) ;;
  ret result.

Definition sleep_for (seconds : Z) : M unit := emit (Slept seconds).

(** The [for] loop of [executeWithRetry], [remaining] rounds from
    [attempt] on. *)
Fixpoint attempts (remaining : nat) (attempt max_retries : Z) : M bool :=
  match remaining with
  | O => ret false
  | S remaining' =>
      let next := attempts remaining' (attempt + 1) max_retries in
      let retry :=
        (if (attempt <? max_retries - 1)%Z then sleep_for 1 else ret tt) ;;
        next in
      let execute :=
        result <- run_operation ;;
        match result with
        | Returned true => ret true
        | Returned false => retry
        | BrokenConnection => reconnect ;; retry
        | OtherException => retry
        end in
      connected <- isConnected ;;
      if negb connected then
        reconnected <- reconnect ;;
        if negb reconnected then sleep_for 2 ;; next
        else execute
      else execute
  end.

Definition executeWithRetry (max_retries : Z) : M bool :=
  attempts (Z.to_nat max_retries) 0 max_retries.

End DatabaseRetry.

(* ================================================================== *)
(** * Statements about the retries *)
(* ================================================================== *)

Module RetrySpec.

Import DatabaseRetry.

Definition events_of {A : Type} (m : M A) (s : t) : list event :=
  skipn (List.length (trace s)) (trace (snd (m s))).

(** The runs of the operation among the events, and the seconds slept. *)
Fixpoint runs (evs : list event) : list outcome :=
  match evs with
  | [] => []
  | Ran result :: rest => result :: runs rest
  | _ :: rest => runs rest
  end.

Fixpoint slept (evs : list event) : Z :=
  match evs with
  | [] => 0
  | Slept seconds :: rest => seconds + slept rest
  | _ :: rest => slept rest
  end.

(** What the rounds that are left do: at most one run each, all of them
    failures but the last one of a call that answers [true], and at most
    two seconds of sleep each. *)
Definition bounded (remaining : nat) (r : bool) (evs : list event) : Prop :=
  List.length (runs evs) <= remaining
  /\ (exists failures,
         runs evs = failures ++ (if r then [Returned true] else [])
         /\ Forall (fun result => result <> Returned true) failures)
  /\ (0 <= slept evs <= 2 * Z.of_nat remaining)%Z.

(** A database that is down: no connection can be made. *)
Definition down : t :=
  mk false (fun _ => false) (fun _ => None) (fun _ => Returned true) [].

(** A database that is up, and a statement that fails twice. *)
Definition flaky : t :=
  mk true (fun _ => true) (fun _ => Some true)
     (fun n => if Nat.ltb n 6 then Returned false else Returned true) [].

End RetrySpec.

(* ================================================================== *)
(** * Facts about [std::map] and about splitting *)
(* ================================================================== *)

Section MapFacts.

Context {V : Type}.

Lemma compare_refl : forall s : string, String.compare s s = Eq.
Proof.
  intro s. pose proof (String.compare_antisym s s) as H.
  destruct (String.compare s s); simpl in H; congruence.
Qed.

Lemma find_insert : forall (k : string) (v : V) (m : StdMap.t V),
    StdMap.find k (StdMap.insert k v m) = Some v.
Proof.
  intros k v m. induction m as [| [k' v'] m IH]; simpl.
  - now rewrite String.eqb_refl.
  - destruct (String.compare k k') eqn:E; simpl.
    + now rewrite String.eqb_refl.
    + now rewrite String.eqb_refl.
    + destruct (String.eqb_spec k k') as [-> | _]; [ | exact IH].
      rewrite compare_refl in E. discriminate E.
Qed.

Lemma find_insert_other : forall (k k' : string) (v : V) (m : StdMap.t V),
    k' <> k ->
    StdMap.find k' (StdMap.insert k v m) = StdMap.find k' m.
Proof.
  intros k k' v m Hne. induction m as [| [k0 v0] m IH]; simpl.
  - apply String.eqb_neq in Hne. now rewrite Hne.
  - destruct (String.compare k k0) eqn:E; simpl.
    + apply String.compare_eq_iff in E. subst k0.
      apply String.eqb_neq in Hne. now rewrite Hne.
    + apply String.eqb_neq in Hne. now rewrite Hne.
    + now rewrite IH.
Qed.

Lemma find_In : forall (k : string) (v : V) (m : StdMap.t V),
    StdMap.find k m = Some v -> In (k, v) m.
Proof.
  intros k v m. induction m as [| [k' v'] m IH]; simpl; [discriminate | ].
  destruct (String.eqb_spec k k') as [-> | _].
  - intros [= ->]. now left.
  - intro H. right. now apply IH.
Qed.

Lemma find_keys : forall (k : string) (m : StdMap.t V),
    StdMap.find k m <> None <-> In k (StdMap.keys m).
Proof.
  intros k m. induction m as [| [k' v'] m IH]; simpl.
  - split; [congruence | contradiction].
  - destruct (String.eqb_spec k k') as [-> | Hne].
    + split; [now left | discriminate].
    + rewrite IH. split; [now right | intros [E | H]; [congruence | exact H]].
Qed.

End MapFacts.

Section SplitFacts.

Import Cxx CollectorSpec.
Local Open Scope string_scope.

Lemma append_assoc : forall a b c : string, (a ++ b) ++ c = a ++ (b ++ c).
Proof. induction a; intros; simpl; [reflexivity | now rewrite IHa]. Qed.

(** A run of characters without the delimiter goes to the current part. *)
Lemma split_from_no_slash : forall x cur rest,
    no_slash x = true ->
    split_from "/" cur (x ++ rest) = split_from "/" (cur ++ x) rest.
Proof.
  induction x as [| c x IH]; intros cur rest H; simpl in *.
  - replace (cur ++ "") with cur; [reflexivity | ].
    induction cur; simpl; [reflexivity | now rewrite <- IHcur].
  - apply andb_prop in H. destruct H as [Hc Hx].
    apply negb_true_iff in Hc. rewrite Hc.
    rewrite (IH _ _ Hx). now rewrite append_assoc.
Qed.

Lemma split_state_topic : forall device_id sensor_name,
    no_slash device_id = true -> no_slash sensor_name = true ->
    split "/" (state_topic device_id sensor_name)
    = ["homeassistant"; "sensor"; device_id; sensor_name; "state"].
Proof.
  intros device_id sensor_name Hd Hs. unfold split, state_topic. simpl.
  rewrite (split_from_no_slash device_id "" _ Hd). simpl.
  rewrite (split_from_no_slash sensor_name "" _ Hs). reflexivity.
Qed.

Lemma parseTopic_state_topic : forall device_id sensor_name,
    no_slash device_id = true -> no_slash sensor_name = true ->
    CollectorService.parseTopic (state_topic device_id sensor_name)
    = (device_id, sensor_name).
Proof.
  intros. unfold CollectorService.parseTopic.
  now rewrite split_state_topic.
Qed.

End SplitFacts.

(* ================================================================== *)
(** * The device record *)
(* ================================================================== *)

Section RecordFacts.

Import Cxx UpsData UpsDataSpec.

(** The first statement of [updateFieldFromMqtt] is not undone by any branch. *)
Lemma updateFieldFromMqtt_timestamp :
  forall now sensor_name value d,
    timestamp (updateFieldFromMqtt now sensor_name value d) = now.
Proof.
  intros now sensor_name value d. unfold updateFieldFromMqtt.
  repeat match goal with
         | |- timestamp (if ?b then _ else _) = _ => destruct b
         | |- timestamp (match ?o with Some _ => _ | None => _ end) = _ =>
             destruct o
         end; reflexivity.
Qed.

Ltac names_differ H :=
  unfold recognized in H; simpl in H;
  repeat match type of H with
         | (_ || _) = false =>
             let E := fresh "E" in
             apply orb_false_elim in H; destruct H as [E H]; rewrite ?E
         end.

Lemma updateFieldFromMqtt_unrecognized :
  forall now sensor_name value d,
    recognized sensor_name = false ->
    updateFieldFromMqtt now sensor_name value d = set_timestamp now d.
Proof.
  intros now sensor_name value d H. unfold updateFieldFromMqtt.
  names_differ H. reflexivity.
Qed.


(** C10.  Every call of [updateFieldFromMqtt] sets the time stamp of the
    record to the current time, whatever the sensor name and the payload
    are; and when the sensor name is none of those the function knows, the
    time stamp is the only member that changes. *)
Theorem update_sets_timestamp_and_ignores_unknown_names :
  forall now sensor_name value d,
    timestamp (updateFieldFromMqtt now sensor_name value d) = now
    /\ (recognized sensor_name = false ->
        updateFieldFromMqtt now sensor_name value d = set_timestamp now d).
Proof.
  intros now sensor_name value d. split.
  - apply updateFieldFromMqtt_timestamp.
  - apply updateFieldFromMqtt_unrecognized.
Qed.

Lemma update_sets_timestamp_and_ignores_unknown_names_witness :
  recognized "humidity" = false
  /\ timestamp (updateFieldFromMqtt 42%Z "humidity" "55" half_charged) = 42%Z
  /\ updateFieldFromMqtt 42%Z "humidity" "55" half_charged
     = set_timestamp 42%Z half_charged.
Proof.
  destruct (update_sets_timestamp_and_ignores_unknown_names
              42%Z "humidity" "55" half_charged) as [Hts Hframe].
  split; [reflexivity | split; [exact Hts | apply Hframe; reflexivity]].
Defined.

Lemma double_field_cleared :
  forall names field, In (names, field) double_fields ->
  forall sensor_name, In sensor_name names ->
  forall now value d,
    parseDouble value = None ->
    field (updateFieldFromMqtt now sensor_name value d) = None.
Proof.
  intros names field Hf sensor_name Hs now value d Hp.
  unfold double_fields in Hf. simpl in Hf.
  repeat (destruct Hf as [Hf | Hf];
          [ injection Hf as <- <-; simpl in Hs;
            repeat (destruct Hs as [<- | Hs]; [ | ]); try contradiction;
            unfold updateFieldFromMqtt; simpl; rewrite Hp; reflexivity
          | ]).
  contradiction.
Qed.

Lemma int_field_cleared :
  forall names field, In (names, field) int_fields ->
  forall sensor_name, In sensor_name names ->
  forall now value d,
    parseInt value = None ->
    field (updateFieldFromMqtt now sensor_name value d) = None.
Proof.
  intros names field Hf sensor_name Hs now value d Hp.
  unfold int_fields in Hf. simpl in Hf.
  repeat (destruct Hf as [Hf | Hf];
          [ injection Hf as <- <-; simpl in Hs;
            repeat (destruct Hs as [<- | Hs]; [ | ]); try contradiction;
            unfold updateFieldFromMqtt; simpl; rewrite Hp; reflexivity
          | ]).
  contradiction.
Qed.

(** C5, as the code has it.  When the payload does not parse as the type of
    a numeric member, the merge step stores the empty result of the parser:
    the member selected by the sensor name ends up absent, whatever it held
    before. *)
Theorem unparsable_payload_clears_field :
  (forall names field, In (names, field) double_fields ->
   forall sensor_name, In sensor_name names ->
   forall now value d,
     parseDouble value = None ->
     field (updateFieldFromMqtt now sensor_name value d) = None)
  /\
  (forall names field, In (names, field) int_fields ->
   forall sensor_name, In sensor_name names ->
   forall now value d,
     parseInt value = None ->
     field (updateFieldFromMqtt now sensor_name value d) = None).
Proof. split; [exact double_field_cleared | exact int_field_cleared]. Qed.

Lemma unparsable_payload_clears_field_witness :
  parseDouble "not_a_number" = None
  /\ battery_charge half_charged = Some (of_Z 50)
  /\ battery_charge
       (updateFieldFromMqtt 7%Z "battery_charge" "not_a_number" half_charged)
     = None
  /\ parseInt "soon" = None
  /\ battery_runtime
       (updateFieldFromMqtt 7%Z "battery_runtime" "soon" half_charged)
     = None.
Proof.
  destruct unparsable_payload_clears_field as [Hdouble Hint].
  split; [reflexivity | ]. split; [reflexivity | ]. split.
  - apply (Hdouble ["battery_charge"] battery_charge).
    + simpl. left. reflexivity.
    + simpl. left. reflexivity.
    + reflexivity.
  - split; [reflexivity | ].
    apply (Hint ["battery_runtime"] battery_runtime).
    + simpl. left. reflexivity.
    + simpl. left. reflexivity.
    + reflexivity.
Defined.
(** C5 as the design document states it does not hold: a record with a
    battery charge of 50 loses it when the payload [not_a_number] arrives
    for [battery_charge]. *)
Lemma unparsable_payload_clears_charge :
  ~ unparsable_leaves_field_untouched.
Proof.
  intros [Hdouble _].
  specialize (Hdouble ["battery_charge"] battery_charge (or_introl eq_refl)
                      "battery_charge" (or_introl eq_refl)
                      7%Z "not_a_number" half_charged eq_refl).
  discriminate Hdouble.
Qed.

End RecordFacts.

(* ================================================================== *)
(** * The topic router *)
(* ================================================================== *)

Section TopicRouter.

Import Cxx MqttClient ClientSpec.

Lemma match_levels_prefix : forall pre levels rest,
    Forall2 level_matches pre levels ->
    match_levels pre (levels ++ rest) = true.
Proof.
  intros pre levels rest H.
  induction H as [| p l pre levels [Hp | Hp] _ IH]; simpl.
  - reflexivity.
  - subst p. exact IH.
  - subst p. rewrite String.eqb_refl. simpl.
    destruct (l =? "+"); exact IH.
Qed.

Lemma match_levels_inv : forall pre parts,
    match_levels pre parts = true ->
    exists levels rest,
      parts = levels ++ rest /\ Forall2 level_matches pre levels.
Proof.
  induction pre as [| p pre IH]; intros parts H; simpl in H.
  - exists [], parts. split; [reflexivity | constructor].
  - destruct parts as [| l parts]; [discriminate | ].
    assert (Hl : level_matches p l /\ match_levels pre parts = true).
    { unfold level_matches.
      destruct (String.eqb_spec p "+") as [-> | _]; [now split; [left | ] | ].
      destruct (String.eqb_spec p l) as [-> | _]; simpl in H;
        [now split; [right | ] | discriminate]. }
    destruct Hl as [Hl Hrest].
    destruct (IH parts Hrest) as [levels [rest [-> HF]]].
    exists (l :: levels), rest. split; [reflexivity | now constructor].
Qed.

Lemma match_levels_short : forall pre parts,
    List.length parts < List.length pre -> match_levels pre parts = false.
Proof.
  induction pre as [| p pre IH]; intros parts H; simpl in *; [lia | ].
  destruct parts as [| l parts]; [reflexivity | ].
  simpl in H. rewrite (IH parts) by lia.
  destruct (p =? "+"); [reflexivity | now destruct (p =? l)].
Qed.

Lemma topicMatches_multilevel : forall topic pattern pre,
    split "/" pattern = pre ++ ["#"] ->
    topicMatches topic pattern
    = negb (Nat.ltb (List.length (split "/" topic)) (List.length pre))
      && match_levels pre (split "/" topic).
Proof.
  intros topic pattern pre H. unfold topicMatches. rewrite H.
  rewrite List.last_last, List.removelast_last, List.length_app.
  simpl.
  replace (List.length pre + 1 - 1) with (List.length pre) by lia.
  replace (Nat.eqb (List.length pre + 1) 0) with false
    by (symmetry; apply Nat.eqb_neq; lia).
  simpl. now destruct (Nat.ltb _ _).
Qed.

(** C7.  For a pattern whose last level is [#], [topicMatches] answers
    [true] exactly for the topics whose levels begin with levels that match
    the levels of the pattern before the [#] (a [+] matches any level, any
    other level matches itself), however many levels follow, none included;
    and it answers [false] for a topic with fewer levels than the pattern
    has before the [#]. *)
Theorem multilevel_wildcard_matches_any_tail :
  forall topic pattern pre,
    split "/" pattern = pre ++ ["#"] ->
    (topicMatches topic pattern = true <->
     exists levels rest,
       split "/" topic = levels ++ rest /\ Forall2 level_matches pre levels)
    /\ (List.length (split "/" topic) < List.length pre ->
        topicMatches topic pattern = false).
Proof.
  intros topic pattern pre H.
  rewrite (topicMatches_multilevel topic pattern pre H). split.
  - split.
    + intro Hm. apply andb_prop in Hm. now apply match_levels_inv.
    + intros [levels [rest [Hsplit HF]]]. rewrite Hsplit.
      rewrite (match_levels_prefix _ _ _ HF), andb_true_r.
      apply negb_true_iff, Nat.ltb_ge.
      rewrite List.length_app, <- (Forall2_length HF). lia.
  - intro Hshort. rewrite (match_levels_short _ _ Hshort).
    apply andb_false_r.
Qed.

Lemma multilevel_wildcard_matches_any_tail_witness :
  split "/" "a/+/#" = ["a"; "+"] ++ ["#"]
  /\ topicMatches "a/b" "a/+/#" = true
  /\ topicMatches "a/b/c/d" "a/+/#" = true
  /\ topicMatches "a" "a/+/#" = false.
Proof.
  pose proof (multilevel_wildcard_matches_any_tail
                "a/b" "a/+/#" ["a"; "+"] eq_refl) as [[_ Hzero] _].
  pose proof (multilevel_wildcard_matches_any_tail
                "a/b/c/d" "a/+/#" ["a"; "+"] eq_refl) as [[_ Hmany] _].
  pose proof (multilevel_wildcard_matches_any_tail
                "a" "a/+/#" ["a"; "+"] eq_refl) as [_ Hshort].
  split; [reflexivity | ]. split; [ | split].
  - apply Hzero. exists ["a"; "b"], []. split; [reflexivity | ].
    apply Forall2_cons; [now right | ].
    apply Forall2_cons; [now left | apply Forall2_nil].
  - apply Hmany. exists ["a"; "b"], ["c"; "d"]. split; [reflexivity | ].
    apply Forall2_cons; [now right | ].
    apply Forall2_cons; [now left | apply Forall2_nil].
  - apply Hshort. simpl. lia.
Defined.

Example multilevel_wildcard_zero_extra_levels :
  topicMatches "a" "a/#" = true /\ topicMatches "a/b/c/d" "a/#" = true.
Proof. split; reflexivity. Qed.

End TopicRouter.

(* ================================================================== *)
(** * The collector: the completeness gate *)
(* ================================================================== *)

Section CollectorFacts.

Import CollectorService CollectorSpec.
Local Open Scope state_scope.

(** ** Running the operations *)

Lemma run_bind : forall {A B : Type} (m : M A) (k : A -> M B) s,
    run (bind m k) s = run (k (fst (m s))) (snd (m s)).
Proof. intros. unfold run, bind. now destruct (m s). Qed.

Lemma run_for_each_cons : forall (f : string -> M unit) id ids s,
    run (for_each f (id :: ids)) s = run (for_each f ids) (run (f id) s).
Proof. intros. simpl. now rewrite run_bind. Qed.

Lemma for_each_invariant : forall (P : t -> Prop) (f : string -> M unit) ids,
    (forall id s, P s -> P (run (f id) s)) ->
    forall s, P s -> P (run (for_each f ids) s).
Proof.
  intros P f ids Hf. induction ids as [| id ids IH]; intros s Hs.
  - exact Hs.
  - rewrite run_for_each_cons. apply IH, Hf, Hs.
Qed.

Lemma check_device_eq : forall now_ id s,
    run (check_device now_ id) s
    = match StdMap.find id (last_save_times_ s) with
      | None => run (saveDeviceData id) s
      | Some last_save =>
          if (save_interval_seconds_ s <=? seconds_between now_ last_save)%Z
          then run (saveDeviceData id) s
          else s
      end.
Proof.
  intros now_ id s. unfold check_device. rewrite run_bind. simpl.
  destruct (StdMap.find id (last_save_times_ s)) as [last_save | ].
  - rewrite run_bind. simpl.
    destruct (save_interval_seconds_ s <=? seconds_between now_ last_save)%Z.
    + now rewrite run_bind.
    + reflexivity.
  - now rewrite run_bind.
Qed.

Lemma round_eq : forall s,
    run scheduledSaveLoop_round s
    = run (for_each (check_device (clock s (clock_reads s)))
                    (StdMap.keys (device_data_ s)))
          (set_clock_reads (S (clock_reads s)) s).
Proof.
  intro s. unfold scheduledSaveLoop_round. rewrite run_bind. simpl.
  now rewrite run_bind.
Qed.

Lemma loop_eq : forall rounds s,
    run (scheduledSaveLoop (S rounds)) s
    = run (scheduledSaveLoop rounds) (run scheduledSaveLoop_round s).
Proof. intros. simpl. now rewrite run_bind. Qed.

Lemma stop_eq : forall s,
    run stop s
    = if running_ s then
        run (for_each (fun id => bind (saveDeviceData id) (fun _ => ret tt))
                      (StdMap.keys (device_data_ s)))
            (set_running_ false s)
      else s.
Proof.
  intro s. unfold stop. rewrite run_bind. simpl.
  destruct (running_ s); simpl; [ | reflexivity].
  rewrite run_bind. simpl. now rewrite run_bind.
Qed.

(** ** The completeness gate *)

Lemma sink_calls_complete_same : forall s s',
    db_calls s' = db_calls s -> sink_calls_complete s s'.
Proof.
  intros s s' H. exists []. split; [now rewrite app_nil_r | constructor].
Qed.

Lemma sink_calls_complete_trans : forall s1 s2 s3,
    sink_calls_complete s1 s2 -> sink_calls_complete s2 s3 ->
    sink_calls_complete s1 s3.
Proof.
  intros s1 s2 s3 [c1 [E1 F1]] [c2 [E2 F2]].
  exists (c1 ++ c2). split.
  - now rewrite E2, E1, app_assoc.
  - apply Forall_app. now split.
Qed.

Lemma isValid_complete : forall data id,
    UpsData.isValid data = true -> complete_call (data, id).
Proof.
  intros data id H. unfold complete_call. simpl. split; [exact H | ].
  unfold UpsData.isValid in H. apply andb_prop in H. destruct H as [Hc Hs].
  split; intro E; [rewrite E in Hc | rewrite E in Hs]; discriminate.
Qed.

(** What [saveDeviceData] does to each part of the state. *)
Lemma saveDeviceData_effect : forall id s,
    let s' := run (saveDeviceData id) s in
    device_data_ s' = device_data_ s
    /\ save_interval_seconds_ s' = save_interval_seconds_ s
    /\ save_calls s' = save_calls s ++ [id]
    /\ sink_calls_complete s s'
    /\ (last_save_times_ s' = last_save_times_ s
        \/ exists saved,
            last_save_times_ s' = StdMap.insert id saved (last_save_times_ s)).
Proof.
  intros id s. unfold run, saveDeviceData, bind, modify, get. simpl.
  destruct (StdMap.find id (device_data_ s)) as [data | ] eqn:Efind; simpl.
  - destruct (UpsData.isValid data) eqn:Evalid; simpl.
    + assert (Hc : Forall complete_call [(data, id)])
        by (constructor; [now apply isValid_complete | constructor]).
      destruct (db_succeeds s (List.length (db_calls s))); simpl;
        repeat split; try reflexivity;
        try (exists [(data, id)]; now split);
        [right; eexists; reflexivity | now left].
    + repeat split; try reflexivity;
        [now apply sink_calls_complete_same | now left].
  - repeat split; try reflexivity;
      [now apply sink_calls_complete_same | now left].
Qed.

Lemma check_device_complete : forall now_ id s,
    sink_calls_complete s (run (check_device now_ id) s).
Proof.
  intros now_ id s. rewrite check_device_eq.
  destruct (StdMap.find id (last_save_times_ s)) as [last_save | ];
    [destruct (_ <=? _)%Z | ];
    solve [apply saveDeviceData_effect | now apply sink_calls_complete_same].
Qed.

Lemma round_complete : forall s,
    sink_calls_complete s (run scheduledSaveLoop_round s).
Proof.
  intro s. rewrite round_eq.
  apply (for_each_invariant (sink_calls_complete s)).
  - intros id s2 H. eapply sink_calls_complete_trans; [exact H | ].
    apply check_device_complete.
  - now apply sink_calls_complete_same.
Qed.

Lemma loop_complete : forall rounds s,
    sink_calls_complete s (run (scheduledSaveLoop rounds) s).
Proof.
  induction rounds as [| n IH]; intro s.
  - now apply sink_calls_complete_same.
  - rewrite loop_eq.
    eapply sink_calls_complete_trans; [apply round_complete | apply IH].
Qed.

Lemma stop_complete : forall s, sink_calls_complete s (run stop s).
Proof.
  intro s. rewrite stop_eq.
  destruct (running_ s); [ | now apply sink_calls_complete_same].
  apply (for_each_invariant (sink_calls_complete s)).
  - intros id s2 H. eapply sink_calls_complete_trans; [exact H | ].
    rewrite run_bind. apply saveDeviceData_effect.
  - now apply sink_calls_complete_same.
Qed.

(** C1.  Whatever the state of the collector, every call of
    [insertUpsMetrics] made by [saveDeviceData], by a round of the saver loop
    (first save or scheduled save), by the loop as a whole or by the flush of
    [stop] carries a record for which [isValid] holds, that is, one with a
    battery charge and a status; a record without a status never reaches the
    sink. *)
Theorem only_complete_records_reach_the_sink :
  forall s,
    (forall id, sink_calls_complete s (run (saveDeviceData id) s))
    /\ sink_calls_complete s (run scheduledSaveLoop_round s)
    /\ (forall rounds, sink_calls_complete s (run (scheduledSaveLoop rounds) s))
    /\ sink_calls_complete s (run stop s).
Proof.
  intro s. repeat split.
  - intro id. apply saveDeviceData_effect.
  - apply round_complete.
  - intro rounds. apply loop_complete.
  - apply stop_complete.
Qed.

End CollectorFacts.

(* ================================================================== *)
(** * The collector: incoming messages *)
(* ================================================================== *)

Section MessageFacts.

Import CollectorService CollectorSpec.
Local Open Scope state_scope.

Variable getDbIdentifier : string -> string.

Lemma onMqttMessage_ignored : forall topic payload s,
    (fst (parseTopic topic) =? "") || (snd (parseTopic topic) =? "") = true ->
    onMqttMessage getDbIdentifier topic payload s = (tt, s).
Proof.
  intros topic payload s H. unfold onMqttMessage.
  destruct (parseTopic topic) as [dev sensor]. simpl in H. now rewrite H.
Qed.

(** What an accepted message does to the buffer and to the save times. *)
Lemma onMqttMessage_accepted : forall topic payload s dev sensor,
    parseTopic topic = (dev, sensor) -> dev <> "" -> sensor <> "" ->
    let key := getDbIdentifier dev in
    let s' := run (onMqttMessage getDbIdentifier topic payload) s in
    match StdMap.find key (device_data_ s) with
    | Some data =>
        device_data_ s'
        = StdMap.insert key
            (UpsData.updateFieldFromMqtt (clock s (clock_reads s))
               sensor payload data)
            (device_data_ s)
        /\ last_save_times_ s' = last_save_times_ s
    | None =>
        let fresh :=
          UpsData.set_timestamp (clock s (clock_reads s))
            (UpsData.set_device_id dev UpsData.default) in
        device_data_ s'
        = StdMap.insert key
            (UpsData.updateFieldFromMqtt (clock s (2 + clock_reads s))
               sensor payload fresh)
            (StdMap.insert key fresh (device_data_ s))
        /\ last_save_times_ s'
           = StdMap.insert key (clock s (1 + clock_reads s))
               (last_save_times_ s)
    end.
Proof.
  intros topic payload s dev sensor Hp Hd Hs key s'. subst s'.
  unfold onMqttMessage. rewrite Hp.
  apply String.eqb_neq in Hd, Hs. rewrite Hd, Hs. simpl orb. cbv iota.
  fold key. rewrite run_bind. simpl fst. simpl snd.
  destruct (StdMap.find key (device_data_ s)) as [data | ] eqn:Efind.
  - rewrite !run_bind.
    cbn -[StdMap.find StdMap.insert UpsData.updateFieldFromMqtt].
    rewrite Efind. now split.
  - rewrite !run_bind.
    cbn -[StdMap.find StdMap.insert UpsData.updateFieldFromMqtt].
    rewrite find_insert. now split.
Qed.


Lemma onMqttMessage_frame : forall topic payload s,
    let s' := run (onMqttMessage getDbIdentifier topic payload) s in
    db_calls s' = db_calls s /\ save_calls s' = save_calls s
    /\ save_interval_seconds_ s' = save_interval_seconds_ s
    /\ running_ s' = running_ s.
Proof.
  intros topic payload s s'. subst s'. unfold onMqttMessage.
  destruct (parseTopic topic) as [dev sensor].
  destruct ((dev =? "") || (sensor =? "")); [now repeat split | ].
  rewrite run_bind. simpl fst. simpl snd.
  destruct (StdMap.find (getDbIdentifier dev) (device_data_ s)) eqn:Efind;
    rewrite !run_bind;
    cbn -[StdMap.find StdMap.insert UpsData.updateFieldFromMqtt];
    [rewrite Efind | rewrite find_insert]; now repeat split.
Qed.

(** ** Every buffered device has a save time from its first message on *)

Lemma message_keeps_last_save : forall topic payload s,
    every_device_has_last_save s ->
    every_device_has_last_save
      (run (onMqttMessage getDbIdentifier topic payload) s).
Proof.
  intros topic payload s H.
  destruct (parseTopic topic) as [dev sensor] eqn:Hp.
  destruct ((dev =? "") || (sensor =? "")) eqn:Hempty.
  - unfold run. rewrite onMqttMessage_ignored; [exact H | now rewrite Hp].
  - apply orb_false_elim in Hempty. destruct Hempty as [Hd Hs].
    apply String.eqb_neq in Hd, Hs.
    pose proof (onMqttMessage_accepted topic payload s dev sensor Hp Hd Hs)
      as Heff. cbv zeta in Heff.
    set (key := getDbIdentifier dev) in *.
    intros id Hid.
    destruct (StdMap.find key (device_data_ s)) as [data | ] eqn:Efind;
      destruct Heff as [Hdata Hlast]; rewrite Hlast; rewrite Hdata in Hid.
    + apply H. destruct (String.eqb_spec id key) as [-> | Hne].
      * now rewrite Efind.
      * now rewrite find_insert_other in Hid.
    + destruct (String.eqb_spec id key) as [-> | Hne].
      * now rewrite find_insert.
      * rewrite find_insert_other by exact Hne. apply H.
        now rewrite !find_insert_other in Hid.
Qed.

End MessageFacts.

(* ================================================================== *)
(** * The collector: save times *)
(* ================================================================== *)

Section SaveTimes.

Import CollectorService CollectorSpec.
Local Open Scope state_scope.

Lemma keeps_save_times_trans : forall s0 s1 s2,
    keeps_save_times s0 s1 -> keeps_save_times s1 s2 -> keeps_save_times s0 s2.
Proof.
  intros s0 s1 s2 [D1 L1] [D2 L2]. split; [congruence | auto].
Qed.

Lemma saveDeviceData_keeps_save_times : forall id s,
    keeps_save_times s (run (saveDeviceData id) s).
Proof.
  intros id s. pose proof (saveDeviceData_effect id s) as [Hd [_ [_ [_ Hl]]]].
  split; [exact Hd | ]. intros k Hk.
  destruct Hl as [-> | [saved ->]]; [exact Hk | ].
  destruct (String.eqb_spec k id) as [-> | Hne].
  - now rewrite find_insert.
  - now rewrite find_insert_other.
Qed.

Lemma check_device_keeps_save_times : forall now_ id s,
    keeps_save_times s (run (check_device now_ id) s).
Proof.
  intros now_ id s. rewrite check_device_eq.
  destruct (StdMap.find id (last_save_times_ s)) as [last_save | ];
    [destruct (_ <=? _)%Z | ];
    solve [apply saveDeviceData_keeps_save_times | now split].
Qed.

Lemma round_keeps_save_times : forall s,
    keeps_save_times s (run scheduledSaveLoop_round s).
Proof.
  intro s. rewrite round_eq.
  apply (for_each_invariant (keeps_save_times s)).
  - intros id s2 H. eapply keeps_save_times_trans; [exact H | ].
    apply check_device_keeps_save_times.
  - now split.
Qed.

Lemma stop_keeps_save_times : forall s, keeps_save_times s (run stop s).
Proof.
  intro s. rewrite stop_eq. destruct (running_ s); [ | now split].
  apply (for_each_invariant (keeps_save_times s)).
  - intros id s2 H. eapply keeps_save_times_trans; [exact H | ].
    rewrite run_bind. apply saveDeviceData_keeps_save_times.
  - now split.
Qed.

Lemma keeps_save_times_invariant : forall s s',
    keeps_save_times s s' ->
    every_device_has_last_save s -> every_device_has_last_save s'.
Proof.
  intros s s' [Hd Hl] H id Hid. rewrite Hd in Hid. auto.
Qed.

(** The branch of the saver loop for a device without a save time is never
    taken: a device gets its save time together with its record. *)
Theorem reachable_devices_have_last_save :
  forall getDbIdentifier s,
    reachable getDbIdentifier s -> every_device_has_last_save s.
Proof.
  intros getDb s H. induction H.
  - intros id Hid. now contradiction Hid.
  - now apply message_keeps_last_save.
  - eapply keeps_save_times_invariant; [apply round_keeps_save_times | exact IHreachable].
  - unfold run, start, bind, get, modify. simpl.
    now destruct (running_ s).
  - eapply keeps_save_times_invariant; [apply stop_keeps_save_times | exact IHreachable].
Qed.

(** ** The branch for a device without a save time *)

Lemma save_calls_grow : forall now_ ids s id,
    In id (save_calls s) ->
    In id (save_calls (run (for_each (check_device now_) ids) s)).
Proof.
  intros now_ ids s id H.
  apply (for_each_invariant (fun s' => In id (save_calls s'))); [ | exact H].
  intros a s1 H1. rewrite check_device_eq.
  assert (Hs : In id (save_calls (run (saveDeviceData a) s1))).
  { pose proof (saveDeviceData_effect a s1) as [_ [_ [-> _]]].
    apply in_or_app. now left. }
  destruct (StdMap.find a (last_save_times_ s1));
    [destruct (_ <=? _)%Z | ]; assumption.
Qed.

Lemma for_each_flushes_unsaved : forall now_ ids s id,
    In id ids ->
    StdMap.find id (last_save_times_ s) = None ->
    In id (save_calls (run (for_each (check_device now_) ids) s)).
Proof.
  intros now_ ids. induction ids as [| a ids IH]; intros s id Hin Hnone.
  - contradiction.
  - rewrite run_for_each_cons.
    destruct (String.eqb_spec a id) as [-> | Hne].
    + apply save_calls_grow. rewrite check_device_eq, Hnone.
      pose proof (saveDeviceData_effect id s) as [_ [_ [-> _]]].
      apply in_or_app. right. now left.
    + destruct Hin as [-> | Hin]; [contradiction | ].
      apply IH; [exact Hin | ].
      rewrite check_device_eq.
      assert (Hs : StdMap.find id (last_save_times_ (run (saveDeviceData a) s))
                   = None).
      { pose proof (saveDeviceData_effect a s) as [_ [_ [_ [_ Hl]]]].
        destruct Hl as [-> | [saved ->]]; [exact Hnone | ].
        rewrite find_insert_other by congruence. exact Hnone. }
      destruct (StdMap.find a (last_save_times_ s));
        [destruct (_ <=? _)%Z | ]; assumption.
Qed.

Lemma round_flushes_unsaved : forall s id,
    StdMap.find id (device_data_ s) <> None ->
    StdMap.find id (last_save_times_ s) = None ->
    In id (save_calls (run scheduledSaveLoop_round s)).
Proof.
  intros s id Hd Hl. rewrite round_eq.
  apply for_each_flushes_unsaved; [now apply find_keys | exact Hl].
Qed.

Lemma round_on_state_without_last_save :
  save_calls (run scheduledSaveLoop_round d1_without_last_save) = ["d1"]
  /\ map snd (db_calls (run scheduledSaveLoop_round d1_without_last_save))
     = ["d1"].
Proof. split; vm_compute; reflexivity. Qed.

(** ** A device that was just created *)

(** C2, on the code.  In the state [two_devices] the device [d1] has just
    been created by its first two messages and its record is complete, and
    the device [d2] was saved ten seconds before the round; the interval is
    one hour.  Creating [d1] has also given it an entry in
    [last_save_times_], the time of its creation.  So the round of the saver
    loop does not call [saveDeviceData] for [d1] (nor for [d2]): the only call
    on record is the earlier one for [d2], and nothing new goes to the
    sink. *)
Theorem just_created_device_is_not_flushed :
  let now_ := scenario_clock (clock_reads two_devices) in
  StdMap.find "d1" (device_data_ two_devices)
  = Some (UpsDataSpec.charge_and_status "d1" (scenario_clock 9))
  /\ UpsData.isValid (UpsDataSpec.charge_and_status "d1" (scenario_clock 9))
     = true
  /\ StdMap.find "d1" (last_save_times_ two_devices) = Some (scenario_clock 7)
  /\ StdMap.find "d2" (last_save_times_ two_devices) = Some (scenario_clock 4)
  /\ seconds_between now_ (scenario_clock 7) = 7%Z
  /\ seconds_between now_ (scenario_clock 4) = 10%Z
  /\ save_interval_seconds_ two_devices = 3600%Z
  /\ save_calls two_devices = ["d2"]
  /\ save_calls (run scheduledSaveLoop_round two_devices) = ["d2"]
  /\ db_calls (run scheduledSaveLoop_round two_devices)
     = db_calls two_devices.
Proof.
  cbv zeta.
  repeat (apply conj; [vm_compute; reflexivity | ]).
  vm_compute. reflexivity.
Qed.

End SaveTimes.

(* ================================================================== *)
(** * The collector: topics *)
(* ================================================================== *)

Section TopicLevels.

Import CollectorService CollectorSpec.
Local Open Scope state_scope.

Lemma parseTopic_short : forall topic,
    List.length (Cxx.split "/" topic) < 5 -> parseTopic topic = ("", "").
Proof.
  intros topic H. unfold parseTopic.
  apply Nat.leb_gt in H. now rewrite H.
Qed.

Lemma parseTopic_long : forall topic,
    5 <= List.length (Cxx.split "/" topic) ->
    parseTopic topic
    = (nth 2 (Cxx.split "/" topic) "", nth 3 (Cxx.split "/" topic) "").
Proof.
  intros topic H. unfold parseTopic.
  apply Nat.leb_le in H. now rewrite H.
Qed.

(** C8, as the code has it.  A topic with fewer than five levels, or with an
    empty third or fourth level, is ignored: the collector is left exactly
    as it was.  A topic with five levels or more whose third and fourth
    levels are not empty is accepted: these two levels are the device
    identifier and the field name, and afterwards the buffer holds, under
    the key of the device, a record into which the payload was merged.  The
    other levels are not looked at. *)
Theorem topics_of_five_levels_or_more_are_accepted :
  forall getDbIdentifier topic payload s,
    let parts := Cxx.split "/" topic in
    let device := nth 2 parts "" in
    let sensor := nth 3 parts "" in
    (List.length parts < 5 \/ device = "" \/ sensor = "" ->
     onMqttMessage getDbIdentifier topic payload s = (tt, s))
    /\ (5 <= List.length parts -> device <> "" -> sensor <> "" ->
        parseTopic topic = (device, sensor)
        /\ exists base updated,
            StdMap.find (getDbIdentifier device)
              (device_data_ (run (onMqttMessage getDbIdentifier topic payload) s))
            = Some (UpsData.updateFieldFromMqtt updated sensor payload base)).
Proof.
  intros getDb topic payload s parts device sensor. split.
  - intro H. apply onMqttMessage_ignored.
    destruct (Nat.lt_ge_cases (List.length parts) 5) as [Hshort | Hlong].
    + now rewrite parseTopic_short.
    + rewrite parseTopic_long by exact Hlong. simpl. fold parts device sensor.
      destruct H as [H | [-> | ->]]; [lia | reflexivity | ].
      now rewrite String.eqb_refl, orb_true_r.
  - intros Hlong Hd Hs.
    pose proof (parseTopic_long topic Hlong) as Hp. fold parts device sensor in Hp.
    split; [exact Hp | ].
    pose proof (onMqttMessage_accepted getDb topic payload s device sensor
                  Hp Hd Hs) as Heff. cbv zeta in Heff.
    destruct (StdMap.find (getDb device) (device_data_ s)) as [data | ];
      destruct Heff as [-> _]; rewrite find_insert; eauto.
Qed.

Lemma topics_of_five_levels_or_more_are_accepted_witness :
  onMqttMessage (fun id => id) "homeassistant/sensor/apc_ups" "100" hourly
  = (tt, hourly)
  /\ parseTopic "homeassistant/sensor/apc_ups/battery_charge/state/extra"
     = ("apc_ups", "battery_charge")
  /\ exists base updated,
      StdMap.find "apc_ups"
        (device_data_
           (run (onMqttMessage (fun id => id)
                   "homeassistant/sensor/apc_ups/battery_charge/state/extra"
                   "100") hourly))
      = Some (UpsData.updateFieldFromMqtt updated "battery_charge" "100" base).
Proof.
  split.
  - apply (topics_of_five_levels_or_more_are_accepted
             (fun id => id) "homeassistant/sensor/apc_ups" "100" hourly).
    left. simpl. lia.
  - apply (topics_of_five_levels_or_more_are_accepted
             (fun id => id)
             "homeassistant/sensor/apc_ups/battery_charge/state/extra"
             "100" hourly).
    + simpl. lia.
    + discriminate.
    + discriminate.
Defined.

(** C8 as the design document states it does not hold: a topic of six levels
    creates a record. *)
Lemma six_levels_are_accepted : ~ only_five_levels_accepted.
Proof.
  intro H.
  specialize (H (fun id => id)
                "homeassistant/sensor/apc_ups/battery_charge/state/extra"
                "100" hourly).
  assert (Hlevels :
            List.length
              (Cxx.split "/"
                 "homeassistant/sensor/apc_ups/battery_charge/state/extra")
            <> 5) by (vm_compute; discriminate).
  specialize (H Hlevels). vm_compute in H. discriminate H.
Qed.

End TopicLevels.

(* ================================================================== *)
(** * The collector: a device that reports charge and status *)
(* ================================================================== *)

Section ChargeAndStatus.

Import CollectorService CollectorSpec UpsDataSpec.
Local Open Scope state_scope.

Ltac run_collector :=
  repeat first [ rewrite String.eqb_refl | rewrite compare_refl
               | progress cbn -[UpsData.updateFieldFromMqtt] ].

Lemma two_updates_state :
  forall getDbIdentifier interval clock db id status_first,
    id <> "" -> no_slash id = true ->
    run (two_updates getDbIdentifier id status_first) (new interval clock db)
    = mk interval false
         [(getDbIdentifier id, charge_and_status id (clock 3))]
         [(getDbIdentifier id, clock 1)]
         0%Z clock 4 db [] [].
Proof.
  intros getDb interval clock db id status_first Hne Hns.
  apply String.eqb_neq in Hne.
  unfold run, two_updates.
  destruct status_first; unfold bind, onMqttMessage;
    rewrite !parseTopic_state_topic by (exact Hns || reflexivity);
    rewrite Hne; run_collector; vm_compute; reflexivity.
Qed.

(** C6, as the code has it.  A device whose only updates are a battery
    charge of 100 and the status [OL], in either order, has a complete
    record, and a flush makes one call of the sink.  In the record of that
    call three optional members hold a value: the charge, the status, and
    [power_failure], which the status update derives ([false], since [OL]
    does not contain [OB]); every other optional member is absent, and the
    other columns of the row are [NULL]. *)
Theorem flush_after_charge_and_status :
  forall getDbIdentifier interval clock db id status_first,
    id <> "" -> no_slash id = true ->
    let s := run (two_updates getDbIdentifier id status_first)
                 (new interval clock db) in
    let data := charge_and_status id (clock 3) in
    StdMap.find (getDbIdentifier id) (device_data_ s) = Some data
    /\ UpsData.isValid data = true
    /\ db_calls (run (saveDeviceData (getDbIdentifier id)) s)
       = [(data, getDbIdentifier id)]
    /\ present_fields data = ["battery_charge"; "ups_status"; "power_failure"]
    /\ DatabaseService.columns_set data
       = ["battery_charge"; "ups_status"; "power_failure"].
Proof.
  intros getDb interval clock db id status_first Hne Hns s data.
  subst s. rewrite (two_updates_state _ _ _ _ _ _ Hne Hns).
  repeat split.
  - simpl. now rewrite String.eqb_refl.
  - unfold run, saveDeviceData, bind, modify, get. simpl.
    rewrite String.eqb_refl. simpl.
    destruct (db 0); reflexivity.
Qed.

Lemma flush_after_charge_and_status_witness :
  let s := run (two_updates (fun id => id) "X" false) hourly in
  let data := charge_and_status "X" (second_clock 3) in
  StdMap.find "X" (device_data_ s) = Some data
  /\ UpsData.isValid data = true
  /\ db_calls (run (saveDeviceData "X") s) = [(data, "X")]
  /\ present_fields data = ["battery_charge"; "ups_status"; "power_failure"]
  /\ DatabaseService.columns_set data
     = ["battery_charge"; "ups_status"; "power_failure"].
Proof.
  apply (flush_after_charge_and_status
           (fun id => id) 3600%Z second_clock (fun _ => true) "X" false).
  - discriminate.
  - reflexivity.
Defined.

(** The bridge derives [power_failure] from the status in the same way:
    the snapshot with these two variables gives the same record. *)
Lemma snapshot_with_charge_and_status : forall now id,
    UpsData.fromNutVariables now id
      [("battery.charge", "100"); ("ups.status", "OL")]
    = charge_and_status id now.
Proof. intros. vm_compute. reflexivity. Qed.

(** C6 as the design document states it does not hold: for the device [X]
    the record given to the sink has [power_failure] set as well. *)
Lemma power_failure_is_stored_too : ~ flush_stores_charge_and_status_only.
Proof.
  intro H.
  destruct (H (fun id => id) 3600%Z second_clock (fun _ => true) "X" false)
    as [data [Hcalls [_ Hfields]]]; [discriminate | reflexivity | ].
  vm_compute in Hcalls. injection Hcalls as <-.
  vm_compute in Hfields. discriminate Hfields.
Qed.

End ChargeAndStatus.

(* ================================================================== *)
(** * The client: subscribe *)
(* ================================================================== *)

Section ClientFacts.

Import MqttClient ClientSpec.
Local Open Scope state_scope.

Lemma events_of_appended : forall {A : Type} (m : M A) c evs,
    trace (snd (m c)) = trace c ++ evs -> events_of m c = evs.
Proof.
  intros A m c evs H. unfold events_of. rewrite H.
  rewrite skipn_app, skipn_all, Nat.sub_diag. reflexivity.
Qed.

(** ** [subscribe], case by case *)

(** Finds where [E : l = before ++ x :: after] can hold for a list [l]
    that is given element by element. *)
Ltac locate E before :=
  destruct before as [| ? before]; simpl in E;
  [ first [ discriminate E | idtac ]
  | first [ discriminate E | injection E as ? E; locate E before ] ].

(** The events of a call of [subscribe]: none but the locking of
    [isConnected] when the client is not connected or the lock is busy,
    else the handler is stored and then, if there is a transport, the
    request is made. *)
Lemma subscribe_events : forall c topic callback qos,
    events_of (subscribe topic callback qos) c
    = [Lock connection_mutex_; Unlock connection_mutex_]
      ++ (if connected_ c && client_ c && transport_connected c then
            if try_lock_fails c (2 + List.length (trace c)) then []
            else
              [Lock connection_mutex_; Unlock connection_mutex_;
               Lock callbacks_mutex_; Store topic callback;
               Unlock callbacks_mutex_]
              ++ (if client_ c
                  then [NetSubscribe topic qos
                          (StdMap.insert topic callback (message_callbacks_ c))]
                  else [])
          else []).
Proof.
  intros [cl co cb tc fails throws h tr] topic callback qos.
  apply events_of_appended.
  unfold subscribe, isConnected, try_lock, request_subscribe, transport,
    lock, unlock, emit, bind, get, modify, ret.
  destruct co, cl, tc; simpl;
    try (now rewrite <- !app_assoc);
    rewrite !List.length_app; simpl;
    replace (List.length tr + 1 + 1) with (S (S (List.length tr))) by lia;
    destruct (fails (S (S (List.length tr)))); simpl;
    now rewrite <- !app_assoc.
Qed.

Lemma subscribe_registry : forall c topic callback qos,
    message_callbacks_ (snd (subscribe topic callback qos c))
    = if connected_ c && client_ c && transport_connected c then
        if try_lock_fails c (2 + List.length (trace c)) then message_callbacks_ c
        else StdMap.insert topic callback (message_callbacks_ c)
      else message_callbacks_ c.
Proof.
  intros [cl co cb tc fails throws h tr] topic callback qos.
  unfold subscribe, isConnected, try_lock, request_subscribe, transport,
    lock, unlock, emit, bind, get, modify, ret.
  destruct co, cl, tc; simpl; try reflexivity;
    rewrite !List.length_app; simpl;
    replace (List.length tr + 1 + 1) with (S (S (List.length tr))) by lia;
    destruct (fails (S (S (List.length tr)))); reflexivity.
Qed.

(** Where the request occurs among the events of [subscribe]: behind the
    store, with the registry that the store has left. *)
Lemma subscribe_request : forall c topic callback qos before after t q registry,
    events_of (subscribe topic callback qos) c
    = before ++ NetSubscribe t q registry :: after ->
    t = topic /\ q = qos
    /\ In (Store topic callback) before
    /\ registry = StdMap.insert topic callback (message_callbacks_ c)
    /\ connected_ c && client_ c && transport_connected c = true
    /\ try_lock_fails c (2 + List.length (trace c)) = false.
Proof.
  intros c topic callback qos before after t q registry E.
  rewrite subscribe_events in E.
  destruct (connected_ c && client_ c && transport_connected c);
    [ | simpl in E; locate E before].
  destruct (try_lock_fails c (2 + List.length (trace c)));
    [simpl in E; locate E before | ].
  destruct (client_ c); simpl in E; locate E before.
  injection E as <- <- <-. subst.
  repeat split. simpl. tauto.
Qed.

End ClientFacts.

(* ================================================================== *)
(** * The client: dispatch *)
(* ================================================================== *)

Section DispatchFacts.

Import MqttClient ClientSpec.
Local Open Scope state_scope.

Lemma dispatch_effect : forall entries topic payload c,
    snd (dispatch entries topic payload c)
    = set_trace
        (trace c
         ++ map (fun callback => Call callback topic payload (held c))
                (matching topic entries))
        c.
Proof.
  induction entries as [| [pattern callback] entries IH];
    intros topic payload c.
  - destruct c. unfold matching. simpl. now rewrite app_nil_r.
  - unfold matching in *. simpl. unfold bind.
    destruct (topicMatches topic pattern); simpl.
    + unfold call, emit, modify. rewrite IH. destruct c. simpl.
      now rewrite <- app_assoc.
    + unfold ret. apply IH.
Qed.

Lemma onMessageArrived_events : forall topic payload c,
    events_of (onMessageArrived topic payload) c
    = [Lock callbacks_mutex_]
      ++ map (fun callback =>
                Call callback topic payload (callbacks_mutex_ :: held c))
             (matching topic (message_callbacks_ c))
      ++ [Unlock callbacks_mutex_].
Proof.
  intros topic payload c. apply events_of_appended.
  unfold onMessageArrived, lock, unlock, emit, bind, get, modify. simpl.
  match goal with
  | |- context [dispatch ?e ?t ?p ?c0] =>
      pose proof (dispatch_effect e t p c0) as H;
      destruct (dispatch e t p c0) as [u c1]
  end.
  simpl in H. subst c1. destruct c. simpl.
  now rewrite <- !app_assoc.
Qed.

Lemma calls_of_handlers : forall topic payload h callbacks,
    calls (map (fun callback => Call callback topic payload h) callbacks)
    = map (fun callback => (callback, h)) callbacks.
Proof.
  induction callbacks as [| cb cbs IH]; simpl; [reflexivity | now rewrite IH].
Qed.

Lemma calls_app : forall evs1 evs2, calls (evs1 ++ evs2) = calls evs1 ++ calls evs2.
Proof.
  induction evs1 as [| e evs1 IH]; intro evs2; simpl; [reflexivity | ].
  destruct e; simpl; now rewrite ?IH.
Qed.

(** Every handler whose pattern matches is entered, once per entry, and
    each of them with [callbacks_mutex_] held. *)
Theorem dispatch_enters_all_matching_handlers_under_lock :
  forall topic payload c,
    calls (events_of (onMessageArrived topic payload) c)
    = map (fun callback => (callback, callbacks_mutex_ :: held c))
          (matching topic (message_callbacks_ c)).
Proof.
  intros topic payload c. rewrite onMessageArrived_events.
  rewrite !calls_app, calls_of_handlers. simpl. now rewrite app_nil_r.
Qed.

(** C4, on the code.  With three handlers registered, a message on [a/b/c]
    enters the two handlers whose patterns match, and each of them is
    entered while the calling thread holds [callbacks_mutex_]: the lock is
    taken before the loop and released after it. *)
Theorem handlers_entered_with_registry_locked :
  events_of (onMessageArrived "a/b/c" "on") three_handlers
  = [ Lock callbacks_mutex_;
      Call 2 "a/b/c" "on" [callbacks_mutex_];
      Call 1 "a/b/c" "on" [callbacks_mutex_];
      Unlock callbacks_mutex_ ]
  /\ ~ registry_unlocked_in_handlers
         (events_of (onMessageArrived "a/b/c" "on") three_handlers).
Proof.
  split; [reflexivity | ].
  intro H. apply (H 2 [callbacks_mutex_]); simpl; tauto.
Qed.

(** C3.  Wherever the subscribe request to the transport occurs among the
    events of a call of [subscribe], it is the request for the topic and the
    quality of service of the call, and the handler was stored before it.
    The registry as it is when the request is made holds the handler for
    the pattern: a message that matches the pattern and is dispatched on
    this registry, that is before any acknowledgment and before [subscribe]
    has returned, enters the handler.  The registry still holds the handler
    when the call returns. *)
Theorem handler_registered_before_request :
  forall c topic callback qos before after t q registry,
    events_of (subscribe topic callback qos) c
    = before ++ NetSubscribe t q registry :: after ->
    t = topic /\ q = qos
    /\ In (Store topic callback) before
    /\ StdMap.find topic registry = Some callback
    /\ (forall c' message_topic payload,
           message_callbacks_ c' = registry ->
           topicMatches message_topic topic = true ->
           In (callback, callbacks_mutex_ :: held c')
              (calls (events_of (onMessageArrived message_topic payload) c')))
    /\ StdMap.find topic
         (message_callbacks_ (snd (subscribe topic callback qos c)))
       = Some callback.
Proof.
  intros c topic callback qos before after t q registry E.
  destruct (subscribe_request _ _ _ _ _ _ _ _ _ E)
    as [-> [-> [Hstored [-> [Hc Hl]]]]].
  rewrite subscribe_registry, Hc, Hl.
  split; [reflexivity | ]. split; [reflexivity | ].
  split; [exact Hstored | ]. split; [apply find_insert | ].
  split; [ | apply find_insert].
  intros c' message_topic payload Hregistry Hmatch.
  rewrite onMessageArrived_events, !calls_app, calls_of_handlers. simpl.
  rewrite app_nil_r.
  apply (in_map (fun cb => (cb, callbacks_mutex_ :: held c'))).
  unfold matching. apply (in_map snd _ (topic, callback)).
  apply filter_In. split; [ | exact Hmatch].
  apply find_In. rewrite Hregistry. apply find_insert.
Qed.

Lemma handler_registered_before_request_witness :
  events_of (subscribe "a/#" 7 1) (connected_client [])
  = [ Lock connection_mutex_; Unlock connection_mutex_;
      Lock connection_mutex_; Unlock connection_mutex_;
      Lock callbacks_mutex_; Store "a/#" 7; Unlock callbacks_mutex_ ]
    ++ NetSubscribe "a/#" 1 [("a/#", 7)] :: []
  /\ In (Store "a/#" 7)
        [ Lock connection_mutex_; Unlock connection_mutex_;
          Lock connection_mutex_; Unlock connection_mutex_;
          Lock callbacks_mutex_; Store "a/#" 7; Unlock callbacks_mutex_ ]
  /\ In (7, [callbacks_mutex_])
        (calls (events_of (onMessageArrived "a/b" "on")
                          (connected_client [("a/#", 7)])))
  /\ StdMap.find "a/#"
       (message_callbacks_ (snd (subscribe "a/#" 7 1 (connected_client []))))
     = Some 7.
Proof.
  split; [reflexivity | ].
  destruct (handler_registered_before_request
              (connected_client []) "a/#" 7 1%Z
              [ Lock connection_mutex_; Unlock connection_mutex_;
                Lock connection_mutex_; Unlock connection_mutex_;
                Lock callbacks_mutex_; Store "a/#" 7; Unlock callbacks_mutex_ ]
              [] "a/#" 1%Z [("a/#", 7)] eq_refl)
    as [_ [_ [Hstored [_ [Hrouted Hfound]]]]].
  split; [exact Hstored | ]. split; [ | exact Hfound].
  apply (Hrouted (connected_client [("a/#", 7)]) "a/b" "on");
    reflexivity.
Defined.

(** A message that arrives right after [subscribe] has made its request
    finds the handler. *)
Lemma message_after_subscribe_reaches_handler :
  forall c pattern callback qos topic payload,
    connected_ c && client_ c && transport_connected c = true ->
    try_lock_fails c (2 + List.length (trace c)) = false ->
    topicMatches topic pattern = true ->
    let c' := snd (subscribe pattern callback qos c) in
    exists h,
      In (callback, h) (calls (events_of (onMessageArrived topic payload) c')).
Proof.
  intros c pattern callback qos topic payload Hc Hl Hm c'.
  exists (callbacks_mutex_ :: held c').
  rewrite dispatch_enters_all_matching_handlers_under_lock.
  apply (in_map (fun cb => (cb, callbacks_mutex_ :: held c'))).
  unfold matching. apply (in_map snd _ (pattern, callback)).
  apply filter_In. split; [ | exact Hm].
  apply find_In. subst c'. rewrite subscribe_registry, Hc, Hl.
  apply find_insert.
Qed.

End DispatchFacts.

(* ================================================================== *)
(** * The client: calls while disconnected *)
(* ================================================================== *)

Section FailFast.

Import MqttClient ClientSpec.
Local Open Scope state_scope.

Lemma only_locked_refl : forall c, only_locked c c.
Proof.
  intro c. exists []. split; [ | reflexivity].
  destruct c. simpl. now rewrite app_nil_r.
Qed.

Lemma only_locked_trans : forall c1 c2 c3,
    only_locked c1 c2 -> only_locked c2 c3 -> only_locked c1 c3.
Proof.
  intros c1 c2 c3 [e1 [-> F1]] [e2 [-> F2]].
  exists (e1 ++ e2). split.
  - destruct c1. simpl. now rewrite app_assoc.
  - rewrite forallb_app, F1, F2. reflexivity.
Qed.

Lemma only_locked_disconnected : forall c c',
    only_locked c c' -> disconnected c -> disconnected c'.
Proof. intros c c' [evs [-> _]] H. destruct c. exact H. Qed.

Lemma quiet_ret : forall {A : Type} (P : A -> Prop) (a : A),
    P a -> quiet P (ret a).
Proof. intros A P a H c _. split; [exact H | apply only_locked_refl]. Qed.

Lemma quiet_bind :
  forall {A B : Type} (P : A -> Prop) (Q : B -> Prop) (m : M A) (k : A -> M B),
    quiet P m -> (forall a, P a -> quiet Q (k a)) -> quiet Q (bind m k).
Proof.
  intros A B P Q m k Hm Hk c Hc. unfold bind.
  destruct (Hm c Hc) as [Hp Hl]. destruct (m c) as [a c1]. simpl in *.
  destruct (Hk a Hp c1 (only_locked_disconnected _ _ Hl Hc)) as [Hq Hl'].
  split; [exact Hq | eapply only_locked_trans; eassumption].
Qed.

Lemma isConnected_quiet : quiet (fun r => r = false) isConnected.
Proof.
  intros [cl co cb tc fails throws h tr] H. unfold disconnected in H.
  simpl in H. unfold isConnected, lock, unlock, emit, bind, get, modify, ret.
  simpl. split; [exact H | ].
  exists [Lock connection_mutex_; Unlock connection_mutex_].
  split; [ | reflexivity]. simpl. now rewrite <- app_assoc.
Qed.

Lemma publish_fails_fast : forall topic payload qos retain,
    fails_fast (publish topic payload qos retain).
Proof.
  intros. unfold fails_fast, publish.
  apply (quiet_bind (fun r => r = false)); [apply isConnected_quiet | ].
  intros a ->. now apply quiet_ret.
Qed.

Lemma subscribe_fails_fast : forall topic callback qos,
    fails_fast (subscribe topic callback qos).
Proof.
  intros. unfold fails_fast, subscribe.
  apply (quiet_bind (fun r => r = false)); [apply isConnected_quiet | ].
  intros a ->. now apply quiet_ret.
Qed.

Lemma unsubscribe_fails_fast : forall topic, fails_fast (unsubscribe topic).
Proof.
  intros. unfold fails_fast, unsubscribe.
  apply (quiet_bind (fun r => r = false)); [apply isConnected_quiet | ].
  intros a ->. now apply quiet_ret.
Qed.

Section Republish.

Import DiscoveryPublisher.

Variable writeString : Json.Value -> string.
Variable self : DiscoveryPublisher.t.

Lemma and_also_fails_fast : forall all_success call,
    fails_fast call -> fails_fast (and_also all_success call).
Proof.
  intros all_success call H. unfold fails_fast, and_also.
  apply (quiet_bind (fun r => r = false)); [exact H | ].
  intros a ->. apply quiet_ret. apply andb_false_r.
Qed.

Lemma publishSensorConfig_fails_fast :
  forall sensor_id name unit_ device_class state_class icon,
    fails_fast (publishSensorConfig writeString self sensor_id name unit_
                                    device_class state_class icon).
Proof. intros. apply publish_fails_fast. Qed.

Lemma publishBinarySensorConfig_fails_fast :
  forall sensor_id name device_class icon,
    fails_fast (publishBinarySensorConfig writeString self sensor_id name
                                          device_class icon).
Proof. intros. apply publish_fails_fast. Qed.

Lemma publishAll_fails_fast : fails_fast (publishAll writeString self).
Proof.
  unfold fails_fast, publishAll. cbv zeta.
  match goal with
  | |- quiet _ (bind ?m ?k) => apply (quiet_bind (fun _ => True) _ m k)
  end; [now apply quiet_ret | intros ? _].
  repeat match goal with
         | |- quiet _ (bind (and_also ?a ?call) ?k) =>
             apply (quiet_bind (fun r => r = false) _ (and_also a call) k);
             [ apply and_also_fails_fast, publish_fails_fast | intros ? -> ]
         end.
  apply quiet_ret. reflexivity.
Qed.

Lemma publishAll_times_quiet : forall n,
    quiet (fun rs => rs = repeat false n) (publishAll_times writeString self n).
Proof.
  induction n as [| n IH]; simpl.
  - now apply quiet_ret.
  - apply (quiet_bind (fun r => r = false)); [apply publishAll_fails_fast | ].
    intros r ->.
    apply (quiet_bind (fun rs => rs = repeat false n)); [exact IH | ].
    intros rs ->. now apply quiet_ret.
Qed.

End Republish.

(** C9.  On a client that is not connected, [publish] and [subscribe]
    answer [false] and do nothing but take and release the connection lock:
    no request goes to the transport and the handler registry is unchanged.
    Hence [publishAll], called any number of times in a row, answers [false]
    each time, and leaves the client as it was. *)
Theorem calls_on_a_disconnected_client_fail_fast :
  forall c,
    disconnected c ->
    (forall topic payload qos retain,
        fst (publish topic payload qos retain c) = false
        /\ only_locked c (snd (publish topic payload qos retain c)))
    /\ (forall topic callback qos,
           fst (subscribe topic callback qos c) = false
           /\ only_locked c (snd (subscribe topic callback qos c)))
    /\ (forall writeString self n,
           fst (DiscoveryPublisher.publishAll_times writeString self n c)
           = repeat false n
           /\ only_locked c
                (snd (DiscoveryPublisher.publishAll_times writeString self n c))).
Proof.
  intros c Hc. repeat split.
  - now apply publish_fails_fast.
  - now apply publish_fails_fast.
  - now apply subscribe_fails_fast.
  - now apply subscribe_fails_fast.
  - now apply (publishAll_times_quiet writeString self n).
  - now apply (publishAll_times_quiet writeString self n).
Qed.

Lemma calls_on_a_disconnected_client_fail_fast_witness :
  let c := MqttClient.new (fun _ => false) (fun _ => false) in
  disconnected c
  /\ fst (publish "homeassistant/sensor/apc_ups/battery_charge/state" "100"
                  1 false c) = false
  /\ fst (subscribe "homeassistant/sensor/apc_ups/+/state" 7 1 c) = false
  /\ message_callbacks_
       (snd (subscribe "homeassistant/sensor/apc_ups/+/state" 7 1 c)) = []
  /\ fst (DiscoveryPublisher.publishAll_times
            (fun _ => "{}") (DiscoveryPublisher.new "apc_ups" "APC") 3 c)
     = [false; false; false].
Proof.
  intro c.
  assert (Hc : disconnected c) by reflexivity.
  destruct (calls_on_a_disconnected_client_fail_fast c Hc)
    as [Hpublish [Hsubscribe Hrepublish]].
  split; [exact Hc | ].
  split; [apply Hpublish | ].
  split; [apply Hsubscribe | ].
  split.
  - destruct (Hsubscribe "homeassistant/sensor/apc_ups/+/state" 7 1%Z)
      as [_ [evs [-> _]]]. reflexivity.
  - apply (Hrepublish (fun _ => "{}") (DiscoveryPublisher.new "apc_ups" "APC") 3).
Defined.

End FailFast.

(* ================================================================== *)
(** * Ordered maps *)
(* ================================================================== *)

Section OrderedMaps.

Import StdMapSpec.
Context {V : Type}.

Lemma ascii_compare_trans : forall a b c : ascii,
    Ascii.compare a b = Lt -> Ascii.compare b c = Lt -> Ascii.compare a c = Lt.
Proof.
  unfold Ascii.compare. intros a b c H1 H2.
  apply N.compare_lt_iff in H1. apply N.compare_lt_iff in H2.
  apply N.compare_lt_iff. now apply N.lt_trans with (N_of_ascii b).
Qed.

Lemma string_compare_trans : forall s1 s2 s3 : string,
    String.compare s1 s2 = Lt -> String.compare s2 s3 = Lt ->
    String.compare s1 s3 = Lt.
Proof.
  induction s1 as [| a s1 IH]; intros [| b s2] [| c s3] H1 H2;
    simpl in *; try discriminate; try reflexivity.
  destruct (Ascii.compare a b) eqn:Eab; try discriminate;
    destruct (Ascii.compare b c) eqn:Ebc; try discriminate.
  - apply Ascii.compare_eq_iff in Eab, Ebc. subst.
    replace (Ascii.compare c c) with Eq; [now apply IH with s2 | ].
    symmetry. unfold Ascii.compare. apply N.compare_refl.
  - apply Ascii.compare_eq_iff in Eab. subst. now rewrite Ebc.
  - apply Ascii.compare_eq_iff in Ebc. subst. now rewrite Eab.
  - now rewrite (ascii_compare_trans a b c Eab Ebc).
Qed.

Lemma string_compare_lt_neq : forall s1 s2 : string,
    String.compare s1 s2 = Lt -> s1 <> s2.
Proof.
  intros s1 s2 H ->.
  pose proof (String.compare_antisym s2 s2) as A.
  rewrite H in A. discriminate A.
Qed.

(** In an ascending map the first key is below all the others. *)
Lemma ascending_head_below : forall (k : string) (v : V) (m : StdMap.t V),
    ascending ((k, v) :: m) ->
    forall k', In k' (StdMap.keys m) -> String.compare k k' = Lt.
Proof.
  intros k v m. revert k v.
  induction m as [| [k1 v1] m IH]; intros k v H k' Hin; [contradiction | ].
  simpl in H. destruct H as [Hlt Hrest].
  destruct Hin as [<- | Hin]; [exact Hlt | ].
  apply (string_compare_trans k k1 k'); [exact Hlt | ].
  now apply (IH k1 v1).
Qed.

Lemma ascending_tail : forall (e : string * V) (m : StdMap.t V),
    ascending (e :: m) -> ascending m.
Proof. intros [k v] m H. simpl in H. tauto. Qed.

Lemma ascending_NoDup : forall m : StdMap.t V,
    ascending m -> NoDup (StdMap.keys m).
Proof.
  induction m as [| [k v] m IH]; intro H; simpl; constructor.
  - intro Hin. apply (string_compare_lt_neq k k); [ | reflexivity].
    now apply (ascending_head_below k v m H).
  - apply IH. now apply ascending_tail in H.
Qed.

Lemma insert_ascending : forall (k : string) (v : V) (m : StdMap.t V),
    ascending m -> ascending (StdMap.insert k v m).
Proof.
  intros k v m. induction m as [| [k1 v1] m IH]; intro H; simpl.
  - tauto.
  - destruct (String.compare k k1) eqn:E.
    + apply String.compare_eq_iff in E. subst k1. exact H.
    + split; [exact E | exact H].
    + assert (Hgt : String.compare k1 k = Lt).
      { rewrite String.compare_antisym, E. reflexivity. }
      pose proof (IH (ascending_tail _ _ H)) as IH'.
      simpl in H. destruct H as [Hhead _].
      split; [ | exact IH'].
      destruct m as [| [k2 v2] m]; simpl; [exact Hgt | ].
      destruct (String.compare k k2); assumption.
Qed.

Lemma erase_ascending : forall (k : string) (m : StdMap.t V),
    ascending m -> ascending (StdMap.erase k m).
Proof.
  intros k m. induction m as [| [k1 v1] m IH]; intro H; simpl; [tauto | ].
  destruct (k =? k1); [now apply ascending_tail in H | ].
  pose proof (IH (ascending_tail _ _ H)) as IH'.
  split; [ | exact IH'].
  destruct (StdMap.erase k m) as [| [k2 v2] m2] eqn:E; [exact I | ].
  apply (ascending_head_below k1 v1 m H).
  assert (Hin : In k2 (StdMap.keys (StdMap.erase k m)))
    by (rewrite E; now left).
  clear -Hin. induction m as [| [k3 v3] m IHm]; simpl in *; [contradiction | ].
  destruct (k =? k3); [now right | ].
  destruct Hin as [<- | Hin]; [now left | right; now apply IHm].
Qed.

Lemma find_not_key : forall (k : string) (m : StdMap.t V),
    ~ In k (StdMap.keys m) -> StdMap.find k m = None.
Proof.
  intros k m. induction m as [| [k1 v1] m IH]; intro H; simpl; [reflexivity | ].
  simpl in H. destruct (String.eqb_spec k k1) as [-> | _]; [tauto | ].
  apply IH. tauto.
Qed.

(** Lookup after [erase]: the key is gone, the others are as before. *)
Lemma find_erase : forall (k : string) (m : StdMap.t V),
    ascending m -> StdMap.find k (StdMap.erase k m) = None.
Proof.
  intros k m. induction m as [| [k1 v1] m IH]; intro H; simpl; [reflexivity | ].
  destruct (String.eqb_spec k k1) as [-> | Hne].
  - apply find_not_key. intro Hin.
    apply (string_compare_lt_neq k1 k1); [ | reflexivity].
    now apply (ascending_head_below k1 v1 m H).
  - simpl. apply String.eqb_neq in Hne. rewrite Hne.
    apply IH. now apply ascending_tail in H.
Qed.

Lemma find_erase_other : forall (k k' : string) (m : StdMap.t V),
    k' <> k -> StdMap.find k' (StdMap.erase k m) = StdMap.find k' m.
Proof.
  intros k k' m Hne. induction m as [| [k1 v1] m IH]; simpl; [reflexivity | ].
  destruct (String.eqb_spec k k1) as [-> | Hk].
  - apply String.eqb_neq in Hne. now rewrite Hne.
  - simpl. now rewrite IH.
Qed.

Lemma insert_insert : forall (k : string) (v v' : V) (m : StdMap.t V),
    StdMap.insert k v (StdMap.insert k v' m) = StdMap.insert k v m.
Proof.
  intros k v v' m. induction m as [| [k1 v1] m IH]; simpl.
  - now rewrite compare_refl.
  - destruct (String.compare k k1) eqn:E; simpl.
    + now rewrite compare_refl.
    + now rewrite compare_refl.
    + now rewrite E, IH.
Qed.

End OrderedMaps.

(* ================================================================== *)
(** * More on topic matching *)
(* ================================================================== *)

Section PlainPatterns.

Import Cxx MqttClient ClientSpec ClientSpec2.

Lemma Forall2_level_matches_refl : forall levels,
    Forall2 level_matches levels levels.
Proof.
  induction levels as [| l levels IH]; constructor; [now right | exact IH].
Qed.

Lemma match_levels_same_length : forall pattern_parts topic_parts,
    List.length topic_parts = List.length pattern_parts ->
    (match_levels pattern_parts topic_parts = true
     <-> Forall2 level_matches pattern_parts topic_parts).
Proof.
  intros pl tl Hlen. split.
  - intro H. destruct (match_levels_inv pl tl H) as [levels [rest [-> HF]]].
    pose proof (Forall2_length HF) as Hl.
    rewrite List.length_app in Hlen.
    destruct rest; [now rewrite app_nil_r | simpl in Hlen; lia].
  - intro HF. rewrite <- (app_nil_r tl). now apply match_levels_prefix.
Qed.

Lemma plain_levels_match_suffices : forall topic pattern,
    List.last (split "/" pattern) "" <> "#" ->
    Forall2 level_matches (split "/" pattern) (split "/" topic) ->
    topicMatches topic pattern = true.
Proof.
  intros topic pattern Hlast HF. unfold topicMatches.
  apply String.eqb_neq in Hlast. rewrite Hlast, andb_false_r.
  pose proof (Forall2_length HF) as Hlen. symmetry in Hlen.
  apply Nat.eqb_eq in Hlen. rewrite Hlen. simpl.
  apply match_levels_same_length; [now apply Nat.eqb_eq | exact HF].
Qed.

(** X1.  A pattern whose last level is not [#] matches exactly the topics
    with as many levels as it has, each level equal to the level of the
    pattern or standing under a [+]. *)
Theorem plain_pattern_matches_level_by_level :
  forall topic pattern,
    List.last (split "/" pattern) "" <> "#" ->
    (topicMatches topic pattern = true
     <-> Forall2 level_matches (split "/" pattern) (split "/" topic)).
Proof.
  intros topic pattern Hlast. unfold topicMatches.
  apply String.eqb_neq in Hlast. rewrite Hlast, andb_false_r.
  destruct (Nat.eqb_spec (List.length (split "/" topic))
                         (List.length (split "/" pattern))) as [Hlen | Hlen];
    simpl.
  - now apply match_levels_same_length.
  - split; [discriminate | ].
    intro HF. apply Forall2_length in HF. congruence.
Qed.

Lemma plain_pattern_matches_level_by_level_witness :
  topicMatches "homeassistant/sensor/apc_ups/load_watts/state"
               "homeassistant/sensor/apc_ups/+/state" = true.
Proof.
  apply (plain_pattern_matches_level_by_level
           "homeassistant/sensor/apc_ups/load_watts/state"
           "homeassistant/sensor/apc_ups/+/state").
  - vm_compute. discriminate.
  - change (split "/" "homeassistant/sensor/apc_ups/+/state")
      with ["homeassistant"; "sensor"; "apc_ups"; "+"; "state"].
    change (split "/" "homeassistant/sensor/apc_ups/load_watts/state")
      with ["homeassistant"; "sensor"; "apc_ups"; "load_watts"; "state"].
    apply Forall2_cons; [right; reflexivity | ].
    apply Forall2_cons; [right; reflexivity | ].
    apply Forall2_cons; [right; reflexivity | ].
    apply Forall2_cons; [left; reflexivity | ].
    apply Forall2_cons; [right; reflexivity | ].
    apply Forall2_nil.
Defined.

(** A level-by-level match is enough for any pattern, also one that ends in
    [#]. *)
Lemma level_by_level_match_suffices : forall topic pattern,
    Forall2 level_matches (split "/" pattern) (split "/" topic) ->
    topicMatches topic pattern = true.
Proof.
  intros topic pattern HF.
  destruct (String.eqb_spec (List.last (split "/" pattern) "") "#")
    as [Hlast | Hlast].
  - assert (Hne : split "/" pattern <> [])
      by (intro E; rewrite E in Hlast; discriminate Hlast).
    pose proof (app_removelast_last "" Hne) as Ep. rewrite Hlast in Ep.
    set (ps := List.removelast (split "/" pattern)) in *.
    rewrite (topicMatches_multilevel topic pattern ps Ep).
    rewrite Ep in HF.
    apply Forall2_app_inv_l in HF.
    destruct HF as [l1 [l2 [HF1 [_ ->]]]].
    rewrite (match_levels_prefix _ _ _ HF1), andb_true_r.
    apply negb_true_iff, Nat.ltb_ge.
    rewrite List.length_app, (Forall2_length HF1). lia.
  - now apply plain_levels_match_suffices.
Qed.

(** X2.  Every topic matches itself taken as a pattern. *)
Theorem topic_matches_itself : forall topic, topicMatches topic topic = true.
Proof.
  intro topic. apply level_by_level_match_suffices.
  apply Forall2_level_matches_refl.
Qed.

(** X3.  A topic that differs from the pattern only in a level where the
    pattern has [+] matches. *)
Theorem single_level_wildcard_matches_any_level :
  forall topic pattern before after level,
    split "/" pattern = before ++ "+" :: after ->
    split "/" topic = before ++ level :: after ->
    topicMatches topic pattern = true.
Proof.
  intros topic pattern before after level Hp Ht.
  apply level_by_level_match_suffices. rewrite Hp, Ht.
  apply Forall2_app; [apply Forall2_level_matches_refl | ].
  constructor; [now left | apply Forall2_level_matches_refl].
Qed.

Lemma single_level_wildcard_matches_any_level_witness :
  topicMatches "a/b/c" "a/+/c" = true.
Proof.
  apply (single_level_wildcard_matches_any_level
           "a/b/c" "a/+/c" ["a"] ["c"] "b"); reflexivity.
Defined.

End PlainPatterns.

(** ** A slash at the end *)

Section TrailingSlash.

Import Cxx MqttClient ClientSpec ClientSpec2.
Local Open Scope string_scope.

Lemma split_from_trailing_slash : forall s cur,
    cur ++ s <> "" -> ends_with_slash s = false ->
    split_from "/" cur (s ++ "/") = split_from "/" cur s.
Proof.
  induction s as [| c s IH]; intros cur Hne Hend.
  - simpl. destruct cur; [now contradiction Hne | reflexivity].
  - simpl. destruct (Ascii.eqb c "/") eqn:Ec.
    + f_equal. apply IH.
      * simpl. destruct s; [ | discriminate].
        simpl in Hend. rewrite Ec in Hend. discriminate.
      * destruct s; [reflexivity | exact Hend].
    + apply IH.
      * destruct cur; simpl; discriminate.
      * destruct s; [reflexivity | exact Hend].
Qed.

Lemma split_trailing_slash : forall s,
    s <> "" -> ends_with_slash s = false ->
    split "/" (s ++ "/") = split "/" s.
Proof. intros s Hne Hend. now apply split_from_trailing_slash. Qed.

(** X4.  The level splitter drops exactly one slash at the end of its
    input.  So a non-empty topic that does not itself end in a slash, and
    the same topic followed by one slash, are routed alike: they match the
    same patterns, they are matched as patterns by the same topics, and the
    collector reads the same device and field from them.  (A second slash
    at the end is not dropped: it closes an empty level.) *)
Theorem trailing_slash_is_ignored :
  forall topic,
    topic <> "" -> ends_with_slash topic = false ->
    (forall pattern,
        topicMatches (topic ++ "/") pattern = topicMatches topic pattern)
    /\ (forall other, topicMatches other (topic ++ "/") = topicMatches other topic)
    /\ CollectorService.parseTopic (topic ++ "/")
       = CollectorService.parseTopic topic.
Proof.
  intros topic Hne Hend.
  pose proof (split_trailing_slash topic Hne Hend) as Hs.
  repeat split; intros; unfold topicMatches, CollectorService.parseTopic;
    now rewrite Hs.
Qed.

Lemma trailing_slash_is_ignored_witness :
  topicMatches "a/b/" "a/b" = true
  /\ CollectorService.parseTopic "homeassistant/sensor/apc_ups/status/state/"
     = ("apc_ups", "status").
Proof.
  split.
  - destruct (trailing_slash_is_ignored "a/b") as [H _];
      [discriminate | reflexivity | ].
    change "a/b/" with ("a/b" ++ "/"). rewrite H. reflexivity.
  - destruct (trailing_slash_is_ignored
                "homeassistant/sensor/apc_ups/status/state") as [_ [_ H]];
      [discriminate | reflexivity | ].
    change "homeassistant/sensor/apc_ups/status/state/"
      with ("homeassistant/sensor/apc_ups/status/state" ++ "/").
    rewrite H. reflexivity.
Defined.

End TrailingSlash.

(* ================================================================== *)
(** * The operations of the client *)
(* ================================================================== *)

Section ClientOperations.

Import MqttClient ClientSpec ClientSpec2 StdMapSpec.
Local Open Scope state_scope.

Ltac unfold_client :=
  unfold subscribe, unsubscribe, publish, isConnected, onConnectionLost,
    try_lock, request_subscribe, transport, lock, unlock, emit, bind, get,
    modify, ret.

(** ** On a calm client *)

Lemma calm_set_trace : forall c evs, calm c -> calm (set_trace evs c).
Proof. intros [cl co cb tc f th h tr] evs H. exact H. Qed.

Lemma calm_set_message_callbacks_ : forall c m,
    calm c -> calm (set_message_callbacks_ m c).
Proof. intros [cl co cb tc f th h tr] m H. exact H. Qed.

Lemma subscribe_calm : forall c topic callback qos,
    calm c ->
    subscribe topic callback qos c
    = (true,
       set_message_callbacks_
         (StdMap.insert topic callback (message_callbacks_ c))
         (set_trace
            (trace c
             ++ [ Lock connection_mutex_; Unlock connection_mutex_;
                  Lock connection_mutex_; Unlock connection_mutex_;
                  Lock callbacks_mutex_; Store topic callback;
                  Unlock callbacks_mutex_;
                  NetSubscribe topic qos
                    (StdMap.insert topic callback (message_callbacks_ c)) ])
            c)).
Proof.
  intros [cl co cb tc f th h tr] topic callback qos [Hc [Hf Ht]].
  simpl in Hc, Hf, Ht. unfold_client. simpl. rewrite Hc. simpl.
  rewrite Hf. simpl.
  assert (Hcl : cl = true) by (destruct co, cl; simpl in Hc; congruence).
  subst cl. simpl. rewrite Ht. simpl.
  now rewrite <- !app_assoc.
Qed.

Lemma publish_calm : forall c topic payload qos retain,
    calm c ->
    publish topic payload qos retain c
    = (true,
       set_trace
         (trace c
          ++ [ Lock connection_mutex_; Unlock connection_mutex_;
               Lock connection_mutex_;
               NetPublish topic payload qos retain;
               Unlock connection_mutex_ ])
         c).
Proof.
  intros [cl co cb tc f th h tr] topic payload qos retain [Hc [Hf Ht]].
  simpl in Hc, Hf, Ht. unfold_client. simpl. rewrite Hc. simpl.
  rewrite Ht. simpl. now rewrite <- !app_assoc.
Qed.

(** ** The locks are given back *)

Lemma not_holding : forall h,
    ~ In callbacks_mutex_ h ->
    existsb (mutex_eqb callbacks_mutex_) h = false.
Proof.
  induction h as [| m h IH]; intro H; [reflexivity | ].
  simpl. destruct m; simpl.
  - apply IH. intro Hin. apply H. now right.
  - exfalso. apply H. now left.
Qed.

Lemma held_after_app : forall evs evs' h,
    held_after h (evs ++ evs') = held_after (held_after h evs) evs'.
Proof.
  induction evs as [| e evs IH]; intros evs' h; [reflexivity | ].
  destruct e; simpl; apply IH.
Qed.

Lemma relocks_app : forall evs evs' h,
    relocks h (evs ++ evs')
    = relocks h evs || relocks (held_after h evs) evs'.
Proof.
  induction evs as [| e evs IH]; intros evs' h; [reflexivity | ].
  destruct e; simpl; rewrite ?IH; try reflexivity.
  now rewrite orb_assoc.
Qed.

Lemma calls_do_not_lock : forall topic payload h0 callbacks h,
    relocks h (map (fun callback => Call callback topic payload h0) callbacks)
    = false
    /\ held_after h
         (map (fun callback => Call callback topic payload h0) callbacks)
       = h.
Proof.
  induction callbacks as [| cb cbs IH]; intro h; [now split | apply IH].
Qed.

Lemma steady_ret : forall {A : Type} (a : A), steady (ret a).
Proof.
  intros A a c _. exists []. unfold ret. simpl.
  rewrite app_nil_r. now repeat split.
Qed.

Lemma steady_bind : forall {A B : Type} (m : M A) (k : A -> M B),
    steady m -> (forall a, steady (k a)) -> steady (bind m k).
Proof.
  intros A B m k Hm Hk c Hc. unfold bind.
  destruct (Hm c Hc) as [evs [Et [Hr [Ha Hh]]]].
  destruct (m c) as [a c1]. simpl in *.
  destruct (Hk a c1) as [evs' [Et' [Hr' [Ha' Hh']]]]; [now rewrite Hh | ].
  exists (evs ++ evs'). rewrite Hh in *.
  split; [now rewrite Et', Et, app_assoc | ].
  split; [now rewrite relocks_app, Hr, Ha | ].
  split; [now rewrite held_after_app, Ha | exact Hh'].
Qed.

Ltac steady_case :=
  eexists; split;
  [ rewrite <- ?app_assoc; reflexivity
  | simpl; rewrite ?not_holding by assumption; now repeat split ].

Lemma isConnected_steady : steady isConnected.
Proof.
  intros [cl co cb tc f th h tr] Hh. simpl in Hh.
  unfold_client. simpl. steady_case.
Qed.

Lemma publish_steady : forall topic payload qos retain,
    steady (publish topic payload qos retain).
Proof.
  intros topic payload qos retain [cl co cb tc f th h tr] Hh. simpl in Hh.
  unfold_client. simpl. destruct (co && cl && tc); simpl; steady_case.
Qed.

Lemma subscribe_steady : forall topic callback qos,
    steady (subscribe topic callback qos).
Proof.
  intros topic callback qos [cl co cb tc f th h tr] Hh. simpl in Hh.
  unfold_client. simpl.
  destruct (co && cl && tc); simpl; [ | steady_case].
  destruct (f _); simpl; [steady_case | ].
  destruct cl; simpl; steady_case.
Qed.

Lemma unsubscribe_steady : forall topic, steady (unsubscribe topic).
Proof.
  intros topic [cl co cb tc f th h tr] Hh. simpl in Hh.
  unfold_client. simpl.
  destruct (co && cl && tc); simpl; [ | steady_case].
  destruct (th _); simpl; steady_case.
Qed.

Lemma onMessageArrived_steady : forall topic payload,
    steady (onMessageArrived topic payload).
Proof.
  intros topic payload c Hh.
  unfold onMessageArrived, lock, unlock, emit, bind, get, modify. simpl.
  match goal with
  | |- context [dispatch ?e ?t ?p ?c0] =>
      pose proof (dispatch_effect e t p c0) as H;
      destruct (dispatch e t p c0) as [u c1]
  end.
  simpl in H. subst c1. destruct c as [cl co cb tc f th h tr]. simpl in *.
  eexists. split; [rewrite <- !app_assoc; reflexivity | ].
  simpl. rewrite (not_holding h Hh). simpl.
  rewrite relocks_app, held_after_app.
  destruct (calls_do_not_lock topic payload (callbacks_mutex_ :: h)
              (matching topic cb) (callbacks_mutex_ :: h)) as [-> ->].
  simpl. now repeat split.
Qed.

Lemma onConnectionLost_steady : steady onConnectionLost.
Proof.
  intros [cl co cb tc f th h tr] Hh. simpl in Hh.
  unfold_client. simpl. steady_case.
Qed.

Lemma subscribeMultiple_from_steady : forall topics all_success callback qos,
    steady (subscribeMultiple_from all_success topics callback qos).
Proof.
  induction topics as [| topic topics IH]; intros all_success callback qos.
  - apply steady_ret.
  - simpl. apply steady_bind; [apply subscribe_steady | intro a; apply IH].
Qed.

Lemma publishAll_steady : forall writeString self,
    steady (DiscoveryPublisher.publishAll writeString self).
Proof.
  intros writeString self. unfold DiscoveryPublisher.publishAll. cbv zeta.
  repeat match goal with
         | |- steady (bind ?m ?k) =>
             apply (steady_bind m k); [ | intro ]
         | |- steady (DiscoveryPublisher.and_also _ _) =>
             unfold DiscoveryPublisher.and_also
         | |- steady (ret _) => apply steady_ret
         | |- steady (DiscoveryPublisher.publishSensorConfig _ _ _ _ _ _ _ _) =>
             apply publish_steady
         | |- steady (DiscoveryPublisher.publishBinarySensorConfig _ _ _ _ _ _) =>
             apply publish_steady
         end.
Qed.

(** X5.  Called by a thread that does not already hold [callbacks_mutex_],
    that is from anywhere but inside a handler, no operation of the client
    locks that mutex while holding it, and every operation gives back the
    locks it takes: the events of the call leave the thread with exactly
    the locks it held before, whatever the state of the connection and
    whatever the transport does.  The events are those of the operation
    itself; what a handler does when [onMessageArrived] calls it is not
    among them. *)
Theorem operations_return_with_locks_released :
  (forall topic payload qos retain, steady (publish topic payload qos retain))
  /\ (forall topic callback qos, steady (subscribe topic callback qos))
  /\ (forall topics callback qos, steady (subscribeMultiple topics callback qos))
  /\ (forall topic, steady (unsubscribe topic))
  /\ (forall topic payload, steady (onMessageArrived topic payload))
  /\ steady isConnected
  /\ steady onConnectionLost
  /\ (forall writeString self,
         steady (DiscoveryPublisher.publishAll writeString self)).
Proof.
  repeat apply conj.
  - apply publish_steady.
  - apply subscribe_steady.
  - intros. apply subscribeMultiple_from_steady.
  - apply unsubscribe_steady.
  - apply onMessageArrived_steady.
  - apply isConnected_steady.
  - apply onConnectionLost_steady.
  - apply publishAll_steady.
Qed.

Lemma operations_return_with_locks_released_witness :
  exists evs,
    trace (snd (subscribe "a/#" 7 1 (connected_client [])))
    = trace (connected_client []) ++ evs
    /\ relocks [] evs = false
    /\ held (snd (subscribe "a/#" 7 1 (connected_client []))) = [].
Proof.
  destruct operations_return_with_locks_released as [_ [Hsubscribe _]].
  destruct (Hsubscribe "a/#" 7 1%Z (connected_client []))
    as [evs [Et [Hr [_ Hh]]]].
  - simpl. tauto.
  - exists evs. split; [exact Et | split; [exact Hr | exact Hh]].
Defined.

(** ** [subscribe] when the request fails *)

(** X6.  When the client is connected and gets the connection lock,
    [subscribe] stores the handler whether or not the transport accepts the
    request: its result tells only whether the request was accepted, and a
    [false] leaves the handler registered. *)
Theorem subscribe_keeps_handler_when_request_fails :
  forall c topic callback qos,
    connected_ c && client_ c && transport_connected c = true ->
    try_lock_fails c (2 + List.length (trace c)) = false ->
    fst (subscribe topic callback qos c)
    = negb (transport_throws c (7 + List.length (trace c)))
    /\ StdMap.find topic
         (message_callbacks_ (snd (subscribe topic callback qos c)))
       = Some callback.
Proof.
  intros c topic callback qos Hc Hf. split.
  - destruct c as [cl co cb tc f th h tr]. simpl in *.
    unfold_client. simpl. rewrite Hc. simpl.
    rewrite !List.length_app. simpl.
    replace (List.length tr + 1 + 1) with (S (S (List.length tr))) by lia.
    rewrite Hf. simpl.
    assert (Hcl : cl = true) by (destruct co, cl; simpl in Hc; congruence).
    subst cl. simpl. rewrite !List.length_app. simpl.
    do 2 f_equal. lia.
  - rewrite subscribe_registry, Hc, Hf. apply find_insert.
Qed.

Lemma subscribe_keeps_handler_when_request_fails_witness :
  let c := mk true true [] true (fun _ => false) (fun _ => true) [] [] in
  fst (subscribe "a/#" 7 1 c) = false
  /\ StdMap.find "a/#" (message_callbacks_ (snd (subscribe "a/#" 7 1 c)))
     = Some 7.
Proof.
  intro c.
  apply (subscribe_keeps_handler_when_request_fails c "a/#" 7 1%Z);
    reflexivity.
Defined.

(** ** [unsubscribe] *)

Lemma unsubscribe_registry : forall c topic,
    message_callbacks_ (snd (unsubscribe topic c))
    = if connected_ c && client_ c && transport_connected c then
        if transport_throws c (3 + List.length (trace c))
        then message_callbacks_ c
        else StdMap.erase topic (message_callbacks_ c)
      else message_callbacks_ c.
Proof.
  intros [cl co cb tc f th h tr] topic. unfold_client. simpl.
  destruct (co && cl && tc); simpl; [ | reflexivity].
  rewrite !List.length_app. simpl.
  replace (List.length tr + 1 + 1 + 1) with (S (S (S (List.length tr)))) by lia.
  now destruct (th _).
Qed.

Lemma unsubscribe_result : forall c topic,
    fst (unsubscribe topic c)
    = connected_ c && client_ c && transport_connected c
      && negb (transport_throws c (3 + List.length (trace c))).
Proof.
  intros [cl co cb tc f th h tr] topic. unfold_client. simpl.
  destruct (co && cl && tc); simpl; [ | reflexivity].
  rewrite !List.length_app. simpl.
  replace (List.length tr + 1 + 1 + 1) with (S (S (S (List.length tr)))) by lia.
  now destruct (th _).
Qed.

(** X7.  [unsubscribe] answers [true] exactly when it has erased the
    pattern: then the pattern has no handler any more and every other
    pattern keeps its own.  When it answers [false] (not connected, or the
    transport refused the request) the registry is as before. *)
Theorem unsubscribe_erases_exactly_on_success :
  forall c topic,
    ascending (message_callbacks_ c) ->
    let c' := snd (unsubscribe topic c) in
    (fst (unsubscribe topic c) = true ->
     StdMap.find topic (message_callbacks_ c') = None
     /\ forall other, other <> topic ->
          StdMap.find other (message_callbacks_ c')
          = StdMap.find other (message_callbacks_ c))
    /\ (fst (unsubscribe topic c) = false ->
        message_callbacks_ c' = message_callbacks_ c).
Proof.
  intros c topic Hasc c'. subst c'.
  rewrite unsubscribe_result, unsubscribe_registry.
  destruct (connected_ c && client_ c && transport_connected c); simpl;
    [ | split; [discriminate | reflexivity]].
  destruct (transport_throws c _); simpl;
    [split; [discriminate | reflexivity] | ].
  split; [ | discriminate]. intros _. split.
  - now apply find_erase.
  - intros other Hne. now apply find_erase_other.
Qed.

Lemma unsubscribe_erases_exactly_on_success_witness :
  let c := connected_client [("a/#", 2); ("a/+/c", 1)] in
  StdMap.find "a/#" (message_callbacks_ (snd (unsubscribe "a/#" c))) = None
  /\ StdMap.find "a/+/c" (message_callbacks_ (snd (unsubscribe "a/#" c)))
     = Some 1.
Proof.
  intro c.
  assert (Hasc : ascending (message_callbacks_ c))
    by (simpl; repeat split; reflexivity).
  destruct (unsubscribe_erases_exactly_on_success c "a/#" Hasc) as [Hok _].
  destruct (Hok eq_refl) as [Hgone Hkept].
  split; [exact Hgone | ].
  rewrite Hkept; [reflexivity | discriminate].
Defined.

(** The registry stays in key order. *)
Lemma registry_stays_ascending : forall c,
    ascending (message_callbacks_ c) ->
    (forall topic callback qos,
        ascending (message_callbacks_ (snd (subscribe topic callback qos c))))
    /\ (forall topic, ascending (message_callbacks_ (snd (unsubscribe topic c)))).
Proof.
  intros c H. split; intros.
  - rewrite subscribe_registry.
    destruct (_ && _); [ | exact H].
    destruct (try_lock_fails _ _); [exact H | now apply insert_ascending].
  - rewrite unsubscribe_registry.
    destruct (_ && _); [ | exact H].
    destruct (transport_throws _ _); [exact H | now apply erase_ascending].
Qed.

(** ** Subscribing twice *)

(** X8.  On a calm client a second [subscribe] for the same pattern replaces
    the handler of the first: the registry after the two calls is the one
    the second call alone would have produced. *)
Theorem second_subscription_replaces_the_first :
  forall c pattern old_callback new_callback qos1 qos2,
    calm c ->
    message_callbacks_
      (snd (subscribe pattern new_callback qos2
              (snd (subscribe pattern old_callback qos1 c))))
    = message_callbacks_ (snd (subscribe pattern new_callback qos2 c)).
Proof.
  intros c pattern cb1 cb2 q1 q2 Hc.
  rewrite (subscribe_calm c pattern cb1 q1 Hc). simpl snd.
  rewrite subscribe_calm
    by (apply calm_set_message_callbacks_, calm_set_trace, Hc).
  rewrite (subscribe_calm c pattern cb2 q2 Hc).
  destruct c. simpl. apply insert_insert.
Qed.

Lemma second_subscription_replaces_the_first_witness :
  let c := connected_client [] in
  calls (events_of (onMessageArrived "a/b" "on")
           (snd (subscribe "a/#" 2 1 (snd (subscribe "a/#" 1 1 c)))))
  = [(2, [callbacks_mutex_])].
Proof.
  intro c.
  assert (Hc : calm c) by (repeat split).
  pose proof (second_subscription_replaces_the_first c "a/#" 1 2 1%Z 1%Z Hc)
    as H.
  rewrite dispatch_enters_all_matching_handlers_under_lock, H.
  reflexivity.
Defined.

(** ** After the connection is lost *)

Lemma lock_events_publish_nothing : forall evs,
    forallb is_lock_event evs = true ->
    published evs = [] /\ requested evs = [].
Proof.
  induction evs as [| e evs IH]; intro H; [now split | ].
  simpl in H. apply andb_prop in H. destruct H as [He Hevs].
  destruct e; simpl in *; try discriminate; now apply IH.
Qed.

Lemma only_locked_events : forall {A : Type} (m : M A) c,
    only_locked c (snd (m c)) ->
    published (events_of m c) = []
    /\ requested (events_of m c) = []
    /\ message_callbacks_ (snd (m c)) = message_callbacks_ c.
Proof.
  intros A m c [evs [E Hlock]].
  assert (Ht : trace (snd (m c)) = trace c ++ evs)
    by (rewrite E; now destruct c).
  rewrite (events_of_appended m c evs Ht).
  destruct (lock_events_publish_nothing evs Hlock) as [Hp Hr].
  repeat split; [exact Hp | exact Hr | ].
  rewrite E. now destruct c.
Qed.

Lemma onConnectionLost_disconnects : forall c,
    disconnected (snd (onConnectionLost c))
    /\ message_callbacks_ (snd (onConnectionLost c)) = message_callbacks_ c.
Proof. intros [cl co cb tc f th h tr]. now split. Qed.

(** X9.  Once [onConnectionLost] has run, the client is disconnected: a
    [publish] or [subscribe] that follows answers [false], sends nothing and
    registers nothing, until the session is set up again. *)
Theorem calls_after_connection_loss_fail : forall c,
    let c' := snd (onConnectionLost c) in
    (forall topic payload qos retain,
        fst (publish topic payload qos retain c') = false
        /\ published (events_of (publish topic payload qos retain) c') = [])
    /\ (forall topic callback qos,
           fst (subscribe topic callback qos c') = false
           /\ requested (events_of (subscribe topic callback qos) c') = []
           /\ message_callbacks_ (snd (subscribe topic callback qos c'))
              = message_callbacks_ c).
Proof.
  intros c c'.
  destruct (onConnectionLost_disconnects c) as [Hd Hm]. fold c' in Hd, Hm.
  split.
  - intros topic payload qos retain.
    destruct (publish_fails_fast topic payload qos retain c' Hd) as [Hr Hl].
    split; [exact Hr | ]. now apply only_locked_events.
  - intros topic callback qos.
    destruct (subscribe_fails_fast topic callback qos c' Hd) as [Hr Hl].
    split; [exact Hr | ].
    destruct (only_locked_events _ _ Hl) as [_ [Hq Hreg]].
    split; [exact Hq | ]. now rewrite Hreg.
Qed.

End ClientOperations.

(* ================================================================== *)
(** * What is sent on a calm client *)
(* ================================================================== *)

Section Sending.

Import MqttClient ClientSpec ClientSpec2 PublishSpec.
Import DiscoveryPublisher DiscoveryRemoval.
Local Open Scope state_scope.

Lemma published_app : forall evs evs',
    published (evs ++ evs') = published evs ++ published evs'.
Proof.
  induction evs as [| e evs IH]; intro evs'; [reflexivity | ].
  destruct e; simpl; now rewrite IH.
Qed.

Lemma set_trace_twice : forall c evs evs',
    set_trace (trace (set_trace (trace c ++ evs) c) ++ evs')
      (set_trace (trace c ++ evs) c)
    = set_trace (trace c ++ evs ++ evs') c.
Proof. intros [cl co cb tc f th h tr] evs evs'. simpl. unfold set_trace. simpl.
       now rewrite app_assoc. Qed.

Lemma sends_ret : forall {A : Type} (a : A), sends (ret a) a [].
Proof.
  intros A a c _. exists []. split; [ | reflexivity].
  unfold ret. rewrite app_nil_r. now destruct c.
Qed.

Lemma sends_bind : forall {A B : Type} (m : M A) (k : A -> M B) a b ms ms',
    sends m a ms -> sends (k a) b ms' -> sends (bind m k) b (ms ++ ms').
Proof.
  intros A B m k a b ms ms' Hm Hk c Hc.
  destruct (Hm c Hc) as [evs [Em Hms]].
  destruct (Hk _ (calm_set_trace c (trace c ++ evs) Hc)) as [evs' [Ek Hms']].
  exists (evs ++ evs'). split.
  - unfold bind. rewrite Em, Ek. now rewrite set_trace_twice.
  - now rewrite published_app, Hms, Hms'.
Qed.

Lemma sends_publish : forall topic payload qos retain,
    sends (publish topic payload qos retain) true
          [(topic, payload, qos, retain)].
Proof.
  intros topic payload qos retain c Hc. eexists. split.
  - apply publish_calm. exact Hc.
  - reflexivity.
Qed.

Lemma sends_and_also : forall all_success call ms,
    sends call true ms -> sends (and_also all_success call) all_success ms.
Proof.
  intros all_success call ms H. unfold and_also.
  rewrite <- (app_nil_r ms).
  apply (sends_bind call _ true); [exact H | ].
  rewrite andb_true_r. apply sends_ret.
Qed.

Lemma sends_events : forall {A : Type} (m : M A) r ms c,
    sends m r ms -> calm c ->
    fst (m c) = r /\ published (events_of m c) = ms /\ calm (snd (m c)).
Proof.
  intros A m r ms c H Hc. destruct (H c Hc) as [evs [E Hms]].
  rewrite E. simpl. split; [reflexivity | split].
  - rewrite <- Hms. f_equal. apply events_of_appended. now rewrite E.
  - now apply calm_set_trace.
Qed.


(** ** Discovery and removal *)

Ltac send_all :=
  repeat match goal with
         | |- sends (bind (ret ?a) ?k) _ _ =>
             eapply (sends_bind (ret a) k a); [apply sends_ret | cbv beta]
         | |- sends (bind (and_also ?a ?call) ?k) _ _ =>
             eapply (sends_bind (and_also a call) k a);
             [ apply sends_and_also; apply sends_publish | cbv beta ]
         | |- sends (ret _) _ _ => apply sends_ret
         end.

Lemma publishAll_sends : forall writeString self,
    exists messages,
      sends (publishAll writeString self) true messages
      /\ map topic_of messages
         = map (config_topic (device_id_ self) "sensor") (firstn 15 sensor_ids)
           ++ [config_topic (device_id_ self) "binary_sensor" "power_failure"]
           ++ map (config_topic (device_id_ self) "sensor")
                  (skipn 15 sensor_ids)
      /\ Forall (fun m => snd (fst m) = 1%Z /\ snd m = true) messages.
Proof.
  intros writeString self. eexists. split; [ | split].
  - unfold publishAll. cbv zeta.
    unfold publishSensorConfig, publishBinarySensorConfig. cbv zeta.
    send_all.
  - reflexivity.
  - repeat (apply Forall_cons; [split; reflexivity | ]). apply Forall_nil.
Qed.

Lemma remove_sensors_sends : forall self ids all_success,
    sends (remove_sensors self all_success ids) all_success
          (map (fun sensor_id =>
                  (config_topic (device_id_ self) "sensor" sensor_id,
                   "", 1%Z, true)) ids).
Proof.
  intros self ids. induction ids as [| id ids IH]; intro all_success.
  - apply sends_ret.
  - simpl remove_sensors.
    apply (sends_bind (and_also all_success _) _ all_success _ [_]).
    + apply sends_and_also. apply sends_publish.
    + apply IH.
Qed.

Lemma removeDevice_sends : forall self,
    sends (removeDevice self) true
          (map (fun sensor_id =>
                  (config_topic (device_id_ self) "sensor" sensor_id,
                   "", 1%Z, true)) sensor_ids
           ++ [(config_topic (device_id_ self) "binary_sensor" "power_failure",
                "", 1%Z, true)]).
Proof.
  intro self. unfold removeDevice.
  apply (sends_bind (remove_sensors self true sensor_ids) _ true).
  - apply remove_sensors_sends.
  - cbv zeta. rewrite <- (app_nil_r [_]).
    apply (sends_bind (and_also true _) _ true).
    + apply sends_and_also. apply sends_publish.
    + apply sends_ret.
Qed.

(** ** Discovery and the state messages *)

Lemma In_add_if : forall {A : Type} base (member : option A) sensor text
                         messages m,
    In m (UpsMessages.add_if base member sensor text messages) ->
    In m messages
    \/ exists v, member = Some v
                 /\ m = MqttMessage.mk (base ++ "/" ++ sensor ++ "/state")
                          (text v) 1 false.
Proof.
  intros A base member sensor text messages m H.
  destruct member as [v | ]; [ | now left]. simpl in H.
  unfold UpsMessages.addMessage in H. apply in_app_or in H.
  destruct H as [H | [<- | []]].
  - now left.
  - right. now exists v.
Qed.

Lemma substring_all : forall s, substring 0 (String.length s) s = s.
Proof. induction s as [| a s IH]; [reflexivity | simpl; now rewrite IH]. Qed.

Lemma substring_front : forall s t,
    substring 0 (String.length s) (s ++ t)%string = s.
Proof.
  induction s as [| a s IH]; intro t; simpl.
  - now destruct t.
  - now rewrite IH.
Qed.

Lemma substring_middle : forall p s t,
    substring (String.length p) (String.length s) (p ++ s ++ t)%string = s.
Proof.
  induction p as [| a p IH]; intros s t; simpl.
  - apply substring_front.
  - apply IH.
Qed.

Lemma length_append : forall s t,
    String.length (s ++ t)%string = String.length s + String.length t.
Proof. induction s as [| a s IH]; intro t; simpl; [ | rewrite IH]; reflexivity. Qed.

(** The sensor name is read back from the topic of a state message. *)
Lemma sensor_of_state_message : forall device_id sensor value qos retain,
    sensor_of device_id
      (MqttMessage.mk
         (("homeassistant/sensor/" ++ device_id) ++ "/" ++ sensor ++ "/state")
         value qos retain)
    = sensor.
Proof.
  intros device_id sensor value qos retain. unfold sensor_of.
  cbv zeta. unfold MqttMessage.topic.
  replace (("homeassistant/sensor/" ++ device_id) ++ "/" ++ sensor ++ "/state")%string
    with (("homeassistant/sensor/" ++ device_id ++ "/") ++ sensor ++ "/state")%string
    by (now rewrite !append_assoc).
  set (prefix := ("homeassistant/sensor/" ++ device_id ++ "/")%string).
  replace (String.length (prefix ++ sensor ++ "/state")%string
           - String.length prefix - 6)
    with (String.length sensor).
  - apply substring_middle.
  - rewrite !length_append. simpl. lia.
Qed.

Lemma config_of_addMessage : forall device_id sensor value messages,
    map (config_of device_id)
        (UpsMessages.addMessage ("homeassistant/sensor/" ++ device_id)%string
           sensor value messages)
    = map (config_of device_id) messages
      ++ [config_topic device_id (kind_of sensor) sensor].
Proof.
  intros device_id sensor value messages. unfold UpsMessages.addMessage.
  rewrite map_app. f_equal. cbn [map]. unfold config_of.
  now rewrite sensor_of_state_message.
Qed.

(** X10.  Discovery announces what is reported.  On a calm client
    [publishAll] answers [true] and publishes its configs retained and with
    QoS 1.  Every state message that [toMqttMessages] makes of a snapshot
    of the publisher's device has the topic
    [homeassistant/sensor/<device>/<sensor>/state], and the config topic of
    that sensor is among the announced ones: a binary sensor for the power
    failure flag, a sensor for all others.  For a snapshot with a value in
    every published member the announced config topics are those of its
    state messages, one for one and in the same order, so nothing else is
    announced. *)
Theorem discovery_announces_the_reported_sensors :
  forall to_string_double writeString self c d,
    calm c ->
    UpsData.device_id d = device_id_ self ->
    let announced :=
      published (events_of (publishAll writeString self) c) in
    let reported := UpsMessages.toMqttMessages to_string_double d in
    fst (publishAll writeString self c) = true
    /\ Forall (fun m => snd (fst m) = 1%Z /\ snd m = true) announced
    /\ (forall m,
           In m reported ->
           MqttMessage.topic m
           = CollectorSpec.state_topic (device_id_ self)
               (sensor_of (device_id_ self) m)
           /\ In (config_of (device_id_ self) m) (map topic_of announced))
    /\ (reports_all d = true ->
        map topic_of announced = map (config_of (device_id_ self)) reported).
Proof.
  intros to_string_double writeString self c d Hc Hid announced reported.
  destruct (publishAll_sends writeString self) as [ms [Hsends [Htopics Hall]]].
  destruct (sends_events _ _ _ c Hsends Hc) as [Hr [Hannounced _]].
  subst announced reported. rewrite Hannounced, Htopics.
  split; [exact Hr | split; [exact Hall | split]].
  - intros m H. unfold UpsMessages.toMqttMessages in H. cbv zeta in H.
    rewrite Hid in H.
    repeat (apply In_add_if in H; destruct H as [H | [v [_ ->]]]);
      [ contradiction H | .. ].
    all: unfold config_of; rewrite sensor_of_state_message.
    all: split;
      [ unfold MqttMessage.topic, CollectorSpec.state_topic;
        now rewrite !append_assoc
      | simpl; repeat (first [left; reflexivity | right]) ].
  - intro Hfull. unfold reports_all in Hfull. cbv zeta beta iota in Hfull.
    repeat (apply andb_prop in Hfull; destruct Hfull as [Hfull ?]).
    unfold UpsMessages.toMqttMessages. cbv zeta. rewrite Hid.
    repeat match goal with
           | H : holds ?member = true |- _ =>
               destruct member; [clear H | discriminate H]
           end.
    unfold UpsMessages.add_if. rewrite !config_of_addMessage. reflexivity.
Qed.

Lemma discovery_announces_the_reported_sensors_witness :
  let announced :=
    published
      (events_of (publishAll (fun _ => "{}") apc_ups) (connected_client [])) in
  let reported := UpsMessages.toMqttMessages (fun _ => "0.000000") full_snapshot in
  List.length reported = 26
  /\ In "homeassistant/binary_sensor/apc_ups/power_failure/config"
        (map (config_of "apc_ups") reported)
  /\ map topic_of announced = map (config_of "apc_ups") reported.
Proof.
  intros announced reported.
  assert (Hcalm : calm (connected_client [])).
  { split; [reflexivity | split; intro n; reflexivity]. }
  destruct (discovery_announces_the_reported_sensors (fun _ => "0.000000")
              (fun _ => "{}") apc_ups (connected_client []) full_snapshot
              Hcalm eq_refl) as [_ [_ [_ Hsame]]].
  split; [reflexivity | split].
  - vm_compute. do 15 right. left. reflexivity.
  - apply Hsame. reflexivity.
Defined.

(** X11.  Removal undoes discovery: on a calm client [removeDevice] answers
    [true] and sends an empty retained message, with QoS 1, to exactly the
    config topics that [publishAll] writes, the one of the binary sensor
    included, and to each of them once. *)
Theorem removal_clears_what_discovery_announced :
  forall writeString self c,
    calm c ->
    let removed := published (events_of (removeDevice self) c) in
    let announced :=
      published (events_of (publishAll writeString self) c) in
    fst (removeDevice self c) = true
    /\ (forall topic,
           In topic (map topic_of removed) <-> In topic (map topic_of announced))
    /\ List.length removed = List.length announced
    /\ (forall m, In m removed -> m = (topic_of m, "", 1%Z, true)).
Proof.
  intros writeString self c Hc removed announced.
  destruct (sends_events _ _ _ c (removeDevice_sends self) Hc)
    as [Hr [Hremoved _]].
  destruct (publishAll_sends writeString self) as [ms [Hsends [Htopics _]]].
  destruct (sends_events _ _ _ c Hsends Hc) as [_ [Hannounced _]].
  subst removed announced. rewrite Hremoved, Hannounced.
  split; [exact Hr | split; [ | split]].
  - intro topic. rewrite Htopics. rewrite map_app, map_map. simpl.
    tauto.
  - rewrite <- (length_map topic_of ms), Htopics. reflexivity.
  - intros m Hm. simpl in Hm.
    repeat (destruct Hm as [<- | Hm]; [reflexivity | ]). contradiction.
Qed.

Lemma removal_clears_what_discovery_announced_witness :
  fst (removeDevice apc_ups (connected_client [])) = true
  /\ List.length
       (published (events_of (removeDevice apc_ups) (connected_client [])))
     = List.length
         (published
            (events_of (publishAll (fun _ => "{}") apc_ups)
                       (connected_client []))).
Proof.
  assert (Hcalm : calm (connected_client [])).
  { split; [reflexivity | split; intro n; reflexivity]. }
  destruct (removal_clears_what_discovery_announced (fun _ => "{}") apc_ups
              (connected_client []) Hcalm) as [Hr [_ [Hlen _]]].
  split; [exact Hr | exact Hlen].
Defined.

End Sending.

(* ================================================================== *)
(** * The subscriptions of the collector *)
(* ================================================================== *)

Section Subscriptions.

Import Cxx MqttClient ClientSpec ClientSpec2 CollectorSubscriptions.
Import CollectorSpec.
Local Open Scope state_scope.

Lemma requested_app : forall evs evs',
    requested (evs ++ evs') = requested evs ++ requested evs'.
Proof.
  induction evs as [| e evs IH]; intro evs'; [reflexivity | ].
  destruct e; simpl; now rewrite IH.
Qed.

(** On a calm client [subscribeMultiple] registers the handler for every
    topic and requests each of them, in order. *)
Lemma subscribeMultiple_from_calm : forall topics all_success callback qos c,
    calm c ->
    exists evs registry,
      subscribeMultiple_from all_success topics callback qos c
      = (all_success,
         set_message_callbacks_ registry (set_trace (trace c ++ evs) c))
      /\ requested evs = topics
      /\ (forall topic, In topic topics ->
                        StdMap.find topic registry = Some callback)
      /\ (forall topic, StdMap.find topic (message_callbacks_ c) = Some callback ->
                        StdMap.find topic registry = Some callback).
Proof.
  induction topics as [| topic topics IH]; intros all_success callback qos c Hc.
  - exists [], (message_callbacks_ c). simpl. unfold ret.
    rewrite app_nil_r. repeat split; try tauto. now destruct c.
  - simpl. unfold bind. rewrite (subscribe_calm c topic callback qos Hc).
    match goal with
    | |- context [subscribeMultiple_from _ topics callback qos ?c1] =>
        destruct (IH all_success callback qos c1) as [evs [reg [E [Hreq [Hin Hold]]]]];
        [now apply calm_set_message_callbacks_, calm_set_trace | ]
    end.
    rewrite E.
    exists ([ Lock connection_mutex_; Unlock connection_mutex_;
              Lock connection_mutex_; Unlock connection_mutex_;
              Lock callbacks_mutex_; Store topic callback;
              Unlock callbacks_mutex_;
              NetSubscribe topic qos
                (StdMap.insert topic callback (message_callbacks_ c)) ]
            ++ evs), reg.
    split; [ | split; [ | split]].
    + destruct c. simpl. unfold set_message_callbacks_, set_trace. simpl.
      now rewrite <- app_assoc.
    + rewrite requested_app, Hreq. reflexivity.
    + intros t [<- | Ht]; [ | now apply Hin].
      apply Hold. destruct c. simpl. apply find_insert.
    + intros t Ht. apply Hold. destruct c. simpl in *.
      destruct (String.eqb_spec t topic) as [-> | Hne];
        [apply find_insert | now rewrite find_insert_other].
Qed.

Lemma state_topic_matches_pattern : forall device_id sensor_name,
    no_slash device_id = true -> no_slash sensor_name = true ->
    topicMatches (state_topic device_id sensor_name) (pattern_of device_id)
    = true.
Proof.
  intros device_id sensor_name Hd Hs.
  apply level_by_level_match_suffices.
  change (pattern_of device_id) with (state_topic device_id "+").
  rewrite !split_state_topic by (assumption || reflexivity).
  repeat (apply Forall2_cons; [first [left; reflexivity | right; reflexivity] | ]).
  apply Forall2_nil.
Qed.

(** X12.  After [setupSubscriptions] on a calm client, one subscribe request
    has gone out for each configured device, and every state message of a
    configured device, whatever the sensor, enters the collector's handler. *)
Theorem state_messages_of_configured_devices_reach_the_handler :
  forall device_ids callback c device_id sensor_name payload,
    calm c ->
    In device_id device_ids ->
    no_slash device_id = true -> no_slash sensor_name = true ->
    let c' := snd (setupSubscriptions device_ids callback c) in
    requested (events_of (setupSubscriptions device_ids callback) c)
    = map pattern_of device_ids
    /\ In (callback, callbacks_mutex_ :: held c)
          (calls (events_of
                    (onMessageArrived (state_topic device_id sensor_name) payload)
                    c')).
Proof.
  intros device_ids callback c device_id sensor_name payload Hc Hin Hd Hs c'.
  destruct (subscribeMultiple_from_calm (map pattern_of device_ids) true
              callback 1%Z c Hc) as [evs [reg [E [Hreq [Hreg _]]]]].
  assert (Ec' : c' = set_message_callbacks_ reg (set_trace (trace c ++ evs) c)).
  { subst c'. unfold setupSubscriptions, subscribeMultiple, bind. now rewrite E. }
  split.
  - rewrite <- Hreq. f_equal. apply events_of_appended.
    fold c'. rewrite Ec'. now destruct c.
  - rewrite dispatch_enters_all_matching_handlers_under_lock.
    replace (held c) with (held c') by (rewrite Ec'; now destruct c).
    apply (in_map (fun cb => (cb, callbacks_mutex_ :: held c'))).
    unfold matching. apply (in_map snd _ (pattern_of device_id, callback)).
    apply filter_In. split.
    + apply find_In. rewrite Ec'.
      replace (message_callbacks_ _) with reg by now destruct c.
      apply Hreg. now apply in_map.
    + now apply state_topic_matches_pattern.
Qed.

Lemma state_messages_of_configured_devices_reach_the_handler_witness :
  In (7, [callbacks_mutex_])
     (calls (events_of
               (onMessageArrived (state_topic "apc_ups" "ups_status") "OL")
               (snd (setupSubscriptions ["apc_ups"; "apc_bx"] 7
                       (connected_client []))))).
Proof.
  assert (Hcalm : calm (connected_client [])).
  { split; [reflexivity | split; intro n; reflexivity]. }
  destruct (state_messages_of_configured_devices_reach_the_handler
              ["apc_ups"; "apc_bx"] 7 (connected_client [])
              "apc_ups" "ups_status" "OL" Hcalm) as [_ Hcall].
  - simpl. left. reflexivity.
  - reflexivity.
  - reflexivity.
  - exact Hcall.
Defined.

End Subscriptions.

(* ================================================================== *)
(** * Rounds, flushes and messages of the collector *)
(* ================================================================== *)

Section CollectorRounds.

Import CollectorService CollectorSpec CollectorSpec2 StdMapSpec.
Local Open Scope state_scope.

(** ** What a save does *)

Lemma saveDeviceData_cases : forall id s,
    match StdMap.find id (device_data_ s) with
    | Some data =>
        if UpsData.isValid data then
          if db_succeeds s (List.length (db_calls s)) then
            saveDeviceData id s
            = (true,
               set_last_save_time_ (clock s (S (clock_reads s)))
                 (set_clock_reads (S (S (clock_reads s)))
                    (set_last_save_times_
                       (StdMap.insert id (clock s (clock_reads s))
                          (last_save_times_ s))
                       (set_clock_reads (S (clock_reads s))
                          (set_db_calls (db_calls s ++ [(data, id)])
                             (set_save_calls (save_calls s ++ [id]) s))))))
          else
            saveDeviceData id s
            = (false,
               set_db_calls (db_calls s ++ [(data, id)])
                 (set_save_calls (save_calls s ++ [id]) s))
        else
          saveDeviceData id s
          = (false, set_save_calls (save_calls s ++ [id]) s)
    | None =>
        saveDeviceData id s = (false, set_save_calls (save_calls s ++ [id]) s)
    end.
Proof.
  intros id s. unfold saveDeviceData, insertUpsMetrics, now, bind, modify, get, ret.
  simpl.
  destruct (StdMap.find id (device_data_ s)) as [data | ]; [ | reflexivity].
  destruct (UpsData.isValid data); simpl; [ | reflexivity].
  destruct (db_succeeds s (List.length (db_calls s))); reflexivity.
Qed.

(** X13.  When [saveDeviceData] answers [true], the record was buffered and
    complete and was handed to the sink, and the save time of the device
    becomes the reading of the clock.  When it answers [false] (no record,
    incomplete record, sink failure) no save time changes, so the device is
    due again at the next round; and the sink is called at most once. *)
Theorem save_time_moves_only_on_success :
  forall id s,
    let s' := run (saveDeviceData id) s in
    (result (saveDeviceData id) s = true ->
     (exists data,
         StdMap.find id (device_data_ s) = Some data
         /\ UpsData.isValid data = true
         /\ db_calls s' = db_calls s ++ [(data, id)])
     /\ StdMap.find id (last_save_times_ s') = Some (clock s (clock_reads s))
     /\ last_save_time_ s' = clock s (S (clock_reads s)))
    /\ (result (saveDeviceData id) s = false ->
        last_save_times_ s' = last_save_times_ s
        /\ last_save_time_ s' = last_save_time_ s
        /\ clock_reads s' = clock_reads s)
    /\ List.length (db_calls s') <= S (List.length (db_calls s)).
Proof.
  intros id s s'. subst s'. unfold run, result.
  pose proof (saveDeviceData_cases id s) as H.
  destruct (StdMap.find id (device_data_ s)) as [data | ] eqn:Ef.
  - destruct (UpsData.isValid data) eqn:Ev.
    + destruct (db_succeeds s (List.length (db_calls s))); rewrite H; simpl.
      * split; [ | split; [discriminate | rewrite List.length_app; simpl; lia]].
        intros _. split; [exists data; now repeat split | ].
        split; [apply find_insert | reflexivity].
      * split; [discriminate | ].
        split; [now repeat split | rewrite List.length_app; simpl; lia].
    + rewrite H. simpl. split; [discriminate | ].
      split; [now repeat split | lia].
  - rewrite H. simpl. split; [discriminate | ].
    split; [now repeat split | lia].
Qed.

Lemma save_time_moves_only_on_success_witness :
  result (saveDeviceData "d1") refusing = false
  /\ last_save_times_ (run (saveDeviceData "d1") refusing)
     = last_save_times_ refusing
  /\ List.length (db_calls (run (saveDeviceData "d1") refusing)) = 1.
Proof.
  destruct (save_time_moves_only_on_success "d1" refusing) as [_ [Hfail _]].
  destruct (Hfail eq_refl) as [Htimes _].
  split; [reflexivity | split; [exact Htimes | reflexivity]].
Defined.

(** ** What a round saves *)

Lemma check_device_save_calls : forall now_ id s,
    save_calls (run (check_device now_ id) s)
    = save_calls s ++ (if due s now_ id then [id] else []).
Proof.
  intros now_ id s. rewrite check_device_eq. unfold due.
  pose proof (saveDeviceData_effect id s) as [_ [_ [Hs _]]].
  destruct (StdMap.find id (last_save_times_ s)) as [last_save | ];
    [destruct (_ <=? _)%Z | ]; try exact Hs.
  now rewrite app_nil_r.
Qed.

Lemma check_device_due_others : forall now_ a id s,
    id <> a -> due (run (check_device now_ a) s) now_ id = due s now_ id.
Proof.
  intros now_ a id s Hne. unfold due. rewrite check_device_eq.
  pose proof (saveDeviceData_effect a s) as [_ [Hi [_ [_ Hl]]]].
  assert (Hsave :
            StdMap.find id (last_save_times_ (run (saveDeviceData a) s))
            = StdMap.find id (last_save_times_ s)).
  { destruct Hl as [-> | [saved ->]]; [reflexivity | ].
    now apply find_insert_other. }
  destruct (StdMap.find a (last_save_times_ s)) as [last_save | ];
    [destruct (_ <=? _)%Z | ]; try now rewrite Hsave, Hi.
  reflexivity.
Qed.

Lemma for_each_save_calls : forall now_ ids s,
    NoDup ids ->
    save_calls (run (for_each (check_device now_) ids) s)
    = save_calls s ++ filter (due s now_) ids.
Proof.
  intros now_ ids. induction ids as [| a ids IH]; intros s Hnd.
  - simpl. now rewrite app_nil_r.
  - rewrite run_for_each_cons. inversion Hnd as [| ? ? Hnotin Hnd']; subst.
    rewrite (IH _ Hnd'), check_device_save_calls, <- app_assoc. f_equal.
    simpl.
    replace (filter (due (run (check_device now_ a) s) now_) ids)
      with (filter (due s now_) ids).
    + now destruct (due s now_ a).
    + apply filter_ext_in. intros id Hin. symmetry.
      apply check_device_due_others. intros ->. contradiction.
Qed.

(** X14.  A round of the saver loop tests every device against one and the
    same reading of the clock, the one it takes when it starts, and calls
    [saveDeviceData] for exactly the buffered devices that are due on that
    reading (no save time, or a save time at least the interval ago), each
    once, in the order of their keys.  (The saves themselves read the clock
    again; those readings decide nothing in the round.) *)
Theorem round_saves_exactly_the_due_devices :
  forall s,
    ascending (device_data_ s) ->
    save_calls (run scheduledSaveLoop_round s)
    = save_calls s
      ++ filter (due s (clock s (clock_reads s)))
                (StdMap.keys (device_data_ s)).
Proof.
  intros s Hasc. rewrite round_eq.
  rewrite for_each_save_calls by now apply ascending_NoDup.
  reflexivity.
Qed.

Lemma round_saves_exactly_the_due_devices_witness :
  save_calls (run scheduledSaveLoop_round d1_without_last_save)
  = save_calls d1_without_last_save
    ++ filter (due d1_without_last_save
                 (clock d1_without_last_save
                    (clock_reads d1_without_last_save)))
              (StdMap.keys (device_data_ d1_without_last_save)).
Proof.
  apply (round_saves_exactly_the_due_devices d1_without_last_save).
  simpl. repeat split; reflexivity.
Defined.

(** The maps of a collector stay in key order. *)
Lemma saveDeviceData_ascending : forall id s,
    ascending (last_save_times_ s) ->
    ascending (last_save_times_ (run (saveDeviceData id) s)).
Proof.
  intros id s H. pose proof (saveDeviceData_effect id s) as [_ [_ [_ [_ Hl]]]].
  destruct Hl as [-> | [saved ->]]; [exact H | now apply insert_ascending].
Qed.

Lemma reachable_maps_ascending : forall getDbIdentifier s,
    reachable getDbIdentifier s ->
    ascending (device_data_ s) /\ ascending (last_save_times_ s).
Proof.
  intros getDb s H. induction H as [ | s topic payload _ [IHd IHl]
                                     | s _ [IHd IHl] | s _ IH | s _ [IHd IHl]].
  - now split.
  - destruct (parseTopic topic) as [dev sensor] eqn:Hp.
    destruct ((dev =? "") || (sensor =? "")) eqn:Hempty.
    + unfold run. rewrite onMqttMessage_ignored; [now split | now rewrite Hp].
    + apply orb_false_elim in Hempty. destruct Hempty as [Hd Hs].
      apply String.eqb_neq in Hd, Hs.
      pose proof (onMqttMessage_accepted getDb topic payload s dev sensor
                    Hp Hd Hs) as Heff. cbv zeta in Heff.
      destruct (StdMap.find (getDb dev) (device_data_ s));
        destruct Heff as [-> ->]; split;
        repeat apply insert_ascending; assumption.
  - pose proof (round_keeps_save_times s) as [Hd _]. rewrite Hd.
    split; [exact IHd | ].
    rewrite round_eq.
    apply (for_each_invariant (fun s' => ascending (last_save_times_ s')));
      [ | exact IHl].
    intros id s1 H1. rewrite check_device_eq.
    destruct (StdMap.find id (last_save_times_ s1));
      [destruct (_ <=? _)%Z | ];
      solve [now apply saveDeviceData_ascending | exact H1].
  - unfold run, start, bind, get, modify. simpl. now destruct (running_ s).
  - pose proof (stop_keeps_save_times s) as [Hd _]. rewrite Hd.
    split; [exact IHd | ].
    rewrite stop_eq. destruct (running_ s); [ | exact IHl].
    apply (for_each_invariant (fun s' => ascending (last_save_times_ s')));
      [ | exact IHl].
    intros id s1 H1. rewrite run_bind. now apply saveDeviceData_ascending.
Qed.

(** ** Flushing keeps the buffer *)

(** X15.  A flush writes the buffered records but does not clear or change
    them: after a save, a round, any number of rounds or a [stop], the
    buffer holds the same records as before. *)
Theorem flush_keeps_the_buffer : forall s,
    (forall id, device_data_ (run (saveDeviceData id) s) = device_data_ s)
    /\ device_data_ (run scheduledSaveLoop_round s) = device_data_ s
    /\ (forall rounds,
           device_data_ (run (scheduledSaveLoop rounds) s) = device_data_ s)
    /\ device_data_ (run stop s) = device_data_ s.
Proof.
  intro s. repeat apply conj.
  - intro id. apply saveDeviceData_effect.
  - apply round_keeps_save_times.
  - intro rounds. revert s. induction rounds as [| n IH]; intro s.
    + reflexivity.
    + rewrite loop_eq, IH. apply round_keeps_save_times.
  - apply stop_keeps_save_times.
Qed.

(** ** [stop] *)

Lemma run_save_then_ret : forall id s,
    run (bind (saveDeviceData id) (fun _ => ret tt)) s
    = run (saveDeviceData id) s.
Proof. intros. now rewrite run_bind. Qed.

Lemma saveDeviceData_running : forall id s,
    running_ (run (saveDeviceData id) s) = running_ s.
Proof.
  intros id s. pose proof (saveDeviceData_cases id s) as Hc. unfold run.
  destruct (StdMap.find id (device_data_ s)) as [data | ];
    [destruct (UpsData.isValid data);
     [destruct (db_succeeds s _) | ] | ]; now rewrite Hc.
Qed.

Lemma for_each_save_all : forall ids s,
    let s' := run (for_each (fun id => bind (saveDeviceData id) (fun _ => ret tt))
                            ids) s in
    save_calls s' = save_calls s ++ ids /\ running_ s' = running_ s.
Proof.
  induction ids as [| a ids IH]; intro s.
  - simpl. now rewrite app_nil_r.
  - cbv zeta in *. rewrite run_for_each_cons.
    destruct (IH (run (bind (saveDeviceData a) (fun _ => ret tt)) s))
      as [-> ->].
    rewrite run_save_then_ret, saveDeviceData_running.
    pose proof (saveDeviceData_effect a s) as [_ [_ [Hs _]]].
    now rewrite Hs, <- app_assoc.
Qed.

(** X16.  [stop] on a running collector calls [saveDeviceData] once for every
    buffered device, in key order, and leaves the collector stopped; on a
    collector that is not running it does nothing at all, so data buffered
    by a collector that was never started is not flushed, and a second
    [stop] is without effect. *)
Theorem stop_flushes_every_device_once :
  forall s,
    (running_ s = true ->
     save_calls (run stop s) = save_calls s ++ StdMap.keys (device_data_ s)
     /\ running_ (run stop s) = false)
    /\ (running_ s = false -> stop s = (tt, s))
    /\ run stop (run stop s) = run stop s.
Proof.
  intro s.
  assert (Hrun : running_ s = true ->
                 save_calls (run stop s)
                 = save_calls s ++ StdMap.keys (device_data_ s)
                 /\ running_ (run stop s) = false).
  { intro Hr. rewrite stop_eq, Hr.
    destruct (for_each_save_all (StdMap.keys (device_data_ s))
                                (set_running_ false s)) as [Hs Hr'].
    now rewrite Hs, Hr'. }
  assert (Hidle : forall s0, running_ s0 = false -> stop s0 = (tt, s0)).
  { intros s0 Hr. unfold stop, bind, get. simpl. now rewrite Hr. }
  split; [exact Hrun | ]. split; [apply Hidle | ].
  destruct (running_ s) eqn:Hr.
  - destruct (Hrun eq_refl) as [_ Hstopped].
    change (snd (stop (run stop s)) = run stop s).
    rewrite (Hidle _ Hstopped). reflexivity.
  - change (snd (stop (run stop s)) = run stop s).
    assert (E : run stop s = s) by (unfold run; now rewrite (Hidle _ Hr)).
    rewrite E, (Hidle _ Hr). reflexivity.
Qed.

Lemma stop_flushes_every_device_once_witness :
  save_calls (run stop d1_without_last_save) = ["d1"; "d2"]
  /\ stop hourly = (tt, hourly).
Proof.
  destruct (stop_flushes_every_device_once d1_without_last_save)
    as [Hrun _].
  destruct (stop_flushes_every_device_once hourly) as [_ [Hidle _]].
  split; [apply (Hrun eq_refl) | apply (Hidle eq_refl)].
Defined.

End CollectorRounds.

Section Isolation.

Import CollectorService CollectorSpec CollectorSpec2.

Variable getDbIdentifier : string -> string.

(** X17.  A message changes nothing but the record and the save time of its
    own device: the records and save times of all other devices, the calls
    made to the sink, the interval and the running flag are as before. *)
Theorem message_touches_only_its_device :
  forall topic payload s other,
    other <> getDbIdentifier (fst (parseTopic topic)) ->
    let s' := run (onMqttMessage getDbIdentifier topic payload) s in
    StdMap.find other (device_data_ s') = StdMap.find other (device_data_ s)
    /\ StdMap.find other (last_save_times_ s')
       = StdMap.find other (last_save_times_ s)
    /\ db_calls s' = db_calls s
    /\ save_calls s' = save_calls s
    /\ save_interval_seconds_ s' = save_interval_seconds_ s
    /\ running_ s' = running_ s.
Proof.
  intros topic payload s other Hother s'. subst s'.
  pose proof (onMqttMessage_frame getDbIdentifier topic payload s)
    as [Hdb [Hsave [Hint Hrun]]].
  repeat split; try assumption.
  all: destruct (parseTopic topic) as [dev sensor] eqn:Hp; simpl in Hother;
    destruct ((dev =? "") || (sensor =? "")) eqn:Hempty;
    [ unfold run; rewrite onMqttMessage_ignored;
      [reflexivity | now rewrite Hp]
    | apply orb_false_elim in Hempty; destruct Hempty as [Hd Hs];
      apply String.eqb_neq in Hd, Hs;
      pose proof (onMqttMessage_accepted getDbIdentifier topic payload s
                    dev sensor Hp Hd Hs) as Heff; cbv zeta in Heff;
      destruct (StdMap.find (getDbIdentifier dev) (device_data_ s));
      destruct Heff as [Hdata Hlast]; rewrite ?Hdata, ?Hlast;
      now rewrite ?find_insert_other by exact Hother ].
Qed.

End Isolation.

Lemma message_touches_only_its_device_witness :
  StdMap.find "d2"
    (CollectorService.device_data_
       (CollectorSpec.run
          (CollectorService.onMqttMessage (fun id => id)
             (CollectorSpec.state_topic "d1" "battery_charge") "55")
          CollectorSpec.two_devices))
  = StdMap.find "d2" (CollectorService.device_data_ CollectorSpec.two_devices).
Proof.
  assert (Hother : "d2" <> (fun id : string => id)
                             (fst (CollectorService.parseTopic
                                     (CollectorSpec.state_topic "d1" "battery_charge")))).
  { vm_compute. discriminate. }
  pose proof (message_touches_only_its_device (fun id => id)
                (CollectorSpec.state_topic "d1" "battery_charge") "55"
                CollectorSpec.two_devices "d2" Hother) as H.
  cbv zeta in H. exact (proj1 H).
Defined.

(* ================================================================== *)
(** * The merge step, member by member *)
(* ================================================================== *)

Section MergeStep.

Import Cxx UpsData UpsDataSpec UpsDataSpec2.

(** Takes the branches of [updateFieldFromMqtt] one after the other. *)
Ltac next_branch :=
  match goal with
  | |- context [if ?b then _ else _] =>
      lazymatch b with
      | context [if _ then _ else _] => fail
      | _ => let E := fresh "E" in destruct b eqn:E
      end
  end.

Ltac name_found :=
  repeat match goal with
         | H : (_ || _) = true |- _ =>
             apply orb_prop in H; destruct H as [H | H]
         | H : (_ =? _) = true |- _ => apply String.eqb_eq in H; subst
         end.

(** X18.  The two spellings of a sensor name select the same branch: an
    update under the ESP32 name and one under the name this bridge
    publishes give the same record. *)
Theorem alias_names_update_alike :
  forall alias name,
    In (alias, name) aliases ->
    forall now value d,
      updateFieldFromMqtt now alias value d
      = updateFieldFromMqtt now name value d.
Proof.
  intros alias name Hin now value d. unfold aliases in Hin. simpl in Hin.
  repeat (destruct Hin as [Hin | Hin];
          [injection Hin as <- <-; reflexivity | ]).
  contradiction.
Qed.

Lemma alias_names_update_alike_witness :
  updateFieldFromMqtt 7%Z "status" "OB LB" half_charged
  = updateFieldFromMqtt 7%Z "ups_status" "OB LB" half_charged.
Proof.
  apply (alias_names_update_alike "status" "ups_status").
  simpl. do 7 right. left. reflexivity.
Defined.


(** One branch after the other: in the branch of a writer of the member the
    sensor name is one of its writers, in every other branch the member is
    not assigned. *)
Ltac frame Hnot d :=
  unfold updateFieldFromMqtt;
  repeat next_branch;
  first [ reflexivity
        | destruct (parseDouble _); reflexivity
        | exfalso; apply Hnot; name_found; simpl; tauto ].

Lemma double_member_frame :
  forall names field, In (names, field) double_writers ->
  forall sensor_name, ~ In sensor_name names ->
  forall now value d,
    field (updateFieldFromMqtt now sensor_name value d) = field d.
Proof.
  intros names field Hf sensor_name Hnot now value d.
  unfold double_writers in Hf. simpl in Hf.
  repeat (destruct Hf as [Hf | Hf];
          [injection Hf as <- <-; frame Hnot d | ]).
  contradiction.
Qed.


Lemma int_member_frame :
  forall names field, In (names, field) int_writers ->
  forall sensor_name, ~ In sensor_name names ->
  forall now value d,
    field (updateFieldFromMqtt now sensor_name value d) = field d.
Proof.
  intros names field Hf sensor_name Hnot now value d.
  unfold int_writers in Hf. simpl in Hf.
  repeat (destruct Hf as [Hf | Hf];
          [injection Hf as <- <-; frame Hnot d | ]).
  contradiction.
Qed.

Lemma string_member_frame :
  forall names field, In (names, field) string_writers ->
  forall sensor_name, ~ In sensor_name names ->
  forall now value d,
    field (updateFieldFromMqtt now sensor_name value d) = field d.
Proof.
  intros names field Hf sensor_name Hnot now value d.
  unfold string_writers in Hf. simpl in Hf.
  repeat (destruct Hf as [Hf | Hf];
          [injection Hf as <- <-; frame Hnot d | ]).
  contradiction.
Qed.

Lemma bool_member_frame :
  forall names field, In (names, field) bool_writers ->
  forall sensor_name, ~ In sensor_name names ->
  forall now value d,
    field (updateFieldFromMqtt now sensor_name value d) = field d.
Proof.
  intros names field Hf sensor_name Hnot now value d.
  unfold bool_writers in Hf. simpl in Hf.
  repeat (destruct Hf as [Hf | Hf];
          [injection Hf as <- <-; frame Hnot d | ]).
  contradiction.
Qed.

Lemma device_id_frame : forall now sensor_name value d,
    device_id (updateFieldFromMqtt now sensor_name value d) = device_id d.
Proof.
  intros now sensor_name value d. unfold updateFieldFromMqtt.
  repeat next_branch;
    first [reflexivity | destruct (parseDouble _); reflexivity].
Qed.

(** X19.  The merge step writes one member: an update under a sensor name
    leaves every optional member unchanged except the one the name selects
    and the member derived from it (the load in watts for the load
    percentage, the power failure flag for the status); the device
    identifier never changes, and five members have no sensor name at all. *)
Theorem update_leaves_other_members_unchanged :
  forall sensor_name now value d,
    let d' := updateFieldFromMqtt now sensor_name value d in
    device_id d' = device_id d
    /\ (forall names field, In (names, field) double_writers ->
        ~ In sensor_name names -> field d' = field d)
    /\ (forall names field, In (names, field) int_writers ->
        ~ In sensor_name names -> field d' = field d)
    /\ (forall names field, In (names, field) string_writers ->
        ~ In sensor_name names -> field d' = field d)
    /\ (forall names field, In (names, field) bool_writers ->
        ~ In sensor_name names -> field d' = field d).
Proof.
  intros sensor_name now value d d'. subst d'. repeat apply conj.
  - apply device_id_frame.
  - intros names field Hf Hnot. now apply (double_member_frame names).
  - intros names field Hf Hnot. now apply (int_member_frame names).
  - intros names field Hf Hnot. now apply (string_member_frame names).
  - intros names field Hf Hnot. now apply (bool_member_frame names).
Qed.

Lemma update_leaves_other_members_unchanged_witness :
  battery_charge (updateFieldFromMqtt 7%Z "ups_status" "OL" half_charged)
  = battery_charge half_charged
  /\ battery_type (updateFieldFromMqtt 7%Z "battery_charge" "80" half_charged)
     = battery_type half_charged.
Proof.
  destruct (update_leaves_other_members_unchanged
              "ups_status" 7%Z "OL" half_charged) as [_ [Hdouble _]].
  destruct (update_leaves_other_members_unchanged
              "battery_charge" 7%Z "80" half_charged) as [_ [_ [_ [Hstring _]]]].
  split.
  - apply (Hdouble ["battery_charge"] battery_charge).
    + simpl. left. reflexivity.
    + simpl. intros [E | []]. discriminate E.
  - apply (Hstring [] battery_type).
    + simpl. do 9 right. left. reflexivity.
    + simpl. tauto.
Defined.

(** ** The last write wins *)

(** X20.  Two updates under the same sensor name: the record is the one the
    second update alone gives, so the later value replaces the earlier one.
    For the load percentage this needs the second payload to parse, since
    an unparsable percentage leaves the watts derived from the first. *)
Theorem last_write_wins :
  forall sensor_name now1 value1 now2 value2 d,
    (sensor_name = "load_percentage" \/ sensor_name = "load_percent" ->
     parseDouble value2 <> None) ->
    updateFieldFromMqtt now2 sensor_name value2
      (updateFieldFromMqtt now1 sensor_name value1 d)
    = updateFieldFromMqtt now2 sensor_name value2 d.
Proof.
  intros sensor_name now1 value1 now2 value2 d Hload.
  unfold updateFieldFromMqtt.
  repeat next_branch; try reflexivity.
  all: destruct (parseDouble value2) eqn:Hsecond;
    [ destruct (parseDouble value1); reflexivity | ].
  all: exfalso; apply Hload; [ | reflexivity ]; name_found;
    first [left; reflexivity | right; reflexivity].
Qed.

Lemma last_write_wins_witness :
  parseDouble "42" <> None
  /\ updateFieldFromMqtt 8%Z "load_percentage" "42"
       (updateFieldFromMqtt 7%Z "load_percentage" "17" half_charged)
     = updateFieldFromMqtt 8%Z "load_percentage" "42" half_charged.
Proof.
  assert (Hparses : parseDouble "42" <> None) by (vm_compute; discriminate).
  split; [exact Hparses | ].
  apply (last_write_wins "load_percentage" 7%Z "17" 8%Z "42" half_charged).
  intros _. exact Hparses.
Defined.

End MergeStep.

(* ================================================================== *)
(** * The state messages of a snapshot *)
(* ================================================================== *)

Section DecimalDigits.

Import Cxx UpsData UpsMessages.







End DecimalDigits.

Section StateMessages.

Import Cxx UpsData UpsDataSpec UpsMessages UpsMessagesSpec.
Import CollectorService CollectorSpec.

Variable to_string_double : double -> string.

(** X21.  Every state message of a snapshot is one the collector accepts: it
    has QoS 1 and is not retained, and its topic is the state topic of the
    snapshot's device and of a sensor name the merge step knows; when the
    device identifier has no slash the collector reads back exactly this
    device and this sensor name from the topic. *)
Theorem published_messages_are_accepted :
  forall d m,
    In m (toMqttMessages to_string_double d) ->
    MqttMessage.qos m = 1%Z /\ MqttMessage.retain m = false
    /\ exists sensor,
         In sensor published_sensors
         /\ recognized sensor = true
         /\ MqttMessage.topic m = state_topic (device_id d) sensor
         /\ (no_slash (device_id d) = true ->
             parseTopic (MqttMessage.topic m) = (device_id d, sensor)).
Proof.
  intros d m H. unfold toMqttMessages in H. cbv zeta in H.
  repeat (apply In_add_if in H; destruct H as [H | [v [_ ->]]]);
    [ contradiction H | .. ].
  all: split; [reflexivity | split; [reflexivity | ]].
  all: lazymatch goal with
       | |- context [MqttMessage.mk (_ ++ "/" ++ ?sensor ++ "/state")] =>
           exists sensor
       end.
  all: split; [simpl; repeat (first [left; reflexivity | right]) | ].
  all: split; [reflexivity | ].
  all: split; [reflexivity | ].
  all: intro Hid;
    lazymatch goal with
    | |- parseTopic _ = (_, ?sensor) =>
        change (parseTopic (state_topic (device_id d) sensor)
                = (device_id d, sensor))
    end;
    apply parseTopic_state_topic; [exact Hid | reflexivity].
Qed.

End StateMessages.

Lemma published_messages_are_accepted_witness :
  let m := MqttMessage.mk "homeassistant/sensor/apc_ups/ups_status/state"
             "OB DISCHRG" 1 false in
  In m (UpsMessages.toMqttMessages (fun _ => "0.000000")
          UpsMessagesSpec.on_battery)
  /\ exists sensor,
       In sensor UpsMessagesSpec.published_sensors
       /\ CollectorService.parseTopic (MqttMessage.topic m)
          = ("apc_ups", sensor).
Proof.
  intro m.
  assert (Hin : In m (UpsMessages.toMqttMessages (fun _ => "0.000000")
                        UpsMessagesSpec.on_battery)).
  { vm_compute. right. left. reflexivity. }
  split; [exact Hin | ].
  destruct (published_messages_are_accepted (fun _ => "0.000000")
              UpsMessagesSpec.on_battery m Hin)
    as [_ [_ [sensor [Hsensor [_ [_ Hparse]]]]]].
  exists sensor. split; [exact Hsensor | exact (Hparse eq_refl)].
Defined.

(* ================================================================== *)
(** * From the bridge to the collector *)
(* ================================================================== *)

Section BridgeToCollector.

Import Cxx UpsData UpsDataSpec UpsMessages UpsMessagesSpec.
Import CollectorService CollectorSpec.

Variable to_string_double : double -> string.
Variable getDbIdentifier : string -> string.











End BridgeToCollector.


(* ================================================================== *)
(** * The NUT client *)
(* ================================================================== *)

Section Backoff.

Import NutClient NutClientSpec.

Lemma connect_failure : forall c,
    connected_ c && ups_conn_ c = false ->
    upscli_connect_fails c (connect_calls c) = true ->
    (0 <= reconnect_attempts_ c < 31)%Z ->
    exists c',
      connect c = Some (false, c')
      /\ sleeps c' = sleeps c ++ [Z.min (2 ^ reconnect_attempts_ c) 64]
      /\ reconnect_attempts_ c' = (reconnect_attempts_ c + 1)%Z
      /\ connected_ c' = false /\ ups_conn_ c' = false
      /\ allocated c' = allocated c
      /\ upscli_connect_fails c' = upscli_connect_fails c
      /\ connect_calls c' = S (connect_calls c).
Proof.
  intros [h p u uc co ra f pp cc pc sl al] Hc Hf Hra. simpl in *.
  unfold connect. simpl. rewrite Hc, Hf. unfold one_shl. simpl.
  destruct (Z.leb_spec 0 ra); [ | lia].
  destruct (Z.ltb_spec ra 31); [ | lia]. simpl.
  eexists. split; [reflexivity | ]. simpl. now repeat split.
Qed.

Lemma connect_times_failures : forall n c,
    connected_ c && ups_conn_ c = false ->
    (forall i, upscli_connect_fails c i = true) ->
    (0 <= reconnect_attempts_ c)%Z ->
    (reconnect_attempts_ c + Z.of_nat n <= 31)%Z ->
    exists c',
      connect_times n c = Some c'
      /\ sleeps c'
         = sleeps c
           ++ map (fun i => Z.min (2 ^ (reconnect_attempts_ c + Z.of_nat i)) 64)
                  (seq 0 n)
      /\ reconnect_attempts_ c' = (reconnect_attempts_ c + Z.of_nat n)%Z
      /\ connected_ c' && ups_conn_ c' = false
      /\ allocated c' = allocated c.
Proof.
  induction n as [| n IH]; intros c Hc Hf Hra Hn.
  - exists c. simpl. rewrite app_nil_r, Z.add_0_r. now repeat split.
  - destruct (connect_failure c Hc (Hf _)) as
      [c1 [E [Hsl [Hra1 [Hco [Huc [Hal [Hfails _]]]]]]]]; [lia | ].
    destruct (IH c1) as [c' [E' [Hsl' [Hra' [Hc' Hal']]]]].
    + now rewrite Hco.
    + intro i. now rewrite Hfails.
    + lia.
    + lia.
    + exists c'. simpl connect_times. rewrite E, E'.
      split; [reflexivity | ]. split; [ | split; [lia | split; [exact Hc' | congruence]]].
      rewrite Hsl', Hsl, <- app_assoc. f_equal.
      change (seq 0 (S n)) with (0 :: seq 1 n).
      rewrite <- seq_shift, map_cons, map_map.
      change (Z.of_nat 0) with 0%Z. rewrite Z.add_0_r.
      change ([Z.min (2 ^ reconnect_attempts_ c) 64] ++ ?l)
        with (Z.min (2 ^ reconnect_attempts_ c) 64 :: l).
      f_equal. apply map_ext. intro i. rewrite Hra1. do 2 f_equal. lia.
Qed.

(** X23.  The back-off of [connect].  While the server cannot be reached, the
    first 31 failures in a row wait 1, 2, 4, ... seconds, doubling up to the
    cap of 64 and staying there, and none of them leaves a connection
    object behind.  The next failure shifts by 31: the wait it computes is
    [INT_MIN], not a second and not the cap.  From then on the shift has no
    defined value. *)
Theorem backoff_doubles_up_to_the_cap_for_31_failures :
  (forall n c,
      isConnected c = false ->
      (forall i, upscli_connect_fails c i = true) ->
      reconnect_attempts_ c = 0%Z ->
      n <= 31 ->
      exists c',
        connect_times n c = Some c'
        /\ sleeps c'
           = sleeps c ++ map (fun i => Z.min (2 ^ Z.of_nat i) 64) (seq 0 n)
        /\ Forall (fun seconds => (1 <= seconds <= 64)%Z)
                  (map (fun i => Z.min (2 ^ Z.of_nat i) 64) (seq 0 n))
        /\ reconnect_attempts_ c' = Z.of_nat n
        /\ isConnected c' = false
        /\ allocated c' = allocated c)
  /\ (forall c,
         isConnected c = false ->
         upscli_connect_fails c (connect_calls c) = true ->
         reconnect_attempts_ c = 31%Z ->
         exists c',
           connect c = Some (false, c')
           /\ sleeps c' = sleeps c ++ [Cxx.INT_MIN])
  /\ (forall c,
         isConnected c = false ->
         upscli_connect_fails c (connect_calls c) = true ->
         (32 <= reconnect_attempts_ c)%Z ->
         connect c = None).
Proof.
  split; [ | split].
  - intros n c Hc Hf Hra Hn.
    destruct (connect_times_failures n c Hc Hf) as [c' [E [Hsl [Hra' [Hc' Hal]]]]];
      [lia | lia | ].
    exists c'. rewrite Hra in Hsl, Hra'. simpl in Hsl, Hra'.
    split; [exact E | ]. split; [exact Hsl | ].
    split; [ | split; [exact Hra' | split; [exact Hc' | exact Hal]]].
    apply Forall_forall. intros seconds Hin.
    apply in_map_iff in Hin. destruct Hin as [i [<- _]].
    assert (0 < 2 ^ Z.of_nat i)%Z by (apply Z.pow_pos_nonneg; lia). lia.
  - intros [h p u uc co ra f pp cc pc sl al] Hc Hf Hra. simpl in *. subst ra.
    unfold isConnected in Hc. simpl in Hc.
    unfold connect. simpl. rewrite Hc, Hf.
    eexists. split; reflexivity.
  - intros [h p u uc co ra f pp cc pc sl al] Hc Hf Hra. simpl in *.
    unfold isConnected in Hc. simpl in Hc.
    unfold connect. simpl. rewrite Hc, Hf. unfold one_shl. simpl.
    destruct (Z.ltb_spec ra 31); [lia | ]. rewrite andb_false_r.
    destruct (Z.eqb_spec ra 31); [lia | reflexivity].
Qed.

Lemma backoff_doubles_up_to_the_cap_for_31_failures_witness :
  exists c',
    connect_times 9 unreachable_server = Some c'
    /\ sleeps c' = [1; 2; 4; 8; 16; 32; 64; 64; 64]%Z.
Proof.
  destruct backoff_doubles_up_to_the_cap_for_31_failures as [Hfirst _].
  destruct (Hfirst 9 unreachable_server) as [c' [E [Hsl _]]].
  - reflexivity.
  - intro i. reflexivity.
  - reflexivity.
  - lia.
  - exists c'. split; [exact E | exact Hsl].
Defined.

End Backoff.

Section Handles.

Import NutClient NutClientSpec.

(** X24.  However [connect], [disconnect] and [getAllVariables] are called
    one after the other, as long as every call of [connect] has a defined
    result, the client holds a connection object exactly when it is
    connected, there is never more than this one object alive (no object
    made by [new] is lost), and the count of failed attempts is zero while
    it is connected and never negative.  A call of [connect] has a defined
    result in each of these states with at most 31 failures in a row; what
    follows a call whose back-off shift is undefined, the 33rd failure in a
    row, is not covered. *)
Theorem connection_object_is_never_leaked :
  forall c,
    reachable c ->
    connected_ c = ups_conn_ c
    /\ allocated c = (if ups_conn_ c then 1 else 0)
    /\ (0 <= reconnect_attempts_ c)%Z
    /\ (connected_ c = true -> reconnect_attempts_ c = 0%Z)
    /\ ((reconnect_attempts_ c <= 31)%Z ->
        exists r c', connect c = Some (r, c')).
Proof.
  intros c H.
  assert (Hinv : connected_ c = ups_conn_ c
                 /\ allocated c = (if ups_conn_ c then 1 else 0)
                 /\ (0 <= reconnect_attempts_ c)%Z
                 /\ (connected_ c = true -> reconnect_attempts_ c = 0%Z)).
  { induction H as [host port ups fails pipe
                   | c r c' H IH E
                   | c H IH
                   | c H IH].
    - simpl.
      split; [reflexivity | split; [reflexivity | split; [lia | discriminate]]].
    - destruct IH as [Hco [Hal [Hra Hzero]]].
      destruct c as [h p u uc co ra f pp cc pc sl al]. simpl in *. subst co.
      unfold connect in E. simpl in E.
      destruct uc; simpl in E.
      + injection E as <- <-. simpl. tauto.
      + destruct (f cc).
        * destruct (one_shl ra); [ | discriminate E].
          injection E as <- <-. simpl. subst al.
          split; [reflexivity
                 | split; [reflexivity | split; [lia | discriminate]]].
        * injection E as <- <-. simpl. subst al.
          split; [reflexivity
                 | split; [reflexivity | split; [lia | reflexivity]]].
    - destruct IH as [Hco [Hal [Hra Hzero]]].
      destruct c as [h p u uc co ra f pp cc pc sl al]. simpl in *. subst co al.
      unfold disconnect. simpl. destruct uc; simpl;
        (split; [reflexivity
                | split; [reflexivity | split; [lia | discriminate]]]).
    - destruct IH as [Hco [Hal [Hra Hzero]]].
      destruct c as [h p u uc co ra f pp cc pc sl al]. simpl in *. subst co.
      unfold getAllVariables. simpl.
      destruct uc; simpl; [ | tauto].
      destruct (pp _ _); simpl; tauto. }
  destruct Hinv as [Hco [Hal [Hra Hzero]]].
  split; [exact Hco | split; [exact Hal | split; [exact Hra | ]]].
  split; [exact Hzero | ].
  intro Hfew. unfold connect.
  destruct (connected_ c && ups_conn_ c); [now eexists; eexists | ].
  cbv zeta.
  match goal with
  | |- context [if ?b then _ else _] => destruct b
  end; [ | now eexists; eexists].
  unfold one_shl. simpl reconnect_attempts_.
  destruct c as [h p u uc co ra f pp cc pc sl al]. simpl in *.
  destruct (Z.leb_spec 0 ra); [ | lia].
  destruct (Z.ltb_spec ra 31); simpl; [now eexists; eexists | ].
  destruct (Z.eqb_spec ra 31); [now eexists; eexists | lia].
Qed.

Lemma connection_object_is_never_leaked_witness :
  match connect answering, connect unreachable_server with
  | Some (true, c), Some (false, c') =>
      isConnected c = true /\ allocated c = 1
      /\ isConnected c' = false /\ allocated c' = 0
      /\ allocated (disconnect c) = 0
  | _, _ => False
  end.
Proof.
  destruct (connect answering) as [[r c] | ] eqn:E;
    [ | vm_compute in E; discriminate E].
  destruct (connect unreachable_server) as [[r' c'] | ] eqn:E';
    [ | vm_compute in E'; discriminate E'].
  pose proof (reach_connect answering r c
                (reach_new _ _ _ _ _) E) as Hc.
  pose proof (reach_connect unreachable_server r' c'
                (reach_new _ _ _ _ _) E') as Hc'.
  destruct (connection_object_is_never_leaked c Hc) as [_ [Hal _]].
  destruct (connection_object_is_never_leaked c' Hc') as [_ [Hal' _]].
  destruct (connection_object_is_never_leaked (disconnect c)
              (reach_disconnect c Hc)) as [_ [Hal'' _]].
  vm_compute in E, E'. injection E as <- <-. injection E' as <- <-.
  split; [reflexivity | ]. split; [exact Hal | ].
  split; [reflexivity | ]. split; [exact Hal' | exact Hal''].
Defined.

End Handles.

Section UpscOutput.

Import NutClient NutClientSpec StdMapSpec.
Local Open Scope string_scope.

Lemma erase_leading_head : forall s,
    erase_leading s = ""
    \/ exists c rest, erase_leading s = String c rest /\ blank c = false.
Proof.
  induction s as [| c s IH]; [now left | ]. simpl.
  destruct (blank c) eqn:E; [exact IH | ]. right. now exists c, s.
Qed.

Lemma erase_trailing_idempotent : forall s,
    erase_trailing (erase_trailing s) = erase_trailing s.
Proof.
  induction s as [| c s IH]; [reflexivity | ].
  simpl. destruct (blank c && (erase_trailing s =? "")) eqn:E;
    [reflexivity | ].
  simpl. now rewrite IH, E.
Qed.

(** What [trim] gives is empty or tidy. *)
Lemma trim_tidy : forall s, trim s = "" \/ tidy (trim s).
Proof.
  intro s. unfold trim.
  destruct (erase_leading_head s) as [-> | [c [rest [-> Hc]]]]; [now left | ].
  right. simpl. rewrite Hc. simpl. repeat split.
  - discriminate.
  - simpl. now rewrite Hc.
  - simpl. rewrite erase_trailing_idempotent. now rewrite Hc.
Qed.

Lemma parse_line_tidy : forall line var_name var_value,
    parse_line line = Some (var_name, var_value) ->
    tidy var_name /\ tidy var_value.
Proof.
  intros line var_name var_value H. unfold parse_line in H.
  destruct (cut_at ":" line) as [[a b] | ]; [ | discriminate H].
  destruct (String.eqb_spec (trim a) ""); [discriminate H | ].
  destruct (String.eqb_spec (trim b) ""); [discriminate H | ].
  simpl in H. injection H as <- <-.
  destruct (trim_tidy a), (trim_tidy b); tauto.
Qed.

Lemma In_insert : forall {V : Type} k (v : V) m entry,
    In entry (StdMap.insert k v m) -> entry = (k, v) \/ In entry m.
Proof.
  intros V k v m entry. induction m as [| [k1 v1] m IH]; simpl.
  - intros [<- | []]. now left.
  - destruct (String.compare k k1); simpl.
    + intros [<- | H]; [now left | right; now right].
    + intros [<- | H]; [now left | now right].
    + intros [<- | H]; [right; now left | ].
      destruct (IH H) as [-> | H']; [now left | right; now right].
Qed.

Lemma add_lines_tidy : forall lines variables,
    ascending variables ->
    (forall name value, In (name, value) variables -> tidy name /\ tidy value) ->
    ascending (fold_left add_line lines variables)
    /\ forall name value,
         In (name, value) (fold_left add_line lines variables) ->
         tidy name /\ tidy value.
Proof.
  induction lines as [| line lines IH]; intros variables Hasc Htidy;
    [now split | ].
  simpl. apply IH.
  - unfold add_line. destruct (parse_line (c_str line)) as [[n v] | ];
      [now apply insert_ascending | exact Hasc].
  - intros name value Hin. unfold add_line in Hin.
    destruct (parse_line (c_str line)) as [[n v] | ] eqn:E;
      [ | now apply Htidy].
    apply In_insert in Hin. destruct Hin as [[= -> ->] | Hin];
      [now apply (parse_line_tidy _ _ _ E) | now apply Htidy].
Qed.

(** X25.  The variables that [getAllVariables] returns are clean: the map is
    in key order without duplicates, and every name and every value is
    non-empty and has no blank at either end.  So the rule of [getString]
    that an empty value counts as missing never applies to them: a lookup
    through [getString] is a plain lookup. *)
Theorem variables_read_from_upsc_are_tidy :
  forall c,
    let variables := fst (getAllVariables c) in
    ascending variables
    /\ NoDup (StdMap.keys variables)
    /\ (forall name value,
           In (name, value) variables -> tidy name /\ tidy value)
    /\ (forall key,
           UpsData.getString variables key = StdMap.find key variables).
Proof.
  intros c variables.
  assert (H : ascending variables
              /\ forall name value,
                   In (name, value) variables -> tidy name /\ tidy value).
  { subst variables. unfold getAllVariables.
    destruct (negb (connected_ c) || negb (ups_conn_ c));
      [simpl; split; [exact I | contradiction] | ].
    cbv zeta. destruct (popen c _ _); simpl;
      [ | split; [exact I | contradiction]].
    apply add_lines_tidy; [exact I | contradiction]. }
  destruct H as [Hasc Htidy].
  split; [exact Hasc | ]. split; [now apply ascending_NoDup | ].
  split; [exact Htidy | ].
  intro key. unfold UpsData.getString.
  destruct (StdMap.find key variables) as [value | ] eqn:E; [ | reflexivity].
  apply find_In in E. destruct (Htidy key value E) as [_ [Hne _]].
  apply String.eqb_neq in Hne. now rewrite Hne.
Qed.

(** ** A line of [upsc] *)

Lemma cut_at_first : forall c before after,
    has_char c before = false ->
    cut_at c (before ++ String c after) = Some (before, after).
Proof.
  intros c before after. induction before as [| x before IH]; simpl.
  - intros _. now rewrite Ascii.eqb_refl.
  - intro H. apply orb_false_elim in H. destruct H as [Hx Hb].
    rewrite Hx, (IH Hb). reflexivity.
Qed.

Lemma erase_leading_blanks : forall blanks s,
    all_blank blanks = true -> erase_leading (blanks ++ s) = erase_leading s.
Proof.
  induction blanks as [| c blanks IH]; intros s H; [reflexivity | ].
  simpl in *. apply andb_prop in H. destruct H as [Hc Hb].
  rewrite Hc. now apply IH.
Qed.

Lemma erase_trailing_blanks : forall s blanks,
    all_blank blanks = true -> erase_trailing (s ++ blanks) = erase_trailing s.
Proof.
  induction s as [| c s IH]; intros blanks H.
  - simpl. induction blanks as [| b blanks IHb]; [reflexivity | ].
    simpl in *. apply andb_prop in H. destruct H as [Hb Hbs].
    now rewrite (IHb Hbs), Hb.
  - simpl. now rewrite (IH blanks H).
Qed.

Lemma trim_padded : forall lead s trail,
    all_blank lead = true -> all_blank trail = true -> tidy s ->
    trim (lead ++ s ++ trail) = s.
Proof.
  intros lead s trail Hl Ht [Hne [Hlead Htrail]]. unfold trim.
  rewrite (erase_leading_blanks lead _ Hl).
  destruct s as [| c s]; [contradiction | ].
  simpl in Hlead. destruct (blank c) eqn:Hc.
  - exfalso. clear -Hlead.
    assert (Hlen : String.length (erase_leading s) <= String.length s).
    { clear. induction s as [| x s IH]; simpl; [lia | ].
      destruct (blank x); simpl; lia. }
    rewrite Hlead in Hlen. simpl in Hlen. lia.
  - change (erase_leading (String c s ++ trail))
      with (if blank c then erase_leading (s ++ trail)
            else String c s ++ trail).
    rewrite Hc. rewrite (erase_trailing_blanks _ _ Ht). exact Htrail.
Qed.

Lemma has_char_app : forall c a b,
    has_char c (a ++ b) = has_char c a || has_char c b.
Proof.
  intros c a b. induction a as [| x a IH]; simpl; [reflexivity | ].
  now rewrite IH, orb_assoc.
Qed.

Lemma all_blank_no_colon : forall s,
    all_blank s = true -> has_char ":" s = false.
Proof.
  induction s as [| c s IH]; intro H; [reflexivity | ].
  simpl in *. apply andb_prop in H. destruct H as [Hc Hs].
  rewrite (IH Hs), orb_false_r.
  destruct (Ascii.eqb_spec c ":") as [-> | ]; [discriminate Hc | reflexivity].
Qed.

(** A line is read back as its variable: a name without a colon and a
    value, both tidy, with blanks around them, a colon between them and
    anything blank behind, give this name and this value. *)
Lemma parse_line_padded :
  forall var_name var_value lead gap gap' trail,
    tidy var_name -> tidy var_value ->
    has_char ":" var_name = false ->
    all_blank lead = true -> all_blank gap = true ->
    all_blank gap' = true -> all_blank trail = true ->
    parse_line (lead ++ var_name ++ gap ++ ":" ++ gap' ++ var_value ++ trail)
    = Some (var_name, var_value).
Proof.
  intros var_name var_value lead gap gap' trail Hn Hv Hcolon Hl Hg Hg' Ht.
  unfold parse_line.
  replace (lead ++ var_name ++ gap ++ ":" ++ gap' ++ var_value ++ trail)
    with ((lead ++ var_name ++ gap) ++ String ":" (gap' ++ var_value ++ trail))
    by (now rewrite !append_assoc).
  rewrite cut_at_first.
  - rewrite (trim_padded lead var_name gap Hl Hg Hn).
    rewrite (trim_padded gap' var_value trail Hg' Ht Hv).
    destruct Hn as [Hn _], Hv as [Hv _].
    apply String.eqb_neq in Hn, Hv. now rewrite Hn, Hv.
  - rewrite !has_char_app, Hcolon.
    now rewrite (all_blank_no_colon lead Hl), (all_blank_no_colon gap Hg).
Qed.

(** ** The lines that [fgets] hands over *)

Lemma string_length_app : forall a b,
    String.length (a ++ b) = String.length a + String.length b.
Proof.
  induction a as [| x a IH]; intro b; simpl; [ | rewrite IH]; reflexivity.
Qed.

(** A line that fits the room left in the buffer is handed over whole, with
    its newline, and the next round starts with an empty buffer. *)
Lemma read_lines_line : forall size s buffer room rest,
    has_char newline s = false ->
    String.length s < room ->
    read_lines size buffer room (s ++ String newline rest)
    = (buffer ++ s ++ String newline "")
        :: read_lines size "" (size - 1) rest.
Proof.
  intros size s. induction s as [| x s IH]; intros buffer room rest Hnl Hlen.
  - cbn [append read_lines]. now rewrite Ascii.eqb_refl.
  - simpl in Hnl. apply orb_false_elim in Hnl. destruct Hnl as [Hx Hs].
    simpl in Hlen. simpl. rewrite Hx.
    destruct (Nat.eqb_spec room 1) as [E | _]; [lia | ]. simpl.
    rewrite (IH _ (room - 1) rest Hs) by lia.
    now rewrite append_assoc.
Qed.

Lemma c_str_whole : forall s, has_char zero s = false -> c_str s = s.
Proof.
  induction s as [| x s IH]; intro H; [reflexivity | ].
  simpl in *. apply orb_false_elim in H. destruct H as [Hx Hs].
  now rewrite Hx, (IH Hs).
Qed.

Lemma read_lines_upsc_output : forall entries,
    Forall fits_buffer entries ->
    read_lines 256 "" 255 (upsc_output entries) = map upsc_line entries.
Proof.
  induction entries as [| [name value] entries IH]; intro H; [reflexivity | ].
  inversion H as [| ? ? Hfits Hrest]; subst.
  destruct Hfits as [_ [_ [_ [Hn [Hv [_ [_ Hlen]]]]]]]. simpl in *.
  unfold upsc_line in *. simpl fst in *. simpl snd in *.
  replace ((name ++ ": " ++ value ++ String newline "") ++ upsc_output entries)
    with ((name ++ ": " ++ value) ++ String newline (upsc_output entries))
    by (now rewrite !append_assoc).
  rewrite read_lines_line.
  - change (256 - 1) with 255. rewrite (IH Hrest). simpl.
    now rewrite !append_assoc.
  - rewrite !has_char_app, Hn, Hv. reflexivity.
  - rewrite !string_length_app in *. simpl in *. lia.
Qed.

Lemma add_line_upsc_line : forall variables entry,
    fits_buffer entry ->
    add_line variables (upsc_line entry)
    = StdMap.insert (fst entry) (snd entry) variables.
Proof.
  intros variables [name value]
         [Hname [Hvalue [Hcolon [_ [_ [Hzn [Hzv _]]]]]]].
  simpl in *. unfold add_line, upsc_line. simpl fst. simpl snd.
  rewrite c_str_whole
    by (rewrite !has_char_app, Hzn, Hzv; reflexivity).
  change (name ++ ": " ++ value ++ String newline "")
    with ("" ++ name ++ "" ++ ":" ++ " " ++ value ++ String newline "").
  now rewrite (parse_line_padded name value "" "" " " (String newline "")).
Qed.

(** X26.  The output of [upsc] is read back as its variables.  When the
    client is connected and the pipe gives one line [name: value] for each
    variable of a list, every line with its newline within the 255
    characters that one [fgets] reads, names and values tidy and free of
    newlines and NULs and the names free of colons, then [getAllVariables]
    returns the map with each name set to its value, a later line with the
    same name replacing an earlier one.  The value may contain colons and
    blanks: a line is cut at its first colon only. *)
Theorem output_of_upsc_is_read_back :
  forall c entries,
    isConnected c = true ->
    (forall command,
        popen c (List.length (popen_calls c)) command
        = Some (upsc_output entries)) ->
    Forall fits_buffer entries ->
    fst (getAllVariables c)
    = fold_left (fun variables entry =>
                   StdMap.insert (fst entry) (snd entry) variables)
                entries StdMap.empty.
Proof.
  intros c entries Hc Hpipe Hfit. unfold getAllVariables.
  unfold isConnected in Hc. apply andb_prop in Hc. destruct Hc as [-> ->].
  simpl negb. simpl orb. cbv iota zeta. rewrite Hpipe. simpl fst.
  rewrite (read_lines_upsc_output entries Hfit). clear Hpipe.
  generalize (@StdMap.empty string).
  induction Hfit as [| entry entries Hentry _ IH]; intro variables;
    [reflexivity | ].
  simpl. rewrite (add_line_upsc_line variables entry Hentry). apply IH.
Qed.

Lemma output_of_upsc_is_read_back_witness :
  isConnected answering_connected = true
  /\ fst (getAllVariables answering_connected)
     = [("battery.charge", "100"); ("ups.status", "OL")].
Proof.
  split; [reflexivity | ].
  apply (output_of_upsc_is_read_back answering_connected
           [("battery.charge", "100"); ("ups.status", "OL")]).
  - reflexivity.
  - intro command. reflexivity.
  - repeat apply Forall_cons; [ | | apply Forall_nil].
    + unfold fits_buffer, tidy. simpl.
      repeat split; first [discriminate | reflexivity | lia].
    + unfold fits_buffer, tidy. simpl.
      repeat split; first [discriminate | reflexivity | lia].
Defined.

End UpscOutput.

(* ================================================================== *)
(** * A poll of the bridge *)
(* ================================================================== *)

Section Polling.

Import MqttClient ClientSpec ClientSpec2 PublishSpec.
Import UpsData UpsMessages NutBridgeService BridgeSpec.
Local Open Scope state_scope.

Variable writeString : Json.Value -> string.
Variable to_string_double : Cxx.double -> string.

(** X27.  A reading that is empty or incomplete is not published, not even
    in part: the poll answers [false] and leaves the MQTT client and the
    discovery flag exactly as they were. *)
Theorem incomplete_reading_is_not_published :
  forall s,
    reading s = [] \/ isValid (snapshot s) = false ->
    fst (pollAndPublish writeString to_string_double s) = false
    /\ mqtt_client_ (snd (pollAndPublish writeString to_string_double s)) = mqtt_client_ s
    /\ discovery_published_ (snd (pollAndPublish writeString to_string_double s)) = discovery_published_ s.
Proof.
  intros s H. unfold snapshot, reading in H.
  unfold pollAndPublish, bind, on_nut.
  destruct (NutClient.getAllVariables (nut_client_ s)) as [variables n].
  simpl in H. destruct variables as [| entry variables].
  - simpl. now destruct s.
  - destruct H as [H | H]; [discriminate H | ].
    simpl. destruct s. simpl in *. rewrite H. simpl. tauto.
Qed.

Lemma add_if_not_empty : forall {A : Type} base (member : option A) sensor
                                text messages,
    messages <> [] -> add_if base member sensor text messages <> [].
Proof.
  intros A base member sensor text messages H.
  destruct member; [ | exact H]. simpl. unfold addMessage.
  destruct messages; [contradiction | discriminate].
Qed.

Lemma valid_snapshot_has_messages : forall d,
    isValid d = true -> toMqttMessages to_string_double d <> [].
Proof.
  intros d H. unfold isValid in H. apply andb_prop in H. destruct H as [H _].
  unfold toMqttMessages. cbv zeta.
  do 25 apply add_if_not_empty.
  destruct (battery_charge d); [ | discriminate H].
  unfold add_if, addMessage. simpl. discriminate.
Qed.

Lemma publish_each_quiet : forall messages all_success,
    quiet (fun r => r = match messages with [] => all_success | _ => false end)
          (publish_each all_success messages).
Proof.
  induction messages as [| msg messages IH]; intro all_success.
  - now apply quiet_ret.
  - simpl publish_each.
    apply (quiet_bind (fun r => r = false)); [apply publish_fails_fast | ].
    intros ok ->. simpl.
    intros c Hc. destruct (IH false c Hc) as [Hr Hl].
    split; [ | exact Hl]. rewrite Hr. now destruct messages.
Qed.

(** X28.  A poll while the MQTT client is disconnected sends nothing: with a
    complete reading it answers [false], hands no message to the transport
    and registers nothing, and it clears the discovery flag, so that the
    configs are published again after the next reconnection. *)
Theorem poll_on_a_disconnected_client_clears_the_discovery_flag :
  forall s,
    reading s <> [] -> isValid (snapshot s) = true ->
    disconnected (mqtt_client_ s) ->
    fst (pollAndPublish writeString to_string_double s) = false
    /\ discovery_published_ (snd (pollAndPublish writeString to_string_double s)) = false
    /\ only_locked (mqtt_client_ s) (mqtt_client_ (snd (pollAndPublish writeString to_string_double s))).
Proof.
  intros s Hread Hvalid Hdis. unfold snapshot, reading in *.
  unfold pollAndPublish, bind, on_nut.
  destruct (NutClient.getAllVariables (nut_client_ s)) as [variables n].
  simpl in Hread, Hvalid.
  destruct variables as [| entry variables]; [contradiction | ].
  set (vars := entry :: variables) in *.
  change (Nat.eqb (StdMap.size vars) 0) with false. cbv iota.
  destruct s as [id name flag nut c clk reads].
  cbn -[isConnected publish_each toMqttMessages fromNutVariables isValid
        DiscoveryPublisher.publishAll] in *.
  rewrite Hvalid.
  cbn -[isConnected publish_each toMqttMessages fromNutVariables isValid
        DiscoveryPublisher.publishAll].
  unfold on_mqtt.
  cbn -[isConnected publish_each toMqttMessages fromNutVariables isValid
        DiscoveryPublisher.publishAll].
  destruct (isConnected_quiet c Hdis) as [Hr Hl].
  destruct (isConnected c) as [r c1]. simpl in Hr, Hl. subst r.
  assert (Hdis1 : disconnected c1)
    by exact (only_locked_disconnected _ _ Hl Hdis).
  set (d := fromNutVariables (clk reads) id vars) in *.
  destruct (publish_each_quiet (toMqttMessages to_string_double d) true c1 Hdis1)
    as [Hr1 Hl1].
  pose proof (valid_snapshot_has_messages d Hvalid) as Hne.
  destruct flag;
    cbn -[isConnected publish_each toMqttMessages fromNutVariables isValid
          DiscoveryPublisher.publishAll];
    destruct (publish_each true (toMqttMessages to_string_double d) c1)
      as [r2 c2]; simpl in *;
    (split; [ | split; [reflexivity | exact (only_locked_trans _ _ _ Hl Hl1)]]);
    rewrite Hr1;
    (destruct (toMqttMessages to_string_double d); [contradiction | reflexivity]).
Qed.

Lemma sends_isConnected : sends isConnected true [].
Proof.
  intros [cl co cb tc f th h tr] [Hc _]. simpl in Hc.
  exists [Lock connection_mutex_; Unlock connection_mutex_].
  split; [ | reflexivity].
  unfold isConnected, lock, unlock, emit, bind, get, modify, ret. simpl.
  rewrite Hc. unfold set_trace. simpl. now rewrite <- app_assoc.
Qed.

Lemma sends_publish_each : forall messages all_success,
    sends (publish_each all_success messages) all_success
          (map as_sent messages).
Proof.
  induction messages as [| msg messages IH]; intro all_success.
  - apply sends_ret.
  - simpl publish_each.
    apply (sends_bind (publish _ _ _ _) _ true all_success [as_sent msg]).
    + apply sends_publish.
    + apply IH.
Qed.

(** X29.  A poll on a calm client announces before it reports.  With a
    complete reading it answers [true]; if the discovery flag is not set it
    first publishes the discovery configs and sets the flag; then it
    publishes the state messages of the snapshot, in their order.  With the
    flag set no config is published again. *)
Theorem poll_announces_before_it_reports :
  forall s,
    reading s <> [] -> isValid (snapshot s) = true ->
    calm (mqtt_client_ s) ->
    fst (pollAndPublish writeString to_string_double s) = true
    /\ discovery_published_
         (snd (pollAndPublish writeString to_string_double s)) = true
    /\ published (mqtt_events (pollAndPublish writeString to_string_double) s)
       = (if discovery_published_ s then []
          else published
                 (events_of
                    (DiscoveryPublisher.publishAll writeString
                       (DiscoveryPublisher.new (device_id_ s) (device_name_ s)))
                    (mqtt_client_ s)))
         ++ map as_sent (toMqttMessages to_string_double (snapshot s)).
Proof.
  intros s Hread Hvalid Hcalm. unfold mqtt_events, snapshot, reading in *.
  unfold pollAndPublish, bind, on_nut.
  destruct (NutClient.getAllVariables (nut_client_ s)) as [variables n].
  simpl in Hread, Hvalid.
  destruct variables as [| entry variables]; [contradiction | ].
  set (vars := entry :: variables) in *.
  change (Nat.eqb (StdMap.size vars) 0) with false. cbv iota.
  destruct s as [id name flag nut c clk reads].
  cbn -[isConnected publish_each toMqttMessages fromNutVariables isValid
        DiscoveryPublisher.publishAll] in *.
  rewrite Hvalid.
  cbn -[isConnected publish_each toMqttMessages fromNutVariables isValid
        DiscoveryPublisher.publishAll].
  unfold on_mqtt.
  cbn -[isConnected publish_each toMqttMessages fromNutVariables isValid
        DiscoveryPublisher.publishAll].
  set (d := fromNutVariables (clk reads) id vars) in *.
  destruct (sends_isConnected c Hcalm) as [evs0 [E0 Hp0]].
  rewrite E0.
  assert (Hcalm0 : calm (set_trace (trace c ++ evs0) c))
    by now apply calm_set_trace.
  destruct (publishAll_sends writeString (DiscoveryPublisher.new id name))
    as [configs [Hsends _]].
  destruct (sends_events _ _ _ c Hsends Hcalm) as [_ [Hconfigs _]].
  rewrite Hconfigs.
  destruct flag;
    cbn -[isConnected publish_each toMqttMessages fromNutVariables isValid
          DiscoveryPublisher.publishAll].
  - match goal with
    | |- context [publish_each true ?ms ?c1] =>
        destruct (sends_publish_each ms true c1) as [evs2 [E2 Hp2]];
        [repeat apply calm_set_trace; exact Hcalm | rewrite E2]
    end.
    simpl. split; [reflexivity | split; [reflexivity | ]].
    destruct c. simpl. rewrite <- app_assoc.
    rewrite skipn_app, skipn_all, Nat.sub_diag. simpl.
    now rewrite published_app, Hp0, Hp2.
  - destruct (Hsends _ Hcalm0) as [evs1 [E1 Hp1]].
    rewrite E1.
    cbn -[isConnected publish_each toMqttMessages fromNutVariables isValid
          DiscoveryPublisher.publishAll].
    match goal with
    | |- context [publish_each true ?ms ?c1] =>
        destruct (sends_publish_each ms true c1) as [evs2 [E2 Hp2]];
        [repeat apply calm_set_trace; exact Hcalm | rewrite E2]
    end.
    simpl. split; [reflexivity | split; [reflexivity | ]].
    destruct c. simpl. rewrite <- !app_assoc.
    rewrite skipn_app, skipn_all, Nat.sub_diag. simpl.
    now rewrite !published_app, Hp0, Hp1, Hp2.
Qed.

End Polling.

Lemma incomplete_reading_is_not_published_witness :
  fst (NutBridgeService.pollAndPublish (fun _ => "{}") (fun _ => "0.000000")
         BridgeSpec.bridge_without_server) = false.
Proof.
  apply (incomplete_reading_is_not_published (fun _ => "{}")
           (fun _ => "0.000000") BridgeSpec.bridge_without_server).
  left. reflexivity.
Defined.

Lemma poll_on_a_disconnected_client_clears_the_discovery_flag_witness :
  fst (NutBridgeService.pollAndPublish (fun _ => "{}") (fun _ => "0.000000")
         BridgeSpec.offline_bridge) = false.
Proof.
  apply (poll_on_a_disconnected_client_clears_the_discovery_flag
           (fun _ => "{}") (fun _ => "0.000000") BridgeSpec.offline_bridge).
  - vm_compute. discriminate.
  - vm_compute. reflexivity.
  - reflexivity.
Defined.

Lemma poll_announces_before_it_reports_witness :
  fst (NutBridgeService.pollAndPublish (fun _ => "{}") (fun _ => "0.000000")
         BridgeSpec.bridge) = true
  /\ NutBridgeService.discovery_published_
       (snd (NutBridgeService.pollAndPublish (fun _ => "{}")
               (fun _ => "0.000000") BridgeSpec.bridge)) = true.
Proof.
  destruct (poll_announces_before_it_reports (fun _ => "{}")
              (fun _ => "0.000000") BridgeSpec.bridge) as [Hr [Hflag _]].
  - vm_compute. discriminate.
  - vm_compute. reflexivity.
  - split; [reflexivity | split; intro n; reflexivity].
  - split; [exact Hr | exact Hflag].
Defined.

(* ================================================================== *)
(** * The retries of a database operation *)
(* ================================================================== *)

Section Retries.

Import DatabaseRetry RetrySpec.

Lemma runs_app : forall evs evs', runs (evs ++ evs') = runs evs ++ runs evs'.
Proof.
  induction evs as [| e evs IH]; intro evs'; [reflexivity | ].
  destruct e; simpl; now rewrite IH.
Qed.

Lemma slept_app : forall evs evs',
    slept (evs ++ evs') = (slept evs + slept evs')%Z.
Proof.
  induction evs as [| e evs IH]; intro evs'; [reflexivity | ].
  destruct e; simpl; rewrite IH; lia.
Qed.

Lemma bounded_round : forall prefix remaining r evs,
    bounded remaining r evs ->
    List.length (runs prefix) <= 1 ->
    Forall (fun result => result <> Returned true) (runs prefix) ->
    (0 <= slept prefix <= 2)%Z ->
    bounded (S remaining) r (prefix ++ evs).
Proof.
  intros prefix remaining r evs [Hlen [[failures [Hruns Hfail]] Hslept]]
         Hl Hf Hs.
  unfold bounded. rewrite runs_app, slept_app, List.length_app.
  split; [lia | split; [ | lia]].
  exists (runs prefix ++ failures). split.
  - now rewrite Hruns, app_assoc.
  - apply Forall_app. now split.
Qed.

Ltac round IH :=
  match goal with
  | |- context [attempts ?rem ?a ?max ?s1] =>
      let evs := fresh "evs" in
      let Et := fresh "Et" in
      let HQ := fresh "HQ" in
      destruct (IH a s1) as [evs [Et HQ]];
      destruct (attempts rem a max s1) as [r' s'];
      simpl in Et, HQ |- *; rewrite Et, <- ?app_assoc;
      eexists; split; [reflexivity | ];
      first [ refine (bounded_round [_] _ _ _ HQ _ _ _)
            | refine (bounded_round [_; _] _ _ _ HQ _ _ _)
            | refine (bounded_round [_; _; _] _ _ _ HQ _ _ _)
            | refine (bounded_round [_; _; _; _] _ _ _ HQ _ _ _)
            | refine (bounded_round [_; _; _; _; _] _ _ _ HQ _ _ _) ];
      [ simpl; lia
      | simpl; repeat constructor; discriminate
      | simpl; lia ]
  end.

Lemma attempts_bounded : forall max_retries remaining attempt s,
    exists evs,
      trace (snd (attempts remaining attempt max_retries s)) = trace s ++ evs
      /\ bounded remaining (fst (attempts remaining attempt max_retries s)) evs.
Proof.
  intro max_retries.
  induction remaining as [| remaining IH]; intros attempt s.
  - exists []. simpl. rewrite app_nil_r. split; [reflexivity | ].
    split; [simpl; lia | split; [ | simpl; lia]].
    exists []. split; [reflexivity | constructor].
  - destruct s as [conn io cm op tr].
    simpl attempts.
    unfold isConnected, reconnect, run_operation, sleep_for, emit,
      bind, get, modify, ret. simpl.
    destruct conn; simpl.
    + destruct (io (List.length tr)); simpl.
      * destruct (op _) as [[] | | ]; simpl.
        -- eexists. rewrite <- ?app_assoc. split; [reflexivity | ].
           split; [simpl; lia | split; [ | simpl; lia]].
           exists []. split; [reflexivity | constructor].
        -- destruct (attempt <? max_retries - 1)%Z; simpl; round IH.
        -- destruct (cm _) as [[] | ]; simpl;
             destruct (attempt <? max_retries - 1)%Z; simpl; round IH.
        -- destruct (attempt <? max_retries - 1)%Z; simpl; round IH.
      * destruct (cm _) as [[] | ]; simpl; try round IH.
        destruct (op _) as [[] | | ]; simpl.
        -- eexists. rewrite <- ?app_assoc. split; [reflexivity | ].
           split; [simpl; lia | split; [ | simpl; lia]].
           exists []. split; [reflexivity | constructor].
        -- destruct (attempt <? max_retries - 1)%Z; simpl; round IH.
        -- destruct (cm _) as [[] | ]; simpl;
             destruct (attempt <? max_retries - 1)%Z; simpl; round IH.
        -- destruct (attempt <? max_retries - 1)%Z; simpl; round IH.
    + destruct (cm _) as [[] | ]; simpl; try round IH.
      destruct (op _) as [[] | | ]; simpl.
      * eexists. rewrite <- ?app_assoc. split; [reflexivity | ].
        split; [simpl; lia | split; [ | simpl; lia]].
        exists []. split; [reflexivity | constructor].
      * destruct (attempt <? max_retries - 1)%Z; simpl; round IH.
      * destruct (cm _) as [[] | ]; simpl;
          destruct (attempt <? max_retries - 1)%Z; simpl; round IH.
      * destruct (attempt <? max_retries - 1)%Z; simpl; round IH.
Qed.

(** X30.  [executeWithRetry] is bounded.  It runs the operation at most
    [max_retries] times, and not at all when [max_retries] is zero or
    negative.  It answers [true] exactly when the last run returned [true],
    and then no earlier run did, so that a statement that succeeded is
    never executed again.  It sleeps at most two seconds for each attempt. *)
Theorem retries_are_bounded :
  forall max_retries s,
    let evs := events_of (executeWithRetry max_retries) s in
    let r := fst (executeWithRetry max_retries s) in
    List.length (runs evs) <= Z.to_nat max_retries
    /\ (exists failures,
           runs evs = failures ++ (if r then [Returned true] else [])
           /\ Forall (fun result => result <> Returned true) failures)
    /\ (0 <= slept evs <= 2 * Z.max 0 max_retries)%Z
    /\ ((max_retries <= 0)%Z -> r = false /\ evs = []).
Proof.
  intros max_retries s evs r. subst evs r. unfold executeWithRetry, events_of.
  destruct (attempts_bounded max_retries (Z.to_nat max_retries) 0%Z s)
    as [evs [Et [Hlen [Hruns Hslept]]]].
  rewrite Et, skipn_app, skipn_all, Nat.sub_diag. cbn [skipn app].
  split; [exact Hlen | split; [exact Hruns | split; [lia | ]]].
  intro Hmax.
  assert (E : Z.to_nat max_retries = 0) by lia.
  clear Hlen Hruns Hslept. revert evs Et.
  rewrite E. simpl. intros evs Et.
  split; [reflexivity | ].
  apply (app_inv_head (trace s)). now rewrite <- Et, app_nil_r.
Qed.

End Retries.

Lemma retries_are_bounded_witness :
  List.length
    (RetrySpec.runs
       (RetrySpec.events_of (DatabaseRetry.executeWithRetry 3) RetrySpec.flaky))
  <= 3
  /\ fst (DatabaseRetry.executeWithRetry 0 RetrySpec.down) = false.
Proof.
  destruct (retries_are_bounded 3 RetrySpec.flaky) as [Hlen _].
  destruct (retries_are_bounded 0 RetrySpec.down) as [_ [_ [_ Hzero]]].
  split; [exact Hlen | ].
  apply Hzero. lia.
Defined.
